(** * Workbench: trade lifecycle, planner, risk engine, scoring and plans

    A shallow embedding of the services under [workbench/services] and of
    the HTTP handlers of [workbench/api/app.py] that drive them, with the
    properties of the specification stated over it.

    Modelling conventions.
    - Monetary amounts and prices are Python floats.  In the ledger, the
      risk engine and the planner they are modelled by exact rationals
      ([Qc]); rounding error is outside the model there.  The score is
      computed in binary64 ([float]), as numpy does: its rules compare
      means, and rounding decides such comparisons.
    - Identifiers are UUIDs; [str(uuid4())] is modelled by drawing the next
      value of a supply carried by the connection.
    - Timestamps ([datetime.now().isoformat()]) are modelled by their number
      of seconds and trade dates ([YYYY-MM-DD]) by their day number: the ISO
      strings of the code are only compared and ordered, and they order as
      these numbers do.
    - The store is the SQLite file.  A connection sees its own uncommitted
      writes; another reader sees committed states only. *)

From Stdlib Require Import ZArith QArith Qcanon Ascii String List Lia Lqa.
From Stdlib Require Import Floats.
From stdpp Require Import base numbers option list gmap strings sorting.

Local Open Scope string_scope.
Local Open Scope Z_scope.
Local Open Scope Qc_scope.

(** ** Numbers *)

Definition uuid : Type := N.
Definition timestamp : Type := Z.
Definition trade_date : Type := Z.
Bind Scope N_scope with uuid.
Bind Scope Z_scope with timestamp.
Bind Scope Z_scope with trade_date.

(** [float(n)] for an integer [n]. *)
Definition Qc_of_int (n : Z) : Qc := Qc_of_Z n.

(** A decimal literal such as [0.0003], written [dec 3 10000]. *)
Definition dec (n : Z) (d : positive) : Qc := Q2Qc (Qmake n d).

(** [int(x)] for a float [x]: truncation toward zero. *)
Definition py_int (x : Qc) : Z := Z.quot (Qnum (this x)) (Zpos (Qden (this x))).

(** [abs(x)]. *)
Definition Qc_abs (x : Qc) : Qc := if decide (x < 0) then - x else x.

Definition Qc_ltb (x y : Qc) : bool := bool_decide (x < y).
Definition Qc_leb (x y : Qc) : bool := bool_decide (x ≤ y).
Definition Qc_eqb (x y : Qc) : bool := bool_decide (x = y).

(** ** Exceptions and the connection monad *)

Inductive exn : Type :=
  | ValueError (msg : string)
  | KeyError (msg : string)
  | ZeroDivisionError.

Inductive result (A : Type) : Type :=
  | Ok (a : A)
  | Raise (e : exn).
Arguments Ok {A} a.
Arguments Raise {A} e.

(** ** Rows of the store *)

Record position := { qty : Z; avg_cost : Qc }.

Record draft := {
  draft_id : uuid;
  d_portfolio_id : uuid;
  d_symbol : string;
  d_exchange : string;
  d_side : string;
  d_order_type : string;
  d_price : option Qc;
  d_qty : Z;
  d_origin : string }.

Record bar := {
  b_symbol : string;
  b_exchange : string;
  b_trade_date : trade_date;
  b_adj : string;
  b_close : option Qc;
  b_amount : option Qc;
  b_pre_close : option Qc }.

Record item := {
  code : string;
  level : string;
  i_draft_id : option uuid }.

Record riskcheck_row := {
  r_created_at : timestamp;
  r_status : string;
  r_items : list item;
  r_ruleset_version : string;
  input_draft_ids : list uuid }.

Record sim_trade := {
  trade_id : uuid;
  t_order_id : uuid;
  t_portfolio_id : uuid;
  filled_at : timestamp;
  t_symbol : string;
  t_exchange : string;
  t_side : string;
  fill_price : Qc;
  fill_qty : Z;
  fee : Qc;
  slippage : Qc }.

Record sim_order := {
  order_id : uuid;
  o_portfolio_id : uuid;
  o_created_at : timestamp;
  o_status : string;
  draft_ids : list uuid;
  filled_qty : Z;
  avg_fill_price : option Qc;
  fee_total : Qc;
  slippage_total : Qc }.

Record audit_row := {
  audit_id : uuid;
  a_ts : timestamp;
  actor : string;
  action : string;
  entity_type : string;
  entity_id : uuid }.

Record plan_row := {
  plan_id : uuid;
  p_symbol : string;
  p_exchange : string;
  p_created_at : timestamp;
  plan_version : Z }.

Record score_row := {
  score_id : uuid;
  s_symbol : string;
  s_exchange : string;
  s_trade_date : trade_date;
  s_score_total : float }.

(** The tables the modelled services read and write.  Columns no modelled
    statement reads ([updated_at], free text, JSON bodies) are left out. *)
Record db := {
  portfolio_accounts : gmap uuid Qc;
  positions : gmap (uuid * string * string) position;
  order_drafts : list draft;
  bars_daily : list bar;
  risk_check_results : gmap uuid riskcheck_row;
  sim_orders : list sim_order;
  sim_trades : list sim_trade;
  audit_log : list audit_row;
  trade_plans : list plan_row;
  score_snapshots : list score_row }.

Definition empty_db : db :=
  {| portfolio_accounts := ∅; positions := ∅; order_drafts := [];
     bars_daily := []; risk_check_results := ∅; sim_orders := [];
     sim_trades := []; audit_log := []; trade_plans := [];
     score_snapshots := [] |}.

(** Column-wise updates of the store. *)
Definition set_portfolio_accounts (f : gmap uuid Qc → gmap uuid Qc) (s : db) : db :=
  {| portfolio_accounts := f (portfolio_accounts s); positions := positions s;
     order_drafts := order_drafts s; bars_daily := bars_daily s;
     risk_check_results := risk_check_results s; sim_orders := sim_orders s;
     sim_trades := sim_trades s; audit_log := audit_log s;
     trade_plans := trade_plans s; score_snapshots := score_snapshots s |}.

Definition set_positions
    (f : gmap (uuid * string * string) position → gmap (uuid * string * string) position)
    (s : db) : db :=
  {| portfolio_accounts := portfolio_accounts s; positions := f (positions s);
     order_drafts := order_drafts s; bars_daily := bars_daily s;
     risk_check_results := risk_check_results s; sim_orders := sim_orders s;
     sim_trades := sim_trades s; audit_log := audit_log s;
     trade_plans := trade_plans s; score_snapshots := score_snapshots s |}.

Definition set_risk_check_results
    (f : gmap uuid riskcheck_row → gmap uuid riskcheck_row) (s : db) : db :=
  {| portfolio_accounts := portfolio_accounts s; positions := positions s;
     order_drafts := order_drafts s; bars_daily := bars_daily s;
     risk_check_results := f (risk_check_results s); sim_orders := sim_orders s;
     sim_trades := sim_trades s; audit_log := audit_log s;
     trade_plans := trade_plans s; score_snapshots := score_snapshots s |}.

Definition set_sim_orders (f : list sim_order → list sim_order) (s : db) : db :=
  {| portfolio_accounts := portfolio_accounts s; positions := positions s;
     order_drafts := order_drafts s; bars_daily := bars_daily s;
     risk_check_results := risk_check_results s; sim_orders := f (sim_orders s);
     sim_trades := sim_trades s; audit_log := audit_log s;
     trade_plans := trade_plans s; score_snapshots := score_snapshots s |}.

Definition set_sim_trades (f : list sim_trade → list sim_trade) (s : db) : db :=
  {| portfolio_accounts := portfolio_accounts s; positions := positions s;
     order_drafts := order_drafts s; bars_daily := bars_daily s;
     risk_check_results := risk_check_results s; sim_orders := sim_orders s;
     sim_trades := f (sim_trades s); audit_log := audit_log s;
     trade_plans := trade_plans s; score_snapshots := score_snapshots s |}.

Definition set_audit_log (f : list audit_row → list audit_row) (s : db) : db :=
  {| portfolio_accounts := portfolio_accounts s; positions := positions s;
     order_drafts := order_drafts s; bars_daily := bars_daily s;
     risk_check_results := risk_check_results s; sim_orders := sim_orders s;
     sim_trades := sim_trades s; audit_log := f (audit_log s);
     trade_plans := trade_plans s; score_snapshots := score_snapshots s |}.

Definition set_trade_plans (f : list plan_row → list plan_row) (s : db) : db :=
  {| portfolio_accounts := portfolio_accounts s; positions := positions s;
     order_drafts := order_drafts s; bars_daily := bars_daily s;
     risk_check_results := risk_check_results s; sim_orders := sim_orders s;
     sim_trades := sim_trades s; audit_log := audit_log s;
     trade_plans := f (trade_plans s); score_snapshots := score_snapshots s |}.

Definition set_score_snapshots (f : list score_row → list score_row) (s : db) : db :=
  {| portfolio_accounts := portfolio_accounts s; positions := positions s;
     order_drafts := order_drafts s; bars_daily := bars_daily s;
     risk_check_results := risk_check_results s; sim_orders := sim_orders s;
     sim_trades := sim_trades s; audit_log := audit_log s;
     trade_plans := trade_plans s; score_snapshots := f (score_snapshots s) |}.

Definition set_order_drafts (f : list draft → list draft) (s : db) : db :=
  {| portfolio_accounts := portfolio_accounts s; positions := positions s;
     order_drafts := f (order_drafts s); bars_daily := bars_daily s;
     risk_check_results := risk_check_results s; sim_orders := sim_orders s;
     sim_trades := sim_trades s; audit_log := audit_log s;
     trade_plans := trade_plans s; score_snapshots := score_snapshots s |}.

(** ** The connection ([sqlite3.Connection], [db/conn.py])

    The connection is opened with the module's default transaction control:
    a data-modifying statement opens a transaction when none is open, the
    connection reads its own uncommitted writes, [commit] makes them durable
    and [rollback] drops them.  [committed] is the content of the file,
    [working] is what this connection reads, and [commit_log] records, oldest
    first, every state this connection has committed: these are the states
    another reader can observe. *)
Record conn := {
  committed : db;
  working : db;
  commit_log : list db;
  clock : timestamp;
  entropy : uuid }.

Definition connect (s : db) (t : timestamp) (seed : uuid) : conn :=
  {| committed := s; working := s; commit_log := []; clock := t; entropy := seed |}.

Definition M (A : Type) : Type := conn → result A * conn.

Global Instance M_ret : MRet M := λ A a c, (Ok a, c).
Global Instance M_bind : MBind M := λ A B f m c,
  match m c with
  | (Ok a, c') => f a c'
  | (Raise e, c') => (Raise e, c')
  end.

Definition raise {A} (e : exn) : M A := λ c, (Raise e, c).

(** [conn.execute] of a SELECT. *)
Definition query {A} (f : db → A) : M A := λ c, (Ok (f (working c)), c).

(** [conn.execute] of an INSERT, UPDATE or DELETE. *)
Definition execute (f : db → db) : M unit := λ c,
  (Ok (), {| committed := committed c; working := f (working c);
             commit_log := commit_log c; clock := clock c; entropy := entropy c |}).

Definition commit (c : conn) : conn :=
  {| committed := working c; working := working c;
     commit_log := (commit_log c ++ [working c])%list;
     clock := clock c; entropy := entropy c |}.

Definition rollback (c : conn) : conn :=
  {| committed := committed c; working := committed c;
     commit_log := commit_log c; clock := clock c; entropy := entropy c |}.

(** [with self._conn: body].  Entering does nothing; leaving commits when the
    body returned and rolls back when it raised, and the exception goes on.
    The statement does not nest: an inner [with] commits the transaction the
    outer one is in. *)
Definition with_conn {A} (body : M A) : M A := λ c,
  match body c with
  | (Ok a, c') => (Ok a, commit c')
  | (Raise e, c') => (Raise e, rollback c')
  end.

(** [conn.close()]: uncommitted writes are dropped. *)
Definition close (c : conn) : conn := rollback c.

(** [str(uuid4())]. *)
Definition uuid4 : M uuid := λ c,
  (Ok (entropy c), {| committed := committed c; working := working c;
                      commit_log := commit_log c; clock := clock c;
                      entropy := N.succ (entropy c) |}).

(** [datetime.now().isoformat(timespec="seconds")]. *)
Definition now : M timestamp := λ c, (Ok (clock c), c).

(** [for x in xs: s = body(s, x)], stopping at the first exception. *)
Fixpoint for_each {A S} (body : S → A → M S) (s : S) (xs : list A) : M S :=
  match xs with
  | [] => mret s
  | x :: xs' => s' ← body s x; for_each body s' xs'
  end.

(** Python's float division [x / y]. *)
Definition py_div (x y : Qc) : M Qc :=
  if decide (y = 0) then raise ZeroDivisionError else mret (x / y).

(** ** Latest close ([_latest_close] of the portfolio, sim and risk services)

    [SELECT close FROM bars_daily WHERE symbol=? AND exchange=? AND adj='RAW'
     ORDER BY trade_date DESC LIMIT 1], then
    [float(row[0]) if row and row[0] is not None else None]. *)

Definition bars_of (sym exch adj : string) (bars : list bar) : list bar :=
  filter (λ b, b_symbol b = sym ∧ b_exchange b = exch ∧ b_adj b = adj) bars.

Definition bar_newer (a b : bar) : Prop := (b_trade_date b ≤ b_trade_date a)%Z.
Global Instance bar_newer_dec : RelDecision bar_newer.
Proof. intros a b. unfold bar_newer. apply _. Defined.

(** [ORDER BY trade_date DESC]. *)
Definition newest_first (bs : list bar) : list bar := merge_sort bar_newer bs.

Definition latest_bar (sym exch : string) (s : db) : option bar :=
  head (newest_first (bars_of sym exch "RAW" (bars_daily s))).

Definition latest_close_of (sym exch : string) (s : db) : option Qc :=
  b ← latest_bar sym exch s; b_close b.

Definition _latest_close (sym exch : string) : M (option Qc) :=
  query (latest_close_of sym exch).

(** ** [services/portfolios.py] *)
Module PortfolioRepo.

Definition get_cash (portfolio_id : uuid) : M Qc :=
  row ← query (λ s, portfolio_accounts s !! portfolio_id);
  match row with
  | None => raise (KeyError "portfolio not found")
  | Some cash => mret cash
  end.

(** [UPDATE portfolio_accounts SET cash=? WHERE portfolio_id=?]. *)
Definition set_cash (portfolio_id : uuid) (cash : Qc) : M unit :=
  with_conn (execute (set_portfolio_accounts (alter (λ _, cash) portfolio_id))).

Definition get_position (portfolio_id : uuid) (symbol exchange : string)
    : M (option position) :=
  query (λ s, positions s !! (portfolio_id, symbol, exchange)).

(** [INSERT ... ON CONFLICT(portfolio_id, symbol, exchange) DO UPDATE]. *)
Definition upsert_position (portfolio_id : uuid) (symbol exchange : string)
    (q : Z) (avg : Qc) : M unit :=
  with_conn (execute (set_positions
    (<[(portfolio_id, symbol, exchange) := {| qty := q; avg_cost := avg |}]>))).

Definition delete_position (portfolio_id : uuid) (symbol exchange : string) : M unit :=
  with_conn (execute (set_positions (delete (portfolio_id, symbol, exchange)))).

End PortfolioRepo.

(** ** [services/sim.py] *)
Module SimService.

(** [SIM_FEE_RATE] and [SIM_SLIPPAGE_RATE], read in [__init__]. *)
Record config := { fee_rate : Qc; slippage_rate : Qc }.

Definition default_config : config :=
  {| fee_rate := dec 3 10000; slippage_rate := dec 5 10000 |}.

(** The locals the loop of [confirm] updates. *)
Record totals := {
  cash : Qc;
  total_fee : Qc;
  total_slip : Qc;
  filled_qty_total : Z;
  fill_value_total : Qc;
  trades : list sim_trade }.

(** The dict [confirm] returns. *)
Record receipt := {
  res_order_id : uuid;
  res_status : string;
  res_filled_qty : Z;
  res_avg_fill_price : option Qc;
  res_fee_total : Qc;
  res_slippage_total : Qc;
  res_trades : list sim_trade;
  res_cash : Qc }.

Definition _apply_position (portfolio_id : uuid) (symbol exchange side : string)
    (q : Z) (fill fee_ slippage_ : Qc) : M unit :=
  pos ← PortfolioRepo.get_position portfolio_id symbol exchange;
  let old_qty := from_option qty 0%Z pos in
  let old_avg := from_option avg_cost 0 pos in
  if decide (side = "BUY") then
    let new_qty := (old_qty + q)%Z in
    let new_cost_total :=
      (old_avg * Qc_of_int old_qty) + (fill * Qc_of_int q) + fee_ + slippage_ in
    let new_avg :=
      if decide (new_qty = 0%Z) then 0 else new_cost_total / Qc_of_int new_qty in
    PortfolioRepo.upsert_position portfolio_id symbol exchange new_qty new_avg
  else
    let new_qty := (old_qty - q)%Z in
    if decide (new_qty < 0)%Z then raise (ValueError "position would go negative")
    else if decide (new_qty = 0%Z) then
      PortfolioRepo.delete_position portfolio_id symbol exchange
    else
      PortfolioRepo.upsert_position portfolio_id symbol exchange new_qty old_avg.

(** One iteration of [for d in draft_rows]. *)
Definition fill_leg (cfg : config) (portfolio_id order : uuid) (ts : timestamp)
    (acc : totals) (d : draft) : M totals :=
  let sym := d_symbol d in
  let exch := d_exchange d in
  let side := d_side d in
  let q := d_qty d in
  let limit_price := d_price d in
  latest ← _latest_close sym exch;
  match latest with
  | None => raise (ValueError "no latest price")
  | Some base_price =>
    let fill := from_option id base_price limit_price in
    let slippage_ := base_price * slippage_rate cfg * Qc_of_int q in
    let fee_ := fill * Qc_of_int q * fee_rate cfg in
    let cash' :=
      if decide (side = "BUY")
      then cash acc - ((fill * Qc_of_int q) + fee_ + slippage_)
      else cash acc + ((fill * Qc_of_int q) - fee_ - slippage_) in
    tid ← uuid4;
    let row := {| trade_id := tid; t_order_id := order;
                  t_portfolio_id := portfolio_id; filled_at := ts;
                  t_symbol := sym; t_exchange := exch; t_side := side;
                  fill_price := fill; fill_qty := q; fee := fee_;
                  slippage := slippage_ |} in
    execute (set_sim_trades (λ l, (l ++ [row])%list));;
    _apply_position portfolio_id sym exch side q fill fee_ slippage_;;
    mret {| cash := cash';
            total_fee := total_fee acc + fee_;
            total_slip := total_slip acc + slippage_;
            filled_qty_total := (filled_qty_total acc + q)%Z;
            fill_value_total := fill_value_total acc + fill * Qc_of_int q;
            trades := (trades acc ++ [row])%list |}
  end.

Definition avg_fill (acc : totals) : option Qc :=
  if decide (filled_qty_total acc = 0%Z) then None
  else Some (fill_value_total acc / Qc_of_int (filled_qty_total acc)).

Definition confirm (cfg : config) (portfolio_id : uuid) (draft_rows : list draft)
    (riskcheck_id : uuid) : M receipt :=
  if decide (draft_rows = []) then raise (ValueError "draft_rows empty") else
  row ← query (λ s, r_status <$> risk_check_results s !! riskcheck_id);
  match row with
  | None => raise (ValueError "riskcheck_id not found")
  | Some status =>
    if decide (status = "FAIL") then raise (ValueError "risk check failed") else
    cash0 ← PortfolioRepo.get_cash portfolio_id;
    order ← uuid4;
    ts ← now;
    acc ← with_conn (
      acc ← for_each (fill_leg cfg portfolio_id order ts)
              {| cash := cash0; total_fee := 0; total_slip := 0;
                 filled_qty_total := 0%Z; fill_value_total := 0; trades := [] |}
              draft_rows;
      execute (set_sim_orders (λ l, (l ++ [
        {| order_id := order; o_portfolio_id := portfolio_id; o_created_at := ts;
           o_status := "FILLED"; draft_ids := draft_id <$> draft_rows;
           filled_qty := filled_qty_total acc; avg_fill_price := avg_fill acc;
           fee_total := total_fee acc; slippage_total := total_slip acc |}])%list));;
      PortfolioRepo.set_cash portfolio_id (cash acc);;
      mret acc);
    mret {| res_order_id := order; res_status := "FILLED";
            res_filled_qty := filled_qty_total acc;
            res_avg_fill_price := avg_fill acc;
            res_fee_total := total_fee acc;
            res_slippage_total := total_slip acc;
            res_trades := trades acc;
            res_cash := cash acc |}
  end.

End SimService.

(** ** [services/order_drafts.py] *)
Module OrderDraftRepo.

(** [SELECT ... FROM order_drafts WHERE draft_id IN (...)]: the rows come in
    table order, whatever the order of [draft_ids]. *)
Definition get_many (draft_ids : list uuid) : M (list draft) :=
  if decide (draft_ids = []) then mret []
  else query (λ s, filter (λ d, draft_id d ∈ draft_ids) (order_drafts s)).

(** [INSERT INTO order_drafts(...)] under a new id; the [notes] and the two
    timestamps are columns no modelled statement reads. *)
Definition create (portfolio_id : uuid) (symbol exchange side order_type : string)
    (price : option Qc) (q : Z) (origin : string) : M uuid :=
  did ← uuid4;
  _ ← now;
  with_conn (execute (set_order_drafts (λ l, (l ++ [
    {| draft_id := did; d_portfolio_id := portfolio_id; d_symbol := symbol;
       d_exchange := exchange; d_side := side; d_order_type := order_type;
       d_price := price; d_qty := q; d_origin := origin |}])%list)));;
  mret did.

(** [DELETE FROM order_drafts WHERE draft_id=?]. *)
Definition delete (draft_id_ : uuid) : M unit :=
  with_conn (execute (set_order_drafts (filter (λ d, draft_id d ≠ draft_id_)))).

End OrderDraftRepo.

(** ** [services/audit.py] *)
Module AuditLogger.

Definition log (actor_ action_ entity_type_ : string) (entity_id_ : uuid) : M uuid :=
  aid ← uuid4;
  ts ← now;
  with_conn (execute (set_audit_log (λ l, (l ++ [
    {| audit_id := aid; a_ts := ts; actor := actor_; action := action_;
       entity_type := entity_type_; entity_id := entity_id_ |}])%list)));;
  mret aid.

End AuditLogger.

(** ** The HTTP layer ([api/app.py], [errors.py]) *)
Module ErrorCodes.
Definition DATA_NOT_READY := "DATA_NOT_READY".
Definition RISK_CHECK_FAIL := "RISK_CHECK_FAIL".
Definition VALIDATION_ERROR := "VALIDATION_ERROR".
End ErrorCodes.

(** What a handler answers: [api_ok], [api_err], or an exception no handler
    code catches, which the framework turns into a 500. *)
Inductive response (A : Type) : Type :=
  | api_ok (data : A)
  | api_err (code_ message : string) (status_code : Z)
  | uncaught (e : exn).
Arguments api_ok {A} data.
Arguments api_err {A} code_ message status_code.
Arguments uncaught {A} e.

(** [try: body except ValueError as e: handler(str(e))]. *)
Definition except_ValueError {A} (body : M A) (handler : string → M A) : M A := λ c,
  match body c with
  | (Raise (ValueError msg), c') => handler msg c'
  | r => r
  end.

(** A request: [conn = connect(config.db_path); try: ... finally: conn.close()]
    run against the store content [s]. *)
Definition serve {A} (handler : M (response A)) (s : db) (t : timestamp) (seed : uuid)
    : response A * conn :=
  match handler (connect s t seed) with
  | (Ok r, c) => (r, close c)
  | (Raise e, c) => (uncaught e, close c)
  end.

(** The store states a reader may observe while the request runs. *)
Definition observable {A} (s : db) (run : response A * conn) : list db :=
  s :: commit_log run.2.

Module Api.

Record sim_confirm_body := {
  body_draft_ids : option (list uuid);
  body_riskcheck_id : option uuid }.

Definition sim_confirm (cfg : SimService.config) (body : sim_confirm_body)
    : M (response SimService.receipt) :=
  let draft_ids := default [] (body_draft_ids body) in
  match body_riskcheck_id body with
  | None => mret (api_err ErrorCodes.VALIDATION_ERROR "riskcheck_id is required" 400)
  | Some riskcheck_id =>
    except_ValueError (
      drafts ← OrderDraftRepo.get_many draft_ids;
      match drafts with
      | [] => mret (api_err ErrorCodes.VALIDATION_ERROR "no drafts found" 400)
      | d0 :: _ =>
        let portfolio_id := d_portfolio_id d0 in
        if existsb (λ d, negb (bool_decide (d_portfolio_id d = portfolio_id))) drafts
        then mret (api_err ErrorCodes.VALIDATION_ERROR
                     "drafts must belong to the same portfolio" 400)
        else
          result ← SimService.confirm cfg portfolio_id drafts riskcheck_id;
          AuditLogger.log "user" "sim.confirm" "sim_order"
            (SimService.res_order_id result);;
          mret (api_ok result)
      end)
      (λ msg, mret (api_err ErrorCodes.RISK_CHECK_FAIL msg 409))
  end.

End Api.

(** ** [services/risk_rules.py] *)

(** [str.upper], on ASCII letters. *)
Definition upper_ascii (a : Ascii.ascii) : Ascii.ascii :=
  let n := Ascii.N_of_ascii a in
  if ((97 <=? n) && (n <=? 122))%N then Ascii.ascii_of_N (n - 32) else a.

Fixpoint upper (s : string) : string :=
  match s with
  | EmptyString => EmptyString
  | String a s' => String (upper_ascii a) (upper s')
  end.

(** [DATE(ts)] and [strftime("%Y-%m-%d")]: the day of a timestamp. *)
Definition date_of (ts : timestamp) : Z := (ts / 86400)%Z.

Module RiskRulesRepo.

(** The dict [get_all_rules] returns (environment defaults overlaid with the
    [risk_rules] table), restricted to the rules the risk engine reads. *)
Record rules := {
  max_position_per_symbol : Qc;
  min_cash_ratio : Qc;
  max_order_value : Qc;
  min_order_value : Qc;
  max_orders_per_day : Z;
  max_order_frequency_seconds : Z;
  price_deviation_limit : Qc;
  lot_size : Z;
  max_daily_trading_value : Qc }.

Definition default_rules : rules :=
  {| max_position_per_symbol := dec 25 100;
     min_cash_ratio := dec 5 100;
     max_order_value := Qc_of_int 200000;
     min_order_value := Qc_of_int 1000;
     max_orders_per_day := 50;
     max_order_frequency_seconds := 60;
     price_deviation_limit := dec 3 100;
     lot_size := 100;
     max_daily_trading_value := Qc_of_int 1000000 |}.

Definition mk_item (code_ level_ : string) (d : option uuid) : item :=
  {| code := code_; level := level_; i_draft_id := d |}.

(** [SELECT filled_at FROM sim_trades WHERE ... ORDER BY filled_at DESC LIMIT 1]. *)
Definition get_last_order_time (portfolio_id : uuid) (symbol exchange : string)
    : M (option timestamp) :=
  query (λ s,
    let ts := filled_at <$>
      filter (λ t, t_portfolio_id t = portfolio_id ∧ t_symbol t = symbol
                   ∧ t_exchange t = exchange) (sim_trades s) in
    match ts with
    | [] => None
    | t0 :: ts' => Some (foldr Z.max t0 ts')
    end).

Definition check_price_limit (symbol exchange side : string) (latest_price : option Qc)
    : M (option item) :=
  match latest_price with
  | None => mret None
  | Some lp =>
    if decide (lp = 0) then mret None else
    row ← query (latest_bar symbol exchange);
    match row with
    | None => mret None
    | Some b =>
      match b_close b, b_pre_close b with
      | Some current_price, Some pre_close =>
        change_pct ← py_div (current_price - pre_close) pre_close;
        if decide (dec 99 1000 ≤ change_pct) then
          mret (Some (mk_item "RISK_LIMIT_UP"
                        (if decide (side = "SELL") then "WARN" else "FAIL") None))
        else if decide (change_pct ≤ - dec 99 1000) then
          mret (Some (mk_item "RISK_LIMIT_DOWN"
                        (if decide (side = "BUY") then "WARN" else "FAIL") None))
        else mret None
      | _, _ => mret None
      end
    end
  end.

Definition check_daily_trading_value (r : rules) (portfolio_id : uuid)
    (order_value : Qc) : M (option item) :=
  ts ← now;
  today_value ← query (λ s,
    foldr Qcplus 0 ((λ t, fill_price t * Qc_of_int (fill_qty t)) <$>
      filter (λ t, t_portfolio_id t = portfolio_id ∧ date_of (filled_at t) = date_of ts)
             (sim_trades s)));
  let projected_value := today_value + order_value in
  if decide (max_daily_trading_value r < projected_value)
  then mret (Some (mk_item "RISK_DAILY_VALUE_LIMIT" "WARN" None))
  else mret None.

Definition check_order_frequency (r : rules) (portfolio_id : uuid)
    (symbol exchange : string) : M (option item) :=
  last_order ← get_last_order_time portfolio_id symbol exchange;
  match last_order with
  | Some last =>
    ts ← now;
    let elapsed := (ts - last)%Z in
    if decide (elapsed < max_order_frequency_seconds r)%Z
    then mret (Some (mk_item "RISK_ORDER_FREQUENCY" "WARN" None))
    else mret None
  | None => mret None
  end.

Definition check_max_orders_per_day (r : rules) (portfolio_id : uuid)
    : M (option item) :=
  ts ← now;
  orders_today ← query (λ s, Z.of_nat (length
    (filter (λ o, o_portfolio_id o = portfolio_id
                  ∧ date_of (o_created_at o) = date_of ts) (sim_orders s))));
  if decide (max_orders_per_day r ≤ orders_today)%Z
  then mret (Some (mk_item "RISK_MAX_ORDERS_PER_DAY" "WARN" None))
  else mret None.

End RiskRulesRepo.

(** ** [services/risk.py] *)
Module RiskService.
Import RiskRulesRepo.

Definition DEFAULT_RULESET_VERSION := "risk/v1".

(** The locals the loop of [check] updates. *)
Record sim_state := {
  items : list item;
  status : string;
  cash_now : Qc;
  pos_qty_map : gmap (string * string) Z }.

(** The dict [check] returns. *)
Record payload := {
  p_status : string;
  p_items : list item;
  cash_before : Qc;
  cash_after_est : Qc;
  total_equity_est : Qc }.

Definition _get_cash (portfolio_id : uuid) : M Qc :=
  row ← query (λ s, portfolio_accounts s !! portfolio_id);
  match row with
  | None => raise (KeyError "portfolio not found")
  | Some c => mret c
  end.

(** [SELECT symbol, exchange, qty FROM positions WHERE portfolio_id=?] as a dict. *)
Definition positions_qty_map_of (portfolio_id : uuid) (s : db)
    : gmap (string * string) Z :=
  list_to_map (omap (λ kp : uuid * string * string * position,
      if decide (kp.1.1.1 = portfolio_id)
      then Some ((kp.1.1.2, kp.1.2), qty kp.2) else None)
    (map_to_list (positions s))).

Definition _positions_qty_map (portfolio_id : uuid) : M (gmap (string * string) Z) :=
  query (positions_qty_map_of portfolio_id).

Definition positions_market_value_of (m : gmap (string * string) Z) (s : db)
    : Qc * bool :=
  map_fold (λ k q (acc : Qc * bool),
      match latest_close_of k.1 k.2 s with
      | None => (acc.1, true)
      | Some px => (acc.1 + Qc_of_int q * px, acc.2)
      end) (0, false) m.

Definition _positions_market_value (m : gmap (string * string) Z) : M (Qc * bool) :=
  query (positions_market_value_of m).

(** [items.append(it)] with [status = "FAIL"]. *)
Definition fail (it : item) (st : sim_state) : sim_state :=
  {| items := (items st ++ [it])%list; status := "FAIL";
     cash_now := cash_now st; pos_qty_map := pos_qty_map st |}.

(** [items.append(it)] with [if status != "FAIL": status = "WARN"]. *)
Definition warn (it : item) (st : sim_state) : sim_state :=
  {| items := (items st ++ [it])%list;
     status := if decide (status st = "FAIL") then status st else "WARN";
     cash_now := cash_now st; pos_qty_map := pos_qty_map st |}.

(** [items.append(it)] with the status taken from the item's level unless
    the status is already [FAIL]. *)
Definition flag (it : item) (st : sim_state) : sim_state :=
  {| items := (items st ++ [it])%list;
     status := if decide (status st = "FAIL") then status st else level it;
     cash_now := cash_now st; pos_qty_map := pos_qty_map st |}.

(** [if limit_check["level"] == "FAIL": status = "FAIL"
     elif status != "FAIL": status = "WARN"]. *)
Definition flag_limit (it : item) (st : sim_state) : sim_state :=
  if decide (level it = "FAIL") then fail it st else warn it st.

Definition note (o : option item) (f : item → sim_state → sim_state)
    (st : sim_state) : sim_state :=
  match o with Some it => f it st | None => st end.

Definition trade (st : sim_state) (cash' : Qc) (k : string * string) (q : Z)
    : sim_state :=
  {| items := items st; status := status st; cash_now := cash';
     pos_qty_map := <[k := q]> (pos_qty_map st) |}.

(** One iteration of [for d in draft_rows]. *)
Definition check_draft (r : rules) (portfolio_id : uuid) (total_equity : Qc)
    (st : sim_state) (d : draft) : M sim_state :=
  let sym := d_symbol d in
  let exch := d_exchange d in
  let side := upper (d_side d) in
  let q := d_qty d in
  let limit_price := d_price d in
  let did := Some (draft_id d) in
  if decide (q ≤ 0)%Z then mret (fail (mk_item "RISK_INVALID_QTY" "FAIL" did) st)
  else if decide (lot_size r = 0%Z) then raise ZeroDivisionError
  else if decide (q `mod` lot_size r ≠ 0)%Z
  then mret (fail (mk_item "RISK_INVALID_QTY" "FAIL" did) st)
  else
  latest ← _latest_close sym exch;
  match latest with
  | None => mret (fail (mk_item "DATA_NOT_READY" "FAIL" did) st)
  | Some latest_px =>
    let order_price := from_option id latest_px limit_price in
    let order_value := order_price * Qc_of_int q in
    st ← match limit_price with
         | Some _ =>
           deviation ← py_div (Qc_abs (order_price - latest_px)) latest_px;
           if decide (price_deviation_limit r < deviation)
           then mret (warn (mk_item "RISK_PRICE_DEVIATION" "WARN" did) st)
           else mret st
         | None => mret st
         end;
    st ← (if decide (side = "BUY") then
            freq_check ← check_order_frequency r portfolio_id sym exch;
            mret (note freq_check flag st)
          else mret st);
    limit_check ← check_price_limit sym exch side (Some latest_px);
    let st := note limit_check flag_limit st in
    st ← (if decide (side = "BUY") then
            daily_value_check ← check_daily_trading_value r portfolio_id order_value;
            mret (note daily_value_check warn st)
          else mret st);
    let st := if decide (order_value < min_order_value r)
              then warn (mk_item "RISK_MIN_ORDER_VALUE" "WARN" did) st else st in
    let st := if decide (max_order_value r < order_value)
              then warn (mk_item "RISK_MAX_ORDER_VALUE" "WARN" did) st else st in
    let cur_qty := default 0%Z (pos_qty_map st !! (sym, exch)) in
    if decide (side = "SELL") then
      if decide (cur_qty < q)%Z
      then mret (fail (mk_item "RISK_SELL_QTY_EXCEEDS_POSITION" "FAIL" did) st)
      else mret (trade st (cash_now st + order_value) (sym, exch) (cur_qty - q)%Z)
    else if decide (side ≠ "BUY")
    then mret (fail (mk_item "RISK_UNSUPPORTED_SIDE" "FAIL" did) st)
    else if decide (cash_now st < order_value)
    then mret (fail (mk_item "RISK_INSUFFICIENT_CASH" "FAIL" did) st)
    else
      let st := trade st (cash_now st - order_value) (sym, exch) (cur_qty + q)%Z in
      if decide (0 < total_equity ∧ cash_now st / total_equity < min_cash_ratio r)
      then mret (fail (mk_item "RISK_MIN_CASH_RATIO" "FAIL" did) st)
      else
        let pos_value := Qc_of_int (cur_qty + q) * latest_px in
        if decide (0 < total_equity
                   ∧ max_position_per_symbol r < pos_value / total_equity)
        then mret (fail (mk_item "RISK_POSITION_LIMIT" "FAIL" did) st)
        else mret st
  end.

Definition PRICE_MISSING : item :=
  mk_item "RISK_PRICE_MISSING_FOR_SOME_POSITIONS" "WARN" None.

(** The batch-level step after the loop:
    [if price_missing and status == "PASS": ...]. *)
Definition batch_check (price_missing : bool) (st : sim_state) : sim_state :=
  if price_missing && bool_decide (status st = "PASS")
  then {| items := (items st ++ [PRICE_MISSING])%list; status := "WARN";
          cash_now := cash_now st; pos_qty_map := pos_qty_map st |}
  else st.

(** [check] up to the end of the loop over the drafts: the pre-check, the
    mark-to-market of the held positions and the per-draft checks. *)
Definition draft_checks (r : rules) (portfolio_id : uuid) (draft_rows : list draft)
    : M (Qc * Qc * bool * sim_state) :=
  cash ← _get_cash portfolio_id;
  held ← _positions_qty_map portfolio_id;
  let st := {| items := []; status := "PASS"; cash_now := cash;
               pos_qty_map := held |} in
  daily_orders_check ← check_max_orders_per_day r portfolio_id;
  let st := note daily_orders_check warn st in
  '(positions_mv, price_missing) ← _positions_market_value held;
  let total_equity := cash + positions_mv in
  let total_equity := if decide (total_equity ≤ 0) then cash else total_equity in
  st ← for_each (check_draft r portfolio_id total_equity) st draft_rows;
  mret (cash, total_equity, price_missing, st).

Definition check (r : rules) (draft_rows : list draft) : M (uuid * payload) :=
  match draft_rows with
  | [] => raise (ValueError "draft_ids empty")
  | d0 :: _ =>
    let portfolio_id := d_portfolio_id d0 in
    if existsb (λ d, negb (bool_decide (d_portfolio_id d = portfolio_id))) draft_rows
    then raise (ValueError "drafts must belong to the same portfolio") else
    '(cash, total_equity, price_missing, st) ←
      draft_checks r portfolio_id draft_rows;
    let st := batch_check price_missing st in
    riskcheck_id ← uuid4;
    ts ← now;
    with_conn (execute (set_risk_check_results (<[riskcheck_id :=
      {| r_created_at := ts; r_status := status st; r_items := items st;
         r_ruleset_version := DEFAULT_RULESET_VERSION;
         input_draft_ids := draft_id <$> draft_rows |}]>)));;
    mret (riskcheck_id,
          {| p_status := status st; p_items := items st; cash_before := cash;
             cash_after_est := cash_now st; total_equity_est := total_equity |})
  end.

End RiskService.

(** ** [services/rebalance.py] *)

(** [str.zfill(width)]: zeros go after a leading sign. *)
Fixpoint zeros (n : nat) : string :=
  match n with O => EmptyString | S n' => String "0"%char (zeros n') end.

Definition zfill (width : nat) (s : string) : string :=
  let n := String.length s in
  if (width <=? n)%nat then s else
  let pad := zeros (width - n) in
  match s with
  | String c rest =>
    if bool_decide (c = "+"%char ∨ c = "-"%char)
    then String c (String.append pad rest) else String.append pad s
  | EmptyString => pad
  end.

Definition str_le (a b : string) : Prop := String.leb a b = true.
Global Instance str_le_dec : RelDecision str_le.
Proof. intros a b. unfold str_le. apply _. Defined.

Module RebalanceService.

(** An entry of the [targets] list; a key may be missing or null. *)
Record target := {
  tg_symbol : option string;
  tg_exchange : option string;
  tg_weight : option Qc }.

Record cleaned_target := { symbol : string; exchange : string; weight : Qc }.

Record order := {
  o_symbol : string;
  o_exchange : string;
  o_side : string;
  o_qty : Z;
  o_price : Qc;
  estimated_value : Qc }.

Record suggestion := {
  sg_portfolio_id : uuid;
  total_equity : Qc;
  cash_before : Qc;
  cash_after_est : Qc;
  cash_reserve_ratio : Qc;
  orders : list order;
  missing_prices : list string }.

Definition label (sym exch : string) : string :=
  String.append sym (String.append "." exch).

(** [SELECT symbol, exchange, qty FROM positions WHERE portfolio_id=?]. *)
Definition position_rows (portfolio_id : uuid) (s : db) : list (string * string * Z) :=
  omap (λ kp : uuid * string * string * position,
      if decide (kp.1.1.1 = portfolio_id)
      then Some (kp.1.1.2, kp.1.2, qty kp.2) else None)
    (map_to_list (positions s)).

(** The local function [_px]; the dict [px_map] only caches its answers. *)
Definition _px (sym exch : string) : M (option Qc) := query (latest_close_of sym exch).

(** The first loop: mark the held positions to market. *)
Definition mark_position (acc : Qc * list string) (row : string * string * Z)
    : M (Qc * list string) :=
  let '(sym, exch, q) := row in
  p ← _px sym exch;
  match p with
  | None => mret (acc.1, (acc.2 ++ [label sym exch])%list)
  | Some p => mret (acc.1 + Qc_of_int q * p, acc.2)
  end.

(** The loop that normalises the targets, up to the division by [wsum]. *)
Definition clean (targets : list target) : list cleaned_target * Qc :=
  foldl (λ (acc : list cleaned_target * Qc) t,
      let sym := zfill 6 (default "" (tg_symbol t)) in
      let exch := default "" (tg_exchange t) in
      let w := default 0 (tg_weight t) in
      if bool_decide (sym = "" ∨ exch = "" ∨ w ≤ 0) then acc
      else ((acc.1 ++ [{| symbol := sym; exchange := exch; weight := w |}])%list,
            acc.2 + w))
    ([], 0) targets.

(** The locals the order loop updates. *)
Record plan := { p_orders : list order; p_cash_after : Qc; p_missing : list string }.

(** One iteration of [for t in cleaned]. *)
Definition plan_target (lot_size : Z) (investable : Qc)
    (pos_qty_map : gmap (string * string) Z) (st : plan) (t : cleaned_target)
    : M plan :=
  let sym := symbol t in
  let exch := exchange t in
  px ← _px sym exch;
  match px with
  | None => mret {| p_orders := p_orders st; p_cash_after := p_cash_after st;
                    p_missing := (p_missing st ++ [label sym exch])%list |}
  | Some px =>
    let target_value := investable * weight t in
    let cur_qty := default 0%Z (pos_qty_map !! (sym, exch)) in
    let cur_value := Qc_of_int cur_qty * px in
    let delta := target_value - cur_value in
    if decide (Qc_abs delta < px * Qc_of_int lot_size) then mret st
    else if decide (0 < delta) then
      ratio ← py_div delta px;
      if decide (lot_size = 0%Z) then raise ZeroDivisionError else
      let buy_qty := (py_int ratio `div` lot_size * lot_size)%Z in
      if decide (buy_qty ≤ 0)%Z then mret st else
      mret {| p_orders := (p_orders st ++ [
                {| o_symbol := sym; o_exchange := exch; o_side := "BUY";
                   o_qty := buy_qty; o_price := px;
                   estimated_value := Qc_of_int buy_qty * px |}])%list;
              p_cash_after := p_cash_after st - Qc_of_int buy_qty * px;
              p_missing := p_missing st |}
    else
      ratio ← py_div (- delta) px;
      if decide (lot_size = 0%Z) then raise ZeroDivisionError else
      let sell_qty := (py_int ratio `div` lot_size * lot_size)%Z in
      let sell_qty := Z.min sell_qty cur_qty in
      if decide (sell_qty ≤ 0)%Z then mret st else
      mret {| p_orders := (p_orders st ++ [
                {| o_symbol := sym; o_exchange := exch; o_side := "SELL";
                   o_qty := sell_qty; o_price := px;
                   estimated_value := Qc_of_int sell_qty * px |}])%list;
              p_cash_after := p_cash_after st + Qc_of_int sell_qty * px;
              p_missing := p_missing st |}
  end.

Definition suggest (lot_size : Z) (portfolio_id : uuid) (targets : list target)
    (cash_reserve_ratio_ : Qc) : M suggestion :=
  cash ← PortfolioRepo.get_cash portfolio_id;
  rows ← query (position_rows portfolio_id);
  '(mv_positions, missing) ← for_each mark_position (0, []) rows;
  let total_equity_ := cash + mv_positions in
  let investable := total_equity_ * (1 - cash_reserve_ratio_) in
  let '(cleaned, wsum) := clean targets in
  if decide (wsum ≤ 0) then raise (ValueError "targets empty or weights invalid") else
  let cleaned := (λ t, {| symbol := symbol t; exchange := exchange t;
                          weight := weight t / wsum |}) <$> cleaned in
  let pos_qty_map : gmap (string * string) Z :=
    list_to_map ((λ r : string * string * Z, ((r.1.1, r.1.2), r.2)) <$> rows) in
  st ← for_each (plan_target lot_size investable pos_qty_map)
         {| p_orders := []; p_cash_after := cash; p_missing := missing |} cleaned;
  mret {| sg_portfolio_id := portfolio_id; total_equity := total_equity_;
          cash_before := cash; cash_after_est := p_cash_after st;
          cash_reserve_ratio := cash_reserve_ratio_; orders := p_orders st;
          missing_prices := merge_sort str_le (remove_dups (p_missing st)) |}.

End RebalanceService.

(** ** [services/bars.py] *)
Module BarsRepo.

(** [... ORDER BY trade_date DESC LIMIT ?], then [list(reversed(rows))]. *)
Definition list_bars_of (symbol exchange adj : string) (limit : nat) (s : db)
    : list bar :=
  rev (take limit (newest_first (bars_of symbol exchange adj (bars_daily s)))).

Definition list_bars (symbol exchange adj : string) (limit : nat) : M (list bar) :=
  query (list_bars_of symbol exchange adj limit).

End BarsRepo.

(** ** [services/scores.py] *)
Module ScoresRepo.

Definition insert (symbol exchange : string) (td : trade_date) (score_total : float)
    : M uuid :=
  sid ← uuid4;
  with_conn (execute (set_score_snapshots (λ l, (l ++ [
    {| score_id := sid; s_symbol := symbol; s_exchange := exchange;
       s_trade_date := td; s_score_total := score_total |}])%list)));;
  mret sid.

End ScoresRepo.

(** ** Binary64 and numpy

    The store holds doubles and the ledger reads them as the rationals they
    are; the score goes back to the double.  [float_of_Qc] is the quotient of
    numerator and denominator, which is that double again, and for a decimal
    such as [dec 11 10] the double its literal [1.1] denotes, as long as
    numerator and denominator are below [2^53]. *)

Definition float_of_Z (z : Z) : float :=
  match z with
  | Z0 => 0%float
  | Zpos _ => of_uint63 (Uint63.of_Z z)
  | Zneg p => (- of_uint63 (Uint63.of_Z (Zpos p)))%float
  end.

Definition float_of_Qc (q : Qc) : float :=
  (float_of_Z (Qnum (this q)) / float_of_Z (Zpos (Qden (this q))))%float.

(** Python's [max(a, b)] and [min(a, b)]: the first argument unless the
    second is strictly beyond it. *)
Definition py_max (a b : float) : float := if (a <? b)%float then b else a.
Definition py_min (a b : float) : float := if (b <? a)%float then b else a.

(** [xs[-n:]]. *)
Definition last_n {A} (n : nat) (xs : list A) : list A := drop (length xs - n) xs.

(** [xs[-n]] for [1 <= n <= len(xs)]. *)
Definition from_end (n : nat) (xs : list float) : float :=
  default nan (xs !! (length xs - n)%nat).

(** The loop [for i in 8, 16, ...: r[k] += a[i + k]] over [blocks] blocks. *)
Fixpoint add_blocks (blocks : nat) (r xs : list float) : list float * list float :=
  match blocks with
  | O => (r, xs)
  | S b => add_blocks b (zip_with PrimFloat.add r (take 8 xs)) (drop 8 xs)
  end.

(** numpy's [DOUBLE_pairwise_sum] on a contiguous array: a plain loop below
    8 elements, eight running sums up to 128 elements, halves beyond.
    [fuel] bounds the depth of the halving. *)
Fixpoint pairwise_sum (fuel : nat) (xs : list float) : float :=
  let n := length xs in
  if (n <? 8)%nat then foldl PrimFloat.add 0%float xs
  else if (n <=? 128)%nat then
    match add_blocks (n / 8 - 1) (take 8 xs) (drop 8 xs) with
    | ([r0; r1; r2; r3; r4; r5; r6; r7], rest) =>
      foldl PrimFloat.add
        (((r0 + r1) + (r2 + r3)) + ((r4 + r5) + (r6 + r7)))%float rest
    | _ => nan
    end
  else
    match fuel with
    | O => nan
    | S fuel' =>
      let n2 := (n / 2 - (n / 2) `mod` 8)%nat in
      (pairwise_sum fuel' (take n2 xs) + pairwise_sum fuel' (drop n2 xs))%float
    end.

(** [np.add.reduce]: the identity plus the pairwise sum. *)
Definition np_sum (xs : list float) : float :=
  (0 + pairwise_sum (length xs) xs)%float.

(** [np.mean]: [umr_sum(arr) / n]. *)
Definition np_mean (xs : list float) : float :=
  (np_sum xs / float_of_Z (Z.of_nat (length xs)))%float.

(** ** [services/scoring.py] *)

Module ScoringService.

Definition RULESET_VERSION := "score/tech_v1".

Record breakdown_t := {
  trend : float;
  momentum : float;
  volatility : float;
  liquidity : float }.

Record metrics_t := {
  last_close : float;
  ma20 : float;
  ma60 : float;
  ret20 : float;
  vol20 : float;
  liq20 : float }.

Record ScoreResult := {
  score_total : float;
  breakdown : breakdown_t;
  reasons : list string;
  bars_trade_date : trade_date;
  bars_count : nat;
  trade_date_ : trade_date;
  metrics : metrics_t }.

(** The dict [calc_and_persist] returns. *)
Record scored := { sc_score_id : uuid; sc_result : ScoreResult }.

(** [np.array([b["close"] for b in bars], dtype=float)]: a NULL is a NaN. *)
Definition close_of (b : bar) : float := from_option float_of_Qc nan (b_close b).

(** [np.array([b.get("amount") or 0.0 for b in bars], dtype=float)]. *)
Definition amount_of (b : bar) : float := from_option float_of_Qc 0%float (b_amount b).

Section Calc.

(** [np.std(np.diff(np.log(xs)))]: a logarithm and a square root, left
    to numpy. *)
Variable log_return_std : list float → float.

Definition measure (bars : list bar) : metrics_t :=
  let closes := close_of <$> bars in
  let amounts := amount_of <$> bars in
  {| last_close := from_end 1 closes;
     ma20 := np_mean (last_n 20 closes);
     ma60 := np_mean (last_n 60 closes);
     ret20 := (from_end 1 closes / from_end 21 closes - 1)%float;
     vol20 := log_return_std (last_n 21 closes);
     liq20 := np_mean (last_n 20 amounts) |}.

(** A rule of the score: [if cond: pts += p; reasons.append(tag)]. *)
Definition rule (cond : bool) (p : float) (tag : string) (acc : float * list string)
    : float * list string :=
  if cond then ((acc.1 + p)%float, (acc.2 ++ [tag])%list) else acc.

Definition rate (m : metrics_t) : float * breakdown_t * list string :=
  let '(trend_, rs) :=
    rule (ma60 m <? last_close m)%float 10%float "price_above_ma60"
      (rule (ma60 m <? ma20 m)%float 10%float "ma20_above_ma60"
        (rule (ma20 m <? last_close m)%float 10%float "price_above_ma20"
          (0%float, []))) in
  let score := (0 + trend_)%float in
  let '(mom, rs) :=
    rule (0x1.999999999999ap-4 <? ret20 m)%float 10%float "ret20_gt_10pct"
      (rule (0 <? ret20 m)%float 10%float "ret20_positive" (0%float, rs)) in
  let score := (score + mom)%float in
  let '(vol, rs) :=
    if (vol20 m <? 0x1.eb851eb851eb8p-6)%float
    then rule true 10%float "vol20_low" (0%float, rs)
    else if (vol20 m <? 0x1.eb851eb851eb8p-5)%float
    then rule true 5%float "vol20_mid" (0%float, rs)
    else (0%float, rs) in
  let score := (score + vol)%float in
  let '(liq, rs) :=
    if (100000000 <? liq20 m)%float
    then rule true 10%float "liq20_gt_1e8" (0%float, rs)
    else if (20000000 <? liq20 m)%float
    then rule true 5%float "liq20_gt_2e7" (0%float, rs)
    else (0%float, rs) in
  let score := (score + liq)%float in
  (py_max 0 (py_min 100 (score * 2)),
   {| trend := trend_; momentum := mom; volatility := vol; liquidity := liq |},
   rs).

Definition calc (symbol exchange adj : string) : M ScoreResult :=
  bars ← BarsRepo.list_bars symbol exchange adj 120;
  if decide (length bars < 60)%nat
  then raise (ValueError "not enough bars; ingest more history") else
  let td := default 0%Z (b_trade_date <$> last bars) in
  let m := measure bars in
  let '(total, bd, rs) := rate m in
  mret {| score_total := total; breakdown := bd; reasons := rs;
          bars_trade_date := td; bars_count := length bars;
          trade_date_ := td; metrics := m |}.

Definition calc_and_persist (symbol exchange adj : string) : M scored :=
  res ← calc symbol exchange adj;
  sid ← ScoresRepo.insert symbol exchange (trade_date_ res) (score_total res);
  mret {| sc_score_id := sid; sc_result := res |}.

End Calc.

End ScoringService.

(** ** [services/plans.py] *)
Module PlansRepo.

Definition plans_of (symbol exchange : string) (s : db) : list plan_row :=
  filter (λ p, p_symbol p = symbol ∧ p_exchange p = exchange) (trade_plans s).

(** [SELECT MAX(plan_version) ...], [NULL] when no row matches. *)
Definition max_version (ps : list plan_row) : option Z :=
  match plan_version <$> ps with
  | [] => None
  | v :: vs => Some (foldr Z.max v vs)
  end.

Definition _next_version (symbol exchange : string) : M Z :=
  row ← query (λ s, max_version (plans_of symbol exchange s));
  let cur := default 0%Z row in
  mret (cur + 1)%Z.

Definition create (symbol exchange : string) : M uuid :=
  pid ← uuid4;
  ts ← now;
  version ← _next_version symbol exchange;
  with_conn (execute (set_trade_plans (λ l, (l ++ [
    {| plan_id := pid; p_symbol := symbol; p_exchange := exchange;
       p_created_at := ts; plan_version := version |}])%list)));;
  mret pid.

(** [SELECT ... FROM trade_plans WHERE plan_id=?], [fetchone]. *)
Definition get (plan_id_ : uuid) : M (option plan_row) :=
  query (λ s, head (filter (λ p, plan_id p = plan_id_) (trade_plans s))).

End PlansRepo.

(** ** [POST /api/v1/scores/calc] *)
Module ScoresApi.

Record scores_calc_body := {
  body_symbol : option string;
  body_exchange : option string;
  body_adj : option string }.

(** [x or d] for a string that may be missing. *)
Definition or_else (x : option string) (d : string) : string :=
  match x with
  | Some s => if decide (s = "") then d else s
  | None => d
  end.

Definition scores_calc (log_return_std : list float → float) (body : scores_calc_body)
    : M (response ScoringService.scored) :=
  let symbol := or_else (body_symbol body) "" in
  let exchange := or_else (body_exchange body) "" in
  let adj := or_else (body_adj body) "RAW" in
  if bool_decide (symbol = "" ∨ exchange = "")
  then mret (api_err ErrorCodes.VALIDATION_ERROR "symbol and exchange are required" 400)
  else
    r ← except_ValueError
           (res ← ScoringService.calc_and_persist log_return_std
                    (zfill 6 symbol) exchange adj;
            mret (inl res))
           (λ msg, mret (inr msg));
    match r with
    | inr msg => mret (api_err ErrorCodes.DATA_NOT_READY msg 409)
    | inl result =>
      AuditLogger.log "user" "score.calc" "score" (ScoringService.sc_score_id result);;
      mret (api_ok result)
    end.

End ScoresApi.

(** ** [POST /api/v1/risk/check] *)
Module RiskApi.

Record risk_check_body := { body_draft_ids : option (list uuid) }.

Definition risk_check (r : RiskRulesRepo.rules) (body : risk_check_body)
    : M (response (uuid * RiskService.payload)) :=
  let draft_ids := default [] (body_draft_ids body) in
  drafts ← OrderDraftRepo.get_many draft_ids;
  match drafts with
  | [] => mret (api_err ErrorCodes.VALIDATION_ERROR "no drafts found" 400)
  | _ :: _ =>
    '(riskcheck_id, result) ← RiskService.check r drafts;
    AuditLogger.log "user" "risk.check" "risk_check" riskcheck_id;;
    mret (api_ok (riskcheck_id, result))
  end.

End RiskApi.

(** ** [POST /api/v1/rebalance/suggest] *)
Module RebalanceApi.

(** The keys of the body the handler reads; [None] stands for a key that
    is missing or holds a value Python takes for false. *)
Record rebalance_body := {
  body_portfolio_id : option uuid;
  body_targets : option (list RebalanceService.target);
  body_cash_reserve_ratio : option Qc;
  body_create_drafts : bool }.

(** [float(body.get("cash_reserve_ratio") or 0.05)]: a ratio of 0 is false. *)
Definition reserve_of (x : option Qc) : Qc :=
  match x with
  | Some r => if decide (r = 0) then dec 5 100 else r
  | None => dec 5 100
  end.

(** One iteration of [for o in result.get("orders") or []]. *)
Definition draft_of_order (portfolio_id : uuid) (draft_ids : list uuid)
    (o : RebalanceService.order) : M (list uuid) :=
  did ← OrderDraftRepo.create portfolio_id (RebalanceService.o_symbol o)
           (RebalanceService.o_exchange o) (RebalanceService.o_side o) "LIMIT"
           (Some (RebalanceService.o_price o)) (RebalanceService.o_qty o) "rebalance";
  mret (draft_ids ++ [did])%list.

Definition rebalance_suggest (lot_size : Z) (body : rebalance_body)
    : M (response (RebalanceService.suggestion * option (list uuid))) :=
  let targets := default [] (body_targets body) in
  let cash_reserve_ratio := reserve_of (body_cash_reserve_ratio body) in
  match body_portfolio_id body with
  | None => mret (api_err ErrorCodes.VALIDATION_ERROR "portfolio_id is required" 400)
  | Some portfolio_id =>
    except_ValueError (
      result ← RebalanceService.suggest lot_size portfolio_id targets cash_reserve_ratio;
      draft_ids ←
        (if body_create_drafts body then
           ids ← for_each (draft_of_order portfolio_id) [] (RebalanceService.orders result);
           mret (Some ids)
         else mret None);
      AuditLogger.log "user" "rebalance.suggest" "portfolio" portfolio_id;;
      mret (api_ok (result, draft_ids)))
      (λ msg, mret (api_err ErrorCodes.VALIDATION_ERROR msg 400))
  end.

End RebalanceApi.

(** * Vocabulary of the properties *)

(** ** Specifications of monadic code *)

(** [triple P m Q E]: from a connection satisfying [P], [m] either returns
    [a] in a connection satisfying [Q a], or raises in one satisfying [E]. *)
Definition triple {A} (P : conn → Prop) (m : M A) (Q : A → conn → Prop)
    (E : conn → Prop) : Prop :=
  ∀ c, P c → match m c with
             | (Ok a, c') => Q a c'
             | (Raise _, c') => E c'
             end.

(** [returns m Q]: whatever the connection, a value [m] returns satisfies [Q]. *)
Definition returns {A} (m : M A) (Q : A → Prop) : Prop :=
  triple (λ _, True) m (λ a _, Q a) (λ _, True).

(** [stable I m]: [m] keeps [I], whether it returns or raises. *)
Definition stable {A} (I : conn → Prop) (m : M A) : Prop := triple I m (λ _, I) I.


(** ** Ledger quantities of a portfolio *)

Definition cash_of (portfolio_id : uuid) (s : db) : Qc :=
  default 0 (portfolio_accounts s !! portfolio_id).

(** [qty * avg_cost] of a position row, counted for its own portfolio. *)
Definition cost_of (portfolio_id : uuid) (k : uuid * string * string) (p : position) : Qc :=
  if decide (k.1.1 = portfolio_id) then Qc_of_int (qty p) * avg_cost p else 0.

(** What a row contributes to [position_cost], when there is one. *)
Definition cost_at (portfolio_id : uuid) (k : uuid * string * string)
    (o : option position) : Qc :=
  from_option (cost_of portfolio_id k) 0 o.

Definition position_cost (portfolio_id : uuid) (s : db) : Qc :=
  map_fold (λ k p acc, cost_of portfolio_id k p + acc) 0 (positions s).

(** Fees and slippage of the portfolio's trades that satisfy [keep]. *)
Definition charged (keep : sim_trade → bool) (portfolio_id : uuid) (s : db) : Qc :=
  foldr (λ t acc,
      if bool_decide (t_portfolio_id t = portfolio_id) && keep t
      then (fee t + slippage t) + acc else acc)
    0 (sim_trades s).

Definition all_charges : uuid → db → Qc := charged (λ _, true).

(** The legs [confirm] books through its [else] branch: every side but BUY. *)
Definition is_sell (t : sim_trade) : bool := negb (bool_decide (t_side t = "BUY")).
Definition sell_charges : uuid → db → Qc := charged is_sell.

(** ** Sequences of [sim.confirm] calls *)

Record call := {
  k_drafts : list draft;
  k_riskcheck : uuid;
  k_clock : timestamp;
  k_seed : uuid }.

Definition confirm_call (cfg : SimService.config) (portfolio_id : uuid) (k : call) (s : db)
    : result SimService.receipt * conn :=
  SimService.confirm cfg portfolio_id (k_drafts k) (k_riskcheck k)
    (connect s (k_clock k) (k_seed k)).

(** The store after the calls, each on its own connection, when all succeed. *)
Fixpoint replay (cfg : SimService.config) (portfolio_id : uuid) (ks : list call) (s : db)
    : option db :=
  match ks with
  | [] => Some s
  | k :: ks' =>
    match confirm_call cfg portfolio_id k s with
    | (Ok _, c) => replay cfg portfolio_id ks' (committed c)
    | (Raise _, _) => None
    end
  end.

(** The constant-price assumption for one leg: a leg that is not a BUY fills
    at the [avg_cost] of the position it sells from. *)
Definition fills_at_cost (portfolio_id : uuid) (d : draft) (s : db) : bool :=
  bool_decide (d_side d = "BUY") ||
  match latest_close_of (d_symbol d) (d_exchange d) s,
        positions s !! (portfolio_id, d_symbol d, d_exchange d) with
  | Some base, Some p => bool_decide (from_option id base (d_price d) = avg_cost p)
  | _, _ => true
  end.

(** The assumption along the loop of one [confirm]. *)
Fixpoint legs_at_cost (cfg : SimService.config) (portfolio_id order : uuid)
    (ts : timestamp) (acc : SimService.totals) (ds : list draft) (c : conn) : bool :=
  match ds with
  | [] => true
  | d :: ds' =>
    fills_at_cost portfolio_id d (working c) &&
    match SimService.fill_leg cfg portfolio_id order ts acc d c with
    | (Ok acc', c') => legs_at_cost cfg portfolio_id order ts acc' ds' c'
    | (Raise _, _) => true
    end
  end.

Definition call_at_cost (cfg : SimService.config) (portfolio_id : uuid) (k : call) (s : db)
    : bool :=
  legs_at_cost cfg portfolio_id (k_seed k) (k_clock k)
    {| SimService.cash := cash_of portfolio_id s; SimService.total_fee := 0;
       SimService.total_slip := 0; SimService.filled_qty_total := 0%Z;
       SimService.fill_value_total := 0; SimService.trades := [] |}
    (k_drafts k)
    (connect s (k_clock k) (N.succ (k_seed k))).

(** The assumption along a sequence of calls. *)
Fixpoint constant_price (cfg : SimService.config) (portfolio_id : uuid) (ks : list call)
    (s : db) : bool :=
  match ks with
  | [] => true
  | k :: ks' =>
    call_at_cost cfg portfolio_id k s &&
    match confirm_call cfg portfolio_id k s with
    | (Ok _, c) => constant_price cfg portfolio_id ks' (committed c)
    | (Raise _, _) => true
    end
  end.

Definition positive_qty (ks : list call) : Prop :=
  Forall (λ k, Forall (λ d, 0 < d_qty d)%Z (k_drafts k)) ks.

(** A portfolio that starts with cash [C0], no position and no trade. *)
Definition fresh_portfolio (portfolio_id : uuid) (C0 : Qc) (s : db) : Prop :=
  portfolio_accounts s !! portfolio_id = Some C0
  ∧ (∀ k p, positions s !! k = Some p → k.1.1 ≠ portfolio_id)
  ∧ Forall (λ t, t_portfolio_id t ≠ portfolio_id) (sim_trades s).

(** The loop invariant of [confirm]: the running cash balances the books, and
    the portfolio holds no negative quantity. *)
Definition books (C0 : Qc) (portfolio_id : uuid) (cash : Qc) (s : db) : Prop :=
  cash + position_cost portfolio_id s + sell_charges portfolio_id s = C0
  ∧ (∀ k p, positions s !! k = Some p → k.1.1 = portfolio_id → (0 ≤ qty p)%Z).

(** The identity as the specification words it: all fees and slippage. *)
Definition identity_with_all_charges (C0 : Qc) (portfolio_id : uuid) (s : db) : Prop :=
  cash_of portfolio_id s + position_cost portfolio_id s + all_charges portfolio_id s = C0.

(** The identity the ledger keeps: a BUY's fee and slippage are part of
    [avg_cost] already, only those of the other legs are added. *)
Definition ledger_identity (C0 : Qc) (portfolio_id : uuid) (s : db) : Prop :=
  cash_of portfolio_id s + position_cost portfolio_id s + sell_charges portfolio_id s = C0.

(** ** Effects and audit rows in the observable states *)




(** The ledger tables [confirm] writes. *)
Definition ledger (s : db) :=
  (portfolio_accounts s, positions s, sim_orders s, sim_trades s).


(** [confirm] leaves the ledger as it was when it raises. *)
Definition confirm_all_or_nothing (cfg : SimService.config) (portfolio_id : uuid)
    (drafts : list draft) (riskcheck_id : uuid) (c : conn) : Prop :=
  ∀ e c', SimService.confirm cfg portfolio_id drafts riskcheck_id c = (Raise e, c') →
    ledger (committed c') = ledger (committed c).

(** ** Risk checks and the drafts they were run on *)




(** ** Risk results *)

Definition holds_unpriced (portfolio_id : uuid) (s : db) : Prop :=
  ∃ sym exch p, positions s !! (portfolio_id, sym, exch) = Some p
                ∧ latest_close_of sym exch s = None.

Definition has_code (c : string) (its : list item) : Prop :=
  Exists (λ it, code it = c) its.

Definition PRICE_MISSING_CODE := "RISK_PRICE_MISSING_FOR_SOME_POSITIONS".

(** An item of the pre-check or of a per-draft check. *)
Definition per_draft_item (it : item) : Prop :=
  code it ≠ PRICE_MISSING_CODE ∧ (level it = "WARN" ∨ level it = "FAIL").

(** The state of the loop of [check]: still PASS with no item, or WARN or
    FAIL with items, none of them the batch-level one. *)
Definition per_draft_state (st : RiskService.sim_state) : Prop :=
  (RiskService.status st = "PASS" ∧ RiskService.items st = [])
  ∨ ((RiskService.status st = "WARN" ∨ RiskService.status st = "FAIL")
     ∧ RiskService.items st ≠ []
     ∧ ¬ has_code PRICE_MISSING_CODE (RiskService.items st)).

(** The batch-level item is in the persisted result whenever a held symbol
    has no latest close. *)
Definition price_missing_always_reported (r : RiskRulesRepo.rules) (d0 : draft)
    (ds : list draft) (c : conn) : Prop :=
  ∀ rid p c',
    RiskService.check r (d0 :: ds) c = (Ok (rid, p), c') →
    holds_unpriced (d_portfolio_id d0) (working c) →
    ∃ row, risk_check_results (committed c') !! rid = Some row
           ∧ has_code PRICE_MISSING_CODE (r_items row).

(** ** Concrete stores and requests *)
Module Scenario.

Definition pid : uuid := 1%N.

Definition bar_ (sym exch : string) (day : trade_date) (close : Qc) : bar :=
  {| b_symbol := sym; b_exchange := exch; b_trade_date := day; b_adj := "RAW";
     b_close := Some close; b_amount := None; b_pre_close := None |}.

Definition draft_ (did : uuid) (sym exch side : string) (price : option Qc) (q : Z)
    : draft :=
  {| draft_id := did; d_portfolio_id := pid; d_symbol := sym; d_exchange := exch;
     d_side := side; d_order_type := "LIMIT"; d_price := price; d_qty := q;
     d_origin := "manual" |}.

(** The two legs of the multi-leg scenario of the specification. *)
Definition buy_600519 : draft :=
  draft_ 10 "600519" "SSE" "BUY" (Some (Qc_of_int 1000)) 100.
Definition sell_000001 : draft :=
  draft_ 11 "000001" "SZSE" "SELL" (Some (Qc_of_int 10)) 100.

(** Cash 500,000 and 100 shares of 000001 bought at 8. *)
Definition store : db :=
  {| portfolio_accounts := {[ pid := Qc_of_int 500000 ]};
     positions := {[ (pid, "000001", "SZSE") := {| qty := 100; avg_cost := Qc_of_int 8 |} ]};
     order_drafts := [buy_600519; sell_000001];
     bars_daily := [bar_ "600519" "SSE" 1 (Qc_of_int 1000);
                    bar_ "000001" "SZSE" 1 (Qc_of_int 10)];
     risk_check_results := ∅; sim_orders := []; sim_trades := []; audit_log := [];
     trade_plans := []; score_snapshots := [] |}.

(** The batch is risk-checked, ... *)
Definition check_both : result (uuid * RiskService.payload) * conn :=
  RiskService.check RiskRulesRepo.default_rules [buy_600519; sell_000001]
    (connect store 1000 100).
Definition checked : db := committed check_both.2.

(** ... then confirmed through the HTTP handler. *)
Definition confirm_body : Api.sim_confirm_body :=
  {| Api.body_draft_ids := Some [10; 11]%N; Api.body_riskcheck_id := Some 100%N |}.
Definition confirmed : response SimService.receipt * conn :=
  serve (Api.sim_confirm SimService.default_config confirm_body) checked 1010 200.

(** Another history from [checked]: the SELL leg alone is checked and
    confirmed first, and the batch is confirmed afterwards under its own,
    still valid, risk check. *)
Definition check_sell : result (uuid * RiskService.payload) * conn :=
  RiskService.check RiskRulesRepo.default_rules [sell_000001] (connect checked 1010 110).
Definition sold : db :=
  committed (SimService.confirm SimService.default_config pid [sell_000001] 110
               (connect (committed check_sell.2) 1020 120)).2.
Definition late_confirm : result SimService.receipt * conn :=
  SimService.confirm SimService.default_config pid [buy_600519; sell_000001] 100
    (connect sold 1030 130).

(** The store without the bars of 000001, the symbol it holds. *)
Definition unpriced : db :=
  {| portfolio_accounts := portfolio_accounts store; positions := positions store;
     order_drafts := order_drafts store;
     bars_daily := [bar_ "600519" "SSE" 1 (Qc_of_int 1000)];
     risk_check_results := ∅; sim_orders := []; sim_trades := []; audit_log := [];
     trade_plans := []; score_snapshots := [] |}.

(** An odd lot: 150 shares. *)
Definition odd_lot : draft := draft_ 13 "600519" "SSE" "BUY" None 150.

(** A round lot: 100 shares at the latest close. *)
Definition round_lot : draft := draft_ 14 "600519" "SSE" "BUY" None 100.


(** A portfolio with cash 100,000 only, and a risk check that passed. *)
Definition passed : riskcheck_row :=
  {| r_created_at := 900; r_status := "PASS"; r_items := [];
     r_ruleset_version := "risk/v1"; input_draft_ids := [20]%N |}.

Definition fresh_store : db :=
  {| portfolio_accounts := {[ pid := Qc_of_int 100000 ]}; positions := ∅;
     order_drafts := [];
     bars_daily := [bar_ "600519" "SSE" 1 (Qc_of_int 10)];
     risk_check_results := {[ 7%N := passed ]};
     sim_orders := []; sim_trades := []; audit_log := [];
     trade_plans := []; score_snapshots := [] |}.

(** Buy 100 at the latest close of 10, fee 0.3 and slippage 0.5: the
    position costs 10.008 a share. *)
Definition buy_call : call :=
  {| k_drafts := [draft_ 20 "600519" "SSE" "BUY" None 100];
     k_riskcheck := 7; k_clock := 1000; k_seed := 100 |}.

(** Sell 50 of them at that average cost. *)
Definition sell_call : call :=
  {| k_drafts := [draft_ 21 "600519" "SSE" "SELL" (Some (dec 10008 1000)) 50];
     k_riskcheck := 7; k_clock := 2000; k_seed := 200 |}.

(** Buy 100,000 shares at 10 with the same cash. *)
Definition big_buy : list draft := [draft_ 22 "600519" "SSE" "BUY" None 100000].

(** The rebalance scenario: cash only, 600519 closing at 1000, the whole
    portfolio targeted at it, lot size 100 and a cash reserve of 5%. *)
Definition cash_only (cash : Z) : db :=
  {| portfolio_accounts := {[ pid := Qc_of_int cash ]}; positions := ∅;
     order_drafts := [];
     bars_daily := [bar_ "600519" "SSE" 1 (Qc_of_int 1000)];
     risk_check_results := ∅; sim_orders := []; sim_trades := []; audit_log := [];
     trade_plans := []; score_snapshots := [] |}.

Definition all_in_600519 : list RebalanceService.target :=
  [{| RebalanceService.tg_symbol := Some "600519";
      RebalanceService.tg_exchange := Some "SSE";
      RebalanceService.tg_weight := Some 1 |}].

(** Side and quantity of the orders the planner suggests. *)
Definition suggested (cash : Z) : result (list (string * Z)) :=
  match (RebalanceService.suggest 100 pid all_in_600519 (dec 5 100)
           (connect (cash_only cash) 1000 100)).1 with
  | Ok sg => Ok ((λ o, (RebalanceService.o_side o, RebalanceService.o_qty o))
                   <$> RebalanceService.orders sg)
  | Raise e => Raise e
  end.

(** The scoring scenario: [n] daily bars of 600519 closing at 1000 with an
    amount of 200 million. *)
Definition flat_bars (n : nat) : db :=
  {| portfolio_accounts := ∅; positions := ∅; order_drafts := [];
     bars_daily :=
       (λ i, {| b_symbol := "600519"; b_exchange := "SSE";
                b_trade_date := Z.of_nat i; b_adj := "RAW";
                b_close := Some (Qc_of_int 1000);
                b_amount := Some (Qc_of_int 200000000);
                b_pre_close := Some (Qc_of_int 1000) |}) <$> seq 0 n;
     risk_check_results := ∅; sim_orders := []; sim_trades := []; audit_log := [];
     trade_plans := []; score_snapshots := [] |}.

(** The same history with every close at 1.1. *)
Definition flat_bars_at_1_1 (n : nat) : db :=
  {| portfolio_accounts := ∅; positions := ∅; order_drafts := [];
     bars_daily :=
       (λ i, {| b_symbol := "600519"; b_exchange := "SSE";
                b_trade_date := Z.of_nat i; b_adj := "RAW";
                b_close := Some (dec 11 10);
                b_amount := Some (Qc_of_int 200000000);
                b_pre_close := Some (dec 11 10) |}) <$> seq 0 n;
     risk_check_results := ∅; sim_orders := []; sim_trades := []; audit_log := [];
     trade_plans := []; score_snapshots := [] |}.

(** The deviation of the log returns of a constant series. *)
Definition no_deviation (closes : list float) : float := 0%float.

Definition score_body : ScoresApi.scores_calc_body :=
  {| ScoresApi.body_symbol := Some "600519"; ScoresApi.body_exchange := Some "SSE";
     ScoresApi.body_adj := None |}.

End Scenario.

(** ** The rebalance example of the specification *)

(** With cash 10,000 nothing is suggested; with cash 210,000 one BUY of [q]. *)
Definition sub_lot_example (q : Z) : Prop :=
  Scenario.suggested 10000 = Ok [] ∧ Scenario.suggested 210000 = Ok [("BUY", q)].

(** ** Plan versions *)

(** The versions of an instrument's plans, in the order they were created. *)
Definition versions_of (symbol exchange : string) (s : db) : list Z :=
  plan_version <$> PlansRepo.plans_of symbol exchange s.

(** A request to create a plan, with the clock and the UUID supply of its
    connection. *)
Definition plan_request : Type := string * string * timestamp * uuid.

Definition create_plan (s : db) (q : plan_request) : db :=
  committed (PlansRepo.create q.1.1.1 q.1.1.2 (connect s q.1.2 q.2)).2.

(** The store after the requests, each on its own connection. *)
Definition create_plans (qs : list plan_request) (s : db) : db := foldl create_plan s qs.

Definition requests_for (symbol exchange : string) (qs : list plan_request)
    : list plan_request :=
  filter (λ q, q.1.1.1 = symbol ∧ q.1.1.2 = exchange) qs.

(** The versions of every instrument count up from 1. *)
Definition counted_from_1 (s : db) : Prop :=
  ∀ symbol exchange,
    versions_of symbol exchange s
    = Z.of_nat <$> seq 1 (length (PlansRepo.plans_of symbol exchange s)).

(** ** The score as the specification words it *)

Definition points (cond : bool) (p : float) : float := if cond then p else 0%float.

Section ScoreSpec.
Import ScoringService.
Variable m : metrics_t.

(** 10 points for each of last > MA20, MA20 > MA60, last > MA60. *)
Definition spec_trend : float :=
  (points (ma20 m <? last_close m) 10
   + points (ma60 m <? ma20 m) 10
   + points (ma60 m <? last_close m) 10)%float.

(** 10 points if the 20-bar return is > 0 and 10 more if it is > 0.10. *)
Definition spec_momentum : float :=
  (points (0 <? ret20 m) 10 + points (0x1.999999999999ap-4 <? ret20 m) 10)%float.

(** 10 points if the deviation is < 0.03, else 5 if it is < 0.06. *)
Definition spec_volatility : float :=
  if (vol20 m <? 0x1.eb851eb851eb8p-6)%float then 10%float
  else if (vol20 m <? 0x1.eb851eb851eb8p-5)%float then 5%float else 0%float.

(** 10 points if the average amount is > 1e8, else 5 if it is > 2e7. *)
Definition spec_liquidity : float :=
  if (100000000 <? liq20 m)%float then 10%float
  else if (20000000 <? liq20 m)%float then 5%float else 0%float.

(** [min(100, max(0, 2 * (trend + momentum + volatility + liquidity)))]. *)
Definition spec_total : float :=
  py_min 100
    (py_max 0 (2 * (spec_trend + spec_momentum + spec_volatility + spec_liquidity))%float).

End ScoreSpec.

(** The bars stored for an instrument and an adjustment. *)
Definition stored_bars (symbol exchange adj : string) (s : db) : list bar :=
  bars_of symbol exchange adj (bars_daily s).

(** The metrics as the bars give them: the last close, the means of the last
    20 and 60 closes, the return over 20 bars, the deviation of the last 20
    log returns and the mean of the last 20 amounts. *)
Definition metrics_of (vol : list float → float) (bars : list bar)
    (m : ScoringService.metrics_t) : Prop :=
  let closes := ScoringService.close_of <$> bars in
  let amounts := ScoringService.amount_of <$> bars in
  ScoringService.last_close m = from_end 1 closes
  ∧ ScoringService.ma20 m = np_mean (last_n 20 closes)
  ∧ ScoringService.ma60 m = np_mean (last_n 60 closes)
  ∧ ScoringService.ret20 m = (from_end 1 closes / from_end 21 closes - 1)%float
  ∧ ScoringService.vol20 m = vol (last_n 21 closes)
  ∧ ScoringService.liq20 m = np_mean (last_n 20 amounts).

(** The specification on a constant series: whenever every stored close is the
    same, the trend is 0. *)
Definition constant_closes_trend_0 (vol : list float → float)
    (symbol exchange adj : string) (c : conn) : Prop :=
  ∀ x r c',
    Forall (λ b, b_close b = Some x) (stored_bars symbol exchange adj (working c)) →
    ScoringService.calc vol symbol exchange adj c = (Ok r, c') →
    ScoringService.trend (ScoringService.breakdown r) = 0%float.

(** ** Invariants of the store *)

(** [P] holds of what the connection reads and of every state it has
    committed. *)
Definition always (P : db → Prop) (c : conn) : Prop :=
  P (working c) ∧ P (committed c) ∧ Forall P (commit_log c).

(** [m] leaves the connection as it found it. *)
Definition read_only {A} (m : M A) : Prop := ∀ c, (m c).2 = c.

(** ** The legs of a [confirm] *)

(** The tables [confirm] does not write. *)
Definition outside_ledger (s : db) :=
  (order_drafts s, bars_daily s, risk_check_results s, audit_log s,
   trade_plans s, score_snapshots s).

(** Cash and order rows, which [confirm] writes last. *)
Definition cash_and_orders (s : db) := (portfolio_accounts s, sim_orders s).

(** [t] is the trade of draft [d] under order [order]: the draft's symbol,
    side and quantity, at its limit price or else the latest close in [s],
    with the fee taken on the fill value and the slippage on the close. *)
Definition fills (cfg : SimService.config) (s : db) (portfolio_id order : uuid)
    (t : sim_trade) (d : draft) : Prop :=
  t_order_id t = order ∧ t_portfolio_id t = portfolio_id
  ∧ t_symbol t = d_symbol d ∧ t_exchange t = d_exchange d ∧ t_side t = d_side d
  ∧ fill_qty t = d_qty d
  ∧ ∃ base, latest_close_of (d_symbol d) (d_exchange d) s = Some base
            ∧ fill_price t = from_option id base (d_price d)
            ∧ fee t = fill_price t * Qc_of_int (d_qty d) * SimService.fee_rate cfg
            ∧ slippage t = base * SimService.slippage_rate cfg * Qc_of_int (d_qty d).

(** The cash after a trade: [cash -= cost + fee + slippage] for a BUY,
    [cash += proceeds - fee - slippage] otherwise. *)
Definition cash_after (cash : Qc) (t : sim_trade) : Qc :=
  if decide (t_side t = "BUY")
  then cash - (fill_price t * Qc_of_int (fill_qty t) + fee t + slippage t)
  else cash + (fill_price t * Qc_of_int (fill_qty t) - fee t - slippage t).

(** [x = x0; for t in ts: x += f(t)]. *)
Definition running_sum {A} (f : A → Qc) (x0 : Qc) (ts : list A) : Qc :=
  foldl (λ x t, x + f t) x0 ts.

Definition running_count {A} (f : A → Z) (n0 : Z) (ts : list A) : Z :=
  foldl (λ n t, (n + f t)%Z) n0 ts.

(** Every position row holds a positive quantity. *)
Definition positions_positive (s : db) : Prop :=
  ∀ k p, positions s !! k = Some p → (0 < qty p)%Z.

(** The order row a receipt announces. *)
Definition order_of_receipt (portfolio_id : uuid) (ts : timestamp) (ds : list draft)
    (r : SimService.receipt) : sim_order :=
  {| order_id := SimService.res_order_id r; o_portfolio_id := portfolio_id;
     o_created_at := ts; o_status := SimService.res_status r;
     draft_ids := draft_id <$> ds; filled_qty := SimService.res_filled_qty r;
     avg_fill_price := SimService.res_avg_fill_price r;
     fee_total := SimService.res_fee_total r;
     slippage_total := SimService.res_slippage_total r |}.

(** ** The verdict of a risk check *)

Definition is_fail (it : item) : Prop := level it = "FAIL".

(** FAIL if any item is a FAIL, else WARN if there is any item, else PASS. *)
Definition verdict (its : list item) : string :=
  if decide (Exists is_fail its) then "FAIL"
  else if decide (its = []) then "PASS" else "WARN".

(** The loop state of [check] carries the verdict of its items, which are
    WARN or FAIL items. *)
Definition graded (st : RiskService.sim_state) : Prop :=
  RiskService.status st = verdict (RiskService.items st)
  ∧ Forall (λ it, level it = "WARN" ∨ level it = "FAIL") (RiskService.items st).

(** [its] holds a FAIL item with code [c] for draft [d]. *)
Definition rejects (c : string) (d : draft) (its : list item) : Prop :=
  Exists (λ it, code it = c ∧ level it = "FAIL" ∧ i_draft_id it = Some (draft_id d)) its.

(** What [m] returns on the connection [c]. *)
Definition returns_at {A} (c : conn) (m : M A) (Q : A → Prop) : Prop :=
  match m c with
  | (Ok a, _) => Q a
  | (Raise _, _) => True
  end.

(** The quantity of a draft is not a positive number of lots. *)
Definition invalid_qty (r : RiskRulesRepo.rules) (d : draft) : Prop :=
  (d_qty d ≤ 0 ∨ d_qty d `mod` RiskRulesRepo.lot_size r ≠ 0)%Z.

(** The row [check] persists for a payload. *)
Definition row_of_payload (ts : timestamp) (ds : list draft) (p : RiskService.payload)
    : riskcheck_row :=
  {| r_created_at := ts; r_status := RiskService.p_status p;
     r_items := RiskService.p_items p;
     r_ruleset_version := RiskService.DEFAULT_RULESET_VERSION;
     input_draft_ids := draft_id <$> ds |}.

(** A rule check that can only warn. *)
Definition warns (o : option item) : Prop := from_option (λ it, level it = "WARN") True o.

(** ** The orders of the planner *)

(** The quantity of a symbol a portfolio holds. *)
Definition held_qty (portfolio_id : uuid) (sym exch : string) (s : db) : Z :=
  from_option qty 0%Z (positions s !! (portfolio_id, sym, exch)).

(** A well-formed order: a positive quantity at the latest close, valued at
    quantity times price; a BUY of whole lots, or a SELL of no more than is
    held. *)
Definition order_ok (lot_size : Z) (held : string → string → Z) (s : db)
    (o : RebalanceService.order) : Prop :=
  (0 < RebalanceService.o_qty o)%Z
  ∧ RebalanceService.estimated_value o
    = Qc_of_int (RebalanceService.o_qty o) * RebalanceService.o_price o
  ∧ latest_close_of (RebalanceService.o_symbol o) (RebalanceService.o_exchange o) s
    = Some (RebalanceService.o_price o)
  ∧ ((RebalanceService.o_side o = "BUY" ∧ (lot_size | RebalanceService.o_qty o)%Z)
     ∨ (RebalanceService.o_side o = "SELL"
        ∧ (RebalanceService.o_qty o
           ≤ held (RebalanceService.o_symbol o) (RebalanceService.o_exchange o))%Z)).

(** [cash_after -= qty * px] for a BUY, [cash_after += qty * px] for a SELL. *)
Definition cash_after_order (cash : Qc) (o : RebalanceService.order) : Qc :=
  if decide (RebalanceService.o_side o = "BUY")
  then cash - RebalanceService.estimated_value o
  else cash + RebalanceService.estimated_value o.

(** A draft made from an order of the planner. *)
Definition mirrors (portfolio_id : uuid) (d : draft) (o : RebalanceService.order) : Prop :=
  d_portfolio_id d = portfolio_id
  ∧ d_symbol d = RebalanceService.o_symbol o
  ∧ d_exchange d = RebalanceService.o_exchange o
  ∧ d_side d = RebalanceService.o_side o
  ∧ d_qty d = RebalanceService.o_qty o
  ∧ d_price d = Some (RebalanceService.o_price o)
  ∧ d_order_type d = "LIMIT" ∧ d_origin d = "rebalance".

(** A target the planner drops: no exchange, or no positive weight. *)
Definition dropped (t : RebalanceService.target) : Prop :=
  default "" (RebalanceService.tg_exchange t) = ""
  ∨ default 0 (RebalanceService.tg_weight t) ≤ 0.

(** ** Bars by date *)

Definition not_after (a b : bar) : Prop := (b_trade_date a ≤ b_trade_date b)%Z.

(** ** Fresh identifiers *)

(** The next identifier of the connection's supply names no stored draft. *)
Definition fresh_draft_id (c : conn) : Prop :=
  entropy c ∉ draft_id <$> order_drafts (working c).

(** The next identifier of the connection's supply names no stored plan. *)
Definition fresh_plan_id (c : conn) : Prop :=
  entropy c ∉ plan_id <$> trade_plans (working c).

(** ** The reasons of a score *)

(** The points a reason stands for. *)
Definition tag_points (tag : string) : float :=
  if bool_decide (tag = "vol20_mid" ∨ tag = "liq20_gt_2e7") then 5%float else 10%float.

Definition points_of (tags : list string) : float :=
  foldl (λ x tag, (x + tag_points tag)%float) 0%float tags.

Definition tag_if (cond : bool) (tag : string) : list string :=
  if cond then [tag] else [].

(** The reasons the rules give for metrics [m], in the order of the rules. *)
Definition spec_reasons (m : ScoringService.metrics_t) : list string :=
  (tag_if (ScoringService.ma20 m <? ScoringService.last_close m)%float "price_above_ma20"
   ++ tag_if (ScoringService.ma60 m <? ScoringService.ma20 m)%float "ma20_above_ma60"
   ++ tag_if (ScoringService.ma60 m <? ScoringService.last_close m)%float "price_above_ma60"
   ++ tag_if (0 <? ScoringService.ret20 m)%float "ret20_positive"
   ++ tag_if (0x1.999999999999ap-4 <? ScoringService.ret20 m)%float "ret20_gt_10pct"
   ++ (if (ScoringService.vol20 m <? 0x1.eb851eb851eb8p-6)%float then ["vol20_low"]
       else tag_if (ScoringService.vol20 m <? 0x1.eb851eb851eb8p-5)%float "vol20_mid")
   ++ (if (100000000 <? ScoringService.liq20 m)%float then ["liq20_gt_1e8"]
       else tag_if (20000000 <? ScoringService.liq20 m)%float "liq20_gt_2e7"))%list.

(** The snapshot [calc_and_persist] stores for a result. *)
Definition snapshot_of (sid : uuid) (symbol exchange : string)
    (res : ScoringService.ScoreResult) : score_row :=
  {| score_id := sid; s_symbol := symbol; s_exchange := exchange;
     s_trade_date := ScoringService.trade_date_ res;
     s_score_total := ScoringService.score_total res |}.

(** ** Requests *)

(** A store whose two drafts belong to two portfolios. *)
Definition mixed_store : db :=
  {| portfolio_accounts := {[ 1%N := Qc_of_int 500000; 2%N := Qc_of_int 500000 ]};
     positions := ∅;
     order_drafts :=
       [Scenario.buy_600519;
        {| draft_id := 30; d_portfolio_id := 2; d_symbol := "600519";
           d_exchange := "SSE"; d_side := "BUY"; d_order_type := "LIMIT";
           d_price := None; d_qty := 100; d_origin := "manual" |}];
     bars_daily := [Scenario.bar_ "600519" "SSE" 1 (Qc_of_int 1000)];
     risk_check_results := ∅; sim_orders := []; sim_trades := []; audit_log := [];
     trade_plans := []; score_snapshots := [] |}.

(** The audit log of [s] with rows added at its end. *)
Definition audit_grown_from (s s' : db) : Prop := audit_log s `prefix_of` audit_log s'.

(** The requests of the modelled handlers. *)
Inductive request : Type :=
  | SimConfirm (cfg : SimService.config) (body : Api.sim_confirm_body)
  | RiskCheck (r : RiskRulesRepo.rules) (body : RiskApi.risk_check_body)
  | ScoresCalc (vol : list float → float) (body : ScoresApi.scores_calc_body)
  | RebalanceSuggest (lot_size : Z) (body : RebalanceApi.rebalance_body).

(** The states a reader can observe while a request is served. *)
Definition observed (q : request) (s : db) (t : timestamp) (seed : uuid) : list db :=
  match q with
  | SimConfirm cfg body => observable s (serve (Api.sim_confirm cfg body) s t seed)
  | RiskCheck r body => observable s (serve (RiskApi.risk_check r body) s t seed)
  | ScoresCalc vol body => observable s (serve (ScoresApi.scores_calc vol body) s t seed)
  | RebalanceSuggest lot body =>
    observable s (serve (RebalanceApi.rebalance_suggest lot body) s t seed)
  end.

(** * A program logic for the connection monad *)

Section Rules.
Context {A B : Type}.
Implicit Types (P E : conn → Prop).

Lemma triple_ret P (a : A) (Q : A → conn → Prop) E :
  (∀ c, P c → Q a c) → triple P (mret a) Q E.
Proof. intros H c Hc. by apply H. Qed.

Lemma triple_raise P (e : exn) (Q : A → conn → Prop) E :
  (∀ c, P c → E c) → triple P (raise e) Q E.
Proof. intros H c Hc. by apply H. Qed.

Lemma triple_bind P (m : M A) (f : A → M B) (R : A → conn → Prop)
    (Q : B → conn → Prop) E :
  triple P m R E → (∀ a, triple (R a) (f a) Q E) → triple P (m ≫= f) Q E.
Proof.
  intros Hm Hf c Hc. specialize (Hm c Hc).
  unfold mbind, M_bind. destruct (m c) as [[a|e] c']; [by apply Hf|done].
Qed.

Lemma triple_query P (f : db → A) (Q : A → conn → Prop) E :
  (∀ c, P c → Q (f (working c)) c) → triple P (query f) Q E.
Proof. intros H c Hc. by apply H. Qed.

Lemma triple_with_conn P (body : M A) (Q : A → conn → Prop) E :
  triple P body (λ a c, Q a (commit c)) (λ c, E (rollback c)) →
  triple P (with_conn body) Q E.
Proof.
  intros H c Hc. specialize (H c Hc). unfold with_conn.
  by destruct (body c) as [[a|e] c'].
Qed.

Lemma triple_weaken P P' (m : M A) (Q Q' : A → conn → Prop) E E' :
  triple P' m Q' E' → (∀ c, P c → P' c) → (∀ a c, Q' a c → Q a c) →
  (∀ c, E' c → E c) → triple P m Q E.
Proof.
  intros H HP HQ HE c Hc. specialize (H c (HP c Hc)).
  destruct (m c) as [[a|e] c']; auto.
Qed.

End Rules.

Lemma triple_execute P (f : db → db) (Q : unit → conn → Prop) E :
  (∀ c, P c → Q () (execute f c).2) → triple P (execute f) Q E.
Proof. intros H c Hc. by apply H. Qed.

Lemma triple_uuid4 P (Q : uuid → conn → Prop) E :
  (∀ c, P c → Q (entropy c) (uuid4 c).2) → triple P uuid4 Q E.
Proof. intros H c Hc. by apply H. Qed.

Lemma triple_now P (Q : timestamp → conn → Prop) E :
  (∀ c, P c → Q (clock c) c) → triple P now Q E.
Proof. intros H c Hc. by apply H. Qed.


Lemma triple_for_each {A B} (I : B → conn → Prop) (E : conn → Prop)
    (body : B → A → M B) (xs : list A) :
  (∀ s x, x ∈ xs → triple (I s) (body s x) I E) →
  ∀ s, triple (I s) (for_each body s xs) I E.
Proof.
  induction xs as [|x xs IH]; intros Hbody s; simpl.
  - intros c Hc. exact Hc.
  - apply (triple_bind _ _ _ I); [apply Hbody; left|].
    intros s'. apply IH. intros s'' y Hy. apply Hbody. by right.
Qed.

(** * The ledger of a portfolio *)

Section Ledger.
Variable pid : uuid.

Lemma cost_fold_comm (j1 j2 : uuid * string * string) (z1 z2 : position) (y : Qc) :
  cost_of pid j1 z1 + (cost_of pid j2 z2 + y) = cost_of pid j2 z2 + (cost_of pid j1 z1 + y).
Proof. ring. Qed.

Lemma position_cost_insert (s : db) k p :
  position_cost pid (set_positions (<[k := p]>) s)
  = position_cost pid s - cost_at pid k (positions s !! k) + cost_of pid k p.
Proof.
  unfold position_cost; simpl.
  rewrite <-(insert_delete_eq (positions s)).
  rewrite map_fold_insert_L;
    [|intros; apply cost_fold_comm|by rewrite lookup_delete_eq].
  destruct (positions s !! k) as [p0|] eqn:Hk; simpl.
  - rewrite (map_fold_delete_L _ _ k p0 (positions s));
      [|intros; apply cost_fold_comm|done]. ring.
  - rewrite delete_id by done. ring.
Qed.

Lemma position_cost_delete (s : db) k :
  position_cost pid (set_positions (delete k) s)
  = position_cost pid s - cost_at pid k (positions s !! k).
Proof.
  unfold position_cost; simpl.
  destruct (positions s !! k) as [p0|] eqn:Hk; simpl.
  - rewrite (map_fold_delete_L _ _ k p0 (positions s));
      [|intros; apply cost_fold_comm|done]. ring.
  - rewrite delete_id by done. ring.
Qed.

Lemma position_cost_fresh (s : db) :
  (∀ k p, positions s !! k = Some p → k.1.1 ≠ pid) → position_cost pid s = 0.
Proof.
  unfold position_cost. generalize (positions s). intros m.
  induction m as [|k p m Hk IH] using map_ind; intros H.
  - by rewrite map_fold_empty.
  - rewrite map_fold_insert_L; [|intros; apply cost_fold_comm|done].
    rewrite IH.
    + unfold cost_of. rewrite decide_False; [ring|].
      apply (H k p). by rewrite lookup_insert_eq.
    + intros k' p' Hk'. apply (H k' p').
      rewrite lookup_insert_ne; [done|]. intros ->. congruence.
Qed.

Lemma charged_app keep (s : db) (row : sim_trade) :
  charged keep pid (set_sim_trades (λ l, (l ++ [row])%list) s)
  = charged keep pid s
    + (if bool_decide (t_portfolio_id row = pid) && keep row
       then fee row + slippage row else 0).
Proof.
  unfold charged; simpl. induction (sim_trades s) as [|t l IH]; simpl.
  - destruct (_ && _); ring.
  - rewrite IH. destruct (bool_decide (t_portfolio_id t = pid) && keep t); ring.
Qed.

Lemma charged_fresh keep (s : db) :
  Forall (λ t, t_portfolio_id t ≠ pid) (sim_trades s) → charged keep pid s = 0.
Proof.
  unfold charged. induction 1 as [|t l Ht _ IH]; simpl; [done|].
  by rewrite bool_decide_eq_false_2.
Qed.

Lemma charged_set_positions keep f (s : db) :
  charged keep pid (set_positions f s) = charged keep pid s.
Proof. reflexivity. Qed.

Lemma position_cost_set_sim_trades f (s : db) :
  position_cost pid (set_sim_trades f s) = position_cost pid s.
Proof. reflexivity. Qed.

End Ledger.

Lemma Qc_of_int_nonzero (n : Z) : n ≠ 0%Z → Qc_of_int n ≠ 0.
Proof.
  intros Hn H. apply Hn. apply Z2Qc_inj. by rewrite Z2Qc_inj_0.
Qed.

Lemma fill_leg_books cfg pid order ts acc d c acc' c' C0 :
  SimService.fill_leg cfg pid order ts acc d c = (Ok acc', c') →
  books C0 pid (SimService.cash acc) (working c) →
  (0 < d_qty d)%Z →
  fills_at_cost pid d (working c) = true →
  books C0 pid (SimService.cash acc') (working c')
  ∧ portfolio_accounts (working c') = portfolio_accounts (working c).
Proof.
  unfold SimService.fill_leg, fills_at_cost, _latest_close, query.
  unfold mbind, M_bind; simpl.
  destruct (latest_close_of (d_symbol d) (d_exchange d) (working c)) as [base|]; [|done].
  simpl. unfold SimService._apply_position, PortfolioRepo.get_position, query.
  unfold mbind, M_bind; simpl.
  set (k := (pid, d_symbol d, d_exchange d)).
  intros Hrun [Hsum Hpos] Hq Hcost.
  assert (Hk1 : k.1.1 = pid) by done.
  destruct (decide (d_side d = "BUY")) as [Hside|Hside].
  - (* BUY: the cost of the leg, fee and slippage included, moves from cash
       into the position. *)
    injection Hrun as <- <-. simpl. split; [|done]. split.
    + rewrite position_cost_insert, position_cost_set_sim_trades.
      unfold sell_charges in *.
      rewrite charged_set_positions, charged_app.
      unfold is_sell at 2. simpl. rewrite (bool_decide_eq_true_2 _ Hside).
      rewrite andb_false_r. fold k.
      unfold cost_at, cost_of. fold k. rewrite (decide_True _ _ Hk1).
      destruct (positions (working c) !! k) as [p0|] eqn:Hk; simpl.
      * pose proof (Hpos k p0 Hk Hk1) as Hp0.
        rewrite (decide_True _ _ Hk1), decide_False by lia.
        rewrite <-Hsum. unfold Qc_of_int. rewrite Z2Qc_inj_add. field.
        rewrite <-Z2Qc_inj_add. apply Qc_of_int_nonzero. lia.
      * rewrite decide_False by lia.
        rewrite <-Hsum. unfold Qc_of_int. rewrite Z2Qc_inj_add, Z2Qc_inj_0. field.
        apply Qc_of_int_nonzero. lia.
    + intros k' p'. simpl. fold k. rewrite lookup_insert.
      destruct (decide (k = k')) as [<-|Hne].
      * intros [= <-] _. simpl.
        destruct (positions (working c) !! k) as [p0|] eqn:Hk; simpl; [|lia].
        pose proof (Hpos k p0 Hk Hk1). lia.
      * apply Hpos.
  - (* any other side: the position shrinks at its own average cost, so the
       cash that comes in falls short of it by fee and slippage. *)
    rewrite (bool_decide_eq_false_2 _ Hside) in Hcost. simpl in Hcost.
    destruct (positions (working c) !! k) as [p0|] eqn:Hk; simpl in *.
    2:{ rewrite decide_True in Hrun by lia. done. }
    apply bool_decide_eq_true_1 in Hcost.
    destruct (decide (qty p0 - d_qty d < 0)%Z) as [|Hge]; [done|].
    destruct (decide (qty p0 - d_qty d = 0)%Z) as [Hz|Hnz];
      injection Hrun as <- <-; simpl; (split; [|done]); split.
    + rewrite position_cost_delete, position_cost_set_sim_trades.
      unfold sell_charges in *.
      rewrite charged_set_positions, charged_app.
      unfold is_sell at 2. simpl. rewrite (bool_decide_eq_false_2 _ Hside).
      rewrite (bool_decide_eq_true_2 (pid = pid)) by done. simpl.
      fold k. rewrite Hk. unfold cost_at, cost_of; simpl.
      rewrite (decide_True _ _ Hk1).
      rewrite <-Hsum, Hcost. replace (qty p0) with (d_qty d) by lia. ring.
    + intros k' p'. simpl. fold k. rewrite lookup_delete_Some.
      intros [_ Hk']. by apply Hpos.
    + rewrite position_cost_insert, position_cost_set_sim_trades.
      unfold sell_charges in *.
      rewrite charged_set_positions, charged_app.
      unfold is_sell at 2. simpl. rewrite (bool_decide_eq_false_2 _ Hside).
      rewrite (bool_decide_eq_true_2 (pid = pid)) by done. simpl.
      fold k. rewrite Hk. unfold cost_at, cost_of; simpl.
      rewrite !(decide_True _ _ Hk1).
      rewrite <-Hsum, Hcost. unfold Qc_of_int. rewrite Z2Qc_inj_sub. ring.
    + intros k' p'. simpl. fold k. rewrite lookup_insert.
      destruct (decide (k = k')) as [<-|Hne].
      * intros [= <-] _. simpl. lia.
      * apply Hpos.
Qed.

Lemma loop_books cfg pid order ts C0 ds :
  ∀ acc c acc' c',
    for_each (SimService.fill_leg cfg pid order ts) acc ds c = (Ok acc', c') →
    books C0 pid (SimService.cash acc) (working c) →
    Forall (λ d, 0 < d_qty d)%Z ds →
    legs_at_cost cfg pid order ts acc ds c = true →
    books C0 pid (SimService.cash acc') (working c')
    ∧ portfolio_accounts (working c') = portfolio_accounts (working c).
Proof.
  induction ds as [|d ds IH]; intros acc c acc' c' Hrun Hbooks Hqty Hcost.
  - by injection Hrun as <- <-.
  - simpl in Hrun, Hcost. unfold mbind, M_bind in Hrun.
    apply andb_prop in Hcost as [Hd Hrest].
    inversion_clear Hqty as [|? ? Hq Hqs].
    destruct (SimService.fill_leg cfg pid order ts acc d c) as [[acc1|e] c1] eqn:Hleg;
      [|done].
    destruct (fill_leg_books _ _ _ _ _ _ _ _ _ C0 Hleg Hbooks Hq Hd) as [Hb1 Ha1].
    destruct (IH _ _ _ _ Hrun Hb1 Hqs Hrest) as [Hb2 Ha2].
    split; [done|]. by rewrite Ha2.
Qed.

Lemma confirm_books cfg pid k s r c' C0 x :
  confirm_call cfg pid k s = (Ok r, c') →
  portfolio_accounts s !! pid = Some x →
  books C0 pid x s →
  Forall (λ d, 0 < d_qty d)%Z (k_drafts k) →
  call_at_cost cfg pid k s = true →
  ∃ x', portfolio_accounts (committed c') !! pid = Some x'
        ∧ books C0 pid x' (committed c').
Proof.
  unfold confirm_call, call_at_cost, cash_of, SimService.confirm.
  intros Hrun Hacc Hbooks Hqty Hcost. rewrite Hacc in Hcost. simpl in Hcost.
  destruct (decide (k_drafts k = [])); [done|].
  unfold mbind, M_bind, query, PortfolioRepo.get_cash in Hrun. simpl in Hrun.
  destruct (risk_check_results s !! k_riskcheck k) as [row|]; [|done].
  simpl in Hrun. destruct (decide (r_status row = "FAIL")); [done|].
  unfold mbind, M_bind, query in Hrun. simpl in Hrun. rewrite Hacc in Hrun.
  simpl in Hrun. unfold with_conn, mbind, M_bind in Hrun.
  change {| committed := s; working := s; commit_log := []; clock := k_clock k;
            entropy := N.succ (k_seed k) |}
    with (connect s (k_clock k) (N.succ (k_seed k))) in Hrun.
  destruct (for_each _ _ _ _) as [[acc1|e] c1] eqn:Hloop in Hrun; [|done].
  destruct (loop_books _ _ _ _ C0 _ _ _ _ _ Hloop Hbooks Hqty Hcost) as [[Hsum Hpos] Hacc1].
  simpl in Hrun. injection Hrun as <- <-. simpl.
  exists (SimService.cash acc1). split.
  - rewrite lookup_alter_eq, Hacc1. simpl. by rewrite Hacc.
  - split; [exact Hsum|exact Hpos].
Qed.

(** C1, as the ledger keeps it: from a portfolio with cash [C0], no position
    and no trade, after any sequence of successful [sim.confirm] calls whose
    drafts have a positive quantity and whose legs other than BUY fill at the
    position's [avg_cost], cash plus the cost of the positions plus the fees
    and slippage charged on the legs other than BUY equals [C0].  The fees
    and slippage of a BUY are already inside [avg_cost]. *)
Theorem ledger_identity_after_confirms cfg pid C0 ks s0 s :
  fresh_portfolio pid C0 s0 →
  positive_qty ks →
  constant_price cfg pid ks s0 = true →
  replay cfg pid ks s0 = Some s →
  ledger_identity C0 pid s.
Proof.
  intros (Hacc & Hnopos & Hnotrade) Hqty Hcost Hrun.
  assert (Hinv : ∃ x, portfolio_accounts s0 !! pid = Some x ∧ books C0 pid x s0).
  { exists C0. split; [done|]. split.
    - unfold sell_charges. rewrite position_cost_fresh, charged_fresh by done. ring.
    - intros k p Hk Hpid. by destruct (Hnopos k p Hk). }
  clear Hacc Hnopos Hnotrade.
  revert s0 Hinv Hcost Hrun.
  induction Hqty as [|k ks Hk _ IH]; intros s0 (x & Hacc & Hbooks) Hcost Hrun.
  - injection Hrun as <-. unfold ledger_identity, cash_of. rewrite Hacc. apply Hbooks.
  - simpl in Hrun, Hcost. apply andb_prop in Hcost as [Hk_cost Hrest].
    destruct (confirm_call cfg pid k s0) as [[r|e] c'] eqn:Hcall; [|done].
    apply (IH (committed c')); [|done..].
    by eapply confirm_books.
Qed.

Lemma fresh_store_is_fresh :
  fresh_portfolio Scenario.pid (Qc_of_int 100000) Scenario.fresh_store.
Proof.
  split; [reflexivity|]. split; [|constructor].
  intros k p. simpl. by rewrite lookup_empty.
Qed.

(** A run of the theorem: 100 shares bought, 50 of them sold at cost. *)
Lemma ledger_identity_after_confirms_witness :
  ∃ s, replay SimService.default_config Scenario.pid
         [Scenario.buy_call; Scenario.sell_call] Scenario.fresh_store = Some s
       ∧ ledger_identity (Qc_of_int 100000) Scenario.pid s.
Proof.
  eexists. split; [vm_compute; reflexivity|].
  apply (ledger_identity_after_confirms SimService.default_config Scenario.pid
           (Qc_of_int 100000) [Scenario.buy_call; Scenario.sell_call]
           Scenario.fresh_store).
  - apply fresh_store_is_fresh.
  - repeat constructor.
  - vm_compute; reflexivity.
  - vm_compute; reflexivity.
Defined.

(** C1 as the specification words it fails after a single BUY: the cash paid
    and the cost of the position already balance, so adding the fee and the
    slippage of that BUY overshoots the initial cash by 0.8. *)
Lemma identity_with_all_charges_fails :
  ∃ s, fresh_portfolio Scenario.pid (Qc_of_int 100000) Scenario.fresh_store
       ∧ positive_qty [Scenario.buy_call]
       ∧ constant_price SimService.default_config Scenario.pid
           [Scenario.buy_call] Scenario.fresh_store = true
       ∧ replay SimService.default_config Scenario.pid
           [Scenario.buy_call] Scenario.fresh_store = Some s
       ∧ ¬ identity_with_all_charges (Qc_of_int 100000) Scenario.pid s.
Proof.
  eexists. split; [apply fresh_store_is_fresh|].
  split; [repeat constructor|].
  split; [vm_compute; reflexivity|].
  split; [vm_compute; reflexivity|].
  unfold identity_with_all_charges.
  apply (bool_decide_eq_false_1 _). vm_compute. reflexivity.
Qed.

(** * [sim.confirm] *)

(** A raise after which the committed trades have changed is not all or
    nothing. *)
Lemma not_all_or_nothing cfg pid drafts rid c e c' :
  SimService.confirm cfg pid drafts rid c = (Raise e, c') →
  length (sim_trades (committed c')) ≠ length (sim_trades (committed c)) →
  ¬ confirm_all_or_nothing cfg pid drafts rid c.
Proof.
  intros Hrun Hlen Hatomic. apply Hlen.
  specialize (Hatomic e c' Hrun). unfold ledger in Hatomic.
  injection Hatomic as _ _ _ ->. reflexivity.
Qed.

(** C3 on the code: in the history [Scenario.late_confirm] the SELL leg finds
    no position and [confirm] raises, yet the trade and the position of the
    BUY leg before it stay committed: [upsert_position] commits on leaving
    its own [with], inside the [with] of [confirm].  No order row is written
    and the cash is not updated. *)
Theorem confirm_keeps_earlier_legs :
  Scenario.late_confirm.1 = Raise (ValueError "position would go negative")
  ∧ length (sim_trades Scenario.sold) = 1%nat
  ∧ length (sim_trades (committed Scenario.late_confirm.2)) = 2%nat
  ∧ positions Scenario.sold !! (Scenario.pid, "600519", "SSE") = None
  ∧ is_Some (positions (committed Scenario.late_confirm.2)
               !! (Scenario.pid, "600519", "SSE"))
  ∧ sim_orders (committed Scenario.late_confirm.2) = sim_orders Scenario.sold
  ∧ portfolio_accounts (committed Scenario.late_confirm.2)
    = portfolio_accounts Scenario.sold
  ∧ ¬ confirm_all_or_nothing SimService.default_config Scenario.pid
        [Scenario.buy_600519; Scenario.sell_000001] 100 (connect Scenario.sold 1030 130).
Proof.
  split; [vm_compute; reflexivity|].
  split; [vm_compute; reflexivity|].
  split; [vm_compute; reflexivity|].
  split; [vm_compute; reflexivity|].
  split; [eexists; vm_compute; reflexivity|].
  split; [vm_compute; reflexivity|].
  split; [vm_compute; reflexivity|].
  apply (not_all_or_nothing _ _ _ _ _ (ValueError "position would go negative")
           Scenario.late_confirm.2).
  - vm_compute. reflexivity.
  - vm_compute. discriminate.
Qed.

(** C10: [confirm] of a BUY leg under a risk check that is not FAIL never
    looks at the cash: it succeeds and commits the old balance minus the
    cost, the fee and the slippage of the leg, whatever the balance was. *)
Theorem confirm_buy_ignores_cash cfg pid d rid s t seed row cash0 px :
  d_side d = "BUY" →
  risk_check_results s !! rid = Some row →
  r_status row ≠ "FAIL" →
  portfolio_accounts s !! pid = Some cash0 →
  latest_close_of (d_symbol d) (d_exchange d) s = Some px →
  let fill := from_option id px (d_price d) in
  let cost := fill * Qc_of_int (d_qty d)
              + fill * Qc_of_int (d_qty d) * SimService.fee_rate cfg
              + px * SimService.slippage_rate cfg * Qc_of_int (d_qty d) in
  ∃ r c', SimService.confirm cfg pid [d] rid (connect s t seed) = (Ok r, c')
          ∧ portfolio_accounts (committed c') !! pid = Some (cash0 - cost).
Proof.
  intros Hside Hrow Hstatus Hcash Hpx fill cost.
  unfold SimService.confirm. rewrite decide_False by done.
  unfold mbind, M_bind, query, PortfolioRepo.get_cash. simpl.
  rewrite Hrow. simpl. rewrite decide_False by done.
  unfold mbind, M_bind, query. simpl. rewrite Hcash. simpl.
  unfold with_conn, mbind, M_bind. simpl.
  unfold SimService.fill_leg, _latest_close, mbind, M_bind, query. simpl.
  rewrite Hpx. simpl.
  unfold SimService._apply_position, PortfolioRepo.get_position, mbind, M_bind, query.
  simpl. rewrite !(decide_True _ _ Hside). simpl.
  eexists _, _. split; [reflexivity|]. simpl.
  rewrite lookup_alter_eq, Hcash. reflexivity.
Qed.

(** The theorem at a balance of 100,000 and a BUY of 100,000 shares at 10:
    the committed balance is negative. *)
Lemma confirm_buy_ignores_cash_witness :
  ∃ r c' x,
    SimService.confirm SimService.default_config Scenario.pid Scenario.big_buy 7
      (connect Scenario.fresh_store 1000 100) = (Ok r, c')
    ∧ portfolio_accounts Scenario.fresh_store !! Scenario.pid = Some (Qc_of_int 100000)
    ∧ portfolio_accounts (committed c') !! Scenario.pid = Some x
    ∧ x < 0.
Proof.
  destruct (confirm_buy_ignores_cash SimService.default_config Scenario.pid
              (Scenario.draft_ 22 "600519" "SSE" "BUY" None 100000) 7
              Scenario.fresh_store 1000 100 Scenario.passed
              (Qc_of_int 100000) (Qc_of_int 10))
    as (r & c' & Hrun & Hcash);
    [reflexivity|reflexivity|discriminate|reflexivity|reflexivity|].
  exists r, c'. eexists. split; [exact Hrun|]. split; [reflexivity|].
  split; [exact Hcash|].
  apply (bool_decide_eq_true_1 _). vm_compute. reflexivity.
Defined.

(** * [confirm] and the drafts a risk check was run on *)

Section Blind.
Variable f : riskcheck_row → list uuid.
















End Blind.


(** * The audit row of [sim.confirm] *)

Section Quiet.
Variable a : list audit_row.













End Quiet.








(** * The rebalance planner *)

(** C5 on the code: with cash 210,000 the investable value is 199,500, that
    is 199.5 shares at 1000, truncated to 199 and rounded down to one lot:
    the BUY is of 100 shares.  With cash 10,000 the move is below one lot and
    is skipped. *)
Theorem sub_lot_example_100 : sub_lot_example 100.
Proof. split; vm_compute; reflexivity. Qed.

(** C5 as the specification words it, with a BUY of 200, does not hold. *)
Lemma sub_lot_example_200_fails : ¬ sub_lot_example 200.
Proof. intros [_ H]. vm_compute in H. discriminate H. Qed.

(** * Plan versions *)

Lemma foldr_max_le (v : Z) (vs : list Z) :
  Forall (λ x, x ≤ foldr Z.max v vs)%Z (v :: vs).
Proof.
  induction vs as [|w vs IH]; simpl.
  - repeat constructor. lia.
  - inversion_clear IH as [|? ? Hv Hvs]. constructor; [lia|].
    constructor; [lia|]. eapply Forall_impl; [exact Hvs|]. simpl. intros; lia.
Qed.

Lemma max_version_bounds (ps : list plan_row) :
  Forall (λ x, x < default 0 (PlansRepo.max_version ps) + 1)%Z (plan_version <$> ps).
Proof.
  unfold PlansRepo.max_version. destruct (plan_version <$> ps) as [|v vs]; [constructor|].
  simpl. eapply Forall_impl; [apply foldr_max_le|]. simpl. intros; lia.
Qed.

Lemma foldr_max_seq (n : nat) :
  foldr Z.max 1%Z (Z.of_nat <$> seq 2 n) = Z.of_nat (S n).
Proof.
  induction n as [|n IH]; [done|].
  rewrite seq_S, fmap_app, foldr_app. simpl.
  assert (Hmax : ∀ (l : list Z) (a b : Z),
             foldr Z.max (Z.max a b) l = Z.max a (foldr Z.max b l)).
  { induction l as [|x l IHl]; intros a b; simpl; [done|]. rewrite IHl. lia. }
  rewrite Hmax, IH. lia.
Qed.

Lemma max_version_counted (ps : list plan_row) :
  plan_version <$> ps = Z.of_nat <$> seq 1 (length ps) →
  (default 0 (PlansRepo.max_version ps) + 1)%Z = Z.of_nat (S (length ps)).
Proof.
  unfold PlansRepo.max_version. intros ->.
  destruct (length ps) as [|n]; [done|].
  simpl. rewrite foldr_max_seq. lia.
Qed.

(** What [create] appends, and that it is committed. *)
Lemma create_appends symbol exchange c :
  ∃ pid c',
    PlansRepo.create symbol exchange c = (Ok pid, c')
    ∧ committed c' = working c'
    ∧ trade_plans (working c')
      = (trade_plans (working c) ++
          [{| plan_id := pid; p_symbol := symbol; p_exchange := exchange;
              p_created_at := clock c;
              plan_version :=
                (default 0 (PlansRepo.max_version
                              (PlansRepo.plans_of symbol exchange (working c))) + 1)%Z |}])%list.
Proof. eexists _, _. split; [reflexivity|]. by split. Qed.

Lemma plans_of_create symbol exchange c sym exch :
  PlansRepo.plans_of sym exch (working (PlansRepo.create symbol exchange c).2)
  = (PlansRepo.plans_of sym exch (working c) ++
      (if decide (symbol = sym ∧ exchange = exch)
       then [{| plan_id := entropy c; p_symbol := symbol; p_exchange := exchange;
                p_created_at := clock c;
                plan_version :=
                  (default 0 (PlansRepo.max_version
                                (PlansRepo.plans_of symbol exchange (working c))) + 1)%Z |}]
       else []))%list.
Proof.
  unfold PlansRepo.plans_of. simpl. rewrite filter_app. f_equal.
Qed.

Lemma create_counted symbol exchange c :
  counted_from_1 (working c) →
  counted_from_1 (working (PlansRepo.create symbol exchange c).2).
Proof.
  intros Hc sym exch. unfold versions_of. rewrite plans_of_create.
  rewrite fmap_app, length_app. fold (versions_of sym exch (working c)).
  rewrite Hc. case_decide as Hk; simpl.
  - destruct Hk as [-> ->].
    rewrite (max_version_counted _ (Hc sym exch)).
    rewrite Nat.add_1_r, seq_S, fmap_app. reflexivity.
  - by rewrite Nat.add_0_r, app_nil_r.
Qed.

(** C8: [create] gives a plan the version 1 when its instrument has no plan
    and a version above every existing one otherwise, and commits it; so,
    from an empty plan table, after any sequence of creations the versions
    of an instrument are 1, 2, ..., n in creation order, [n] being the number
    of creations for it. *)
Theorem plan_versions_count_up :
  (∀ symbol exchange c,
     ∃ v, versions_of symbol exchange (committed (PlansRepo.create symbol exchange c).2)
          = (versions_of symbol exchange (working c) ++ [v])%list
          ∧ Forall (λ x, x < v)%Z (versions_of symbol exchange (working c))
          ∧ (versions_of symbol exchange (working c) = [] → v = 1%Z))
  ∧ (∀ qs s symbol exchange,
       versions_of symbol exchange (create_plans qs (set_trade_plans (λ _, []) s))
       = Z.of_nat <$> seq 1 (length (requests_for symbol exchange qs))).
Proof.
  split.
  - intros symbol exchange c.
    exists (default 0 (PlansRepo.max_version
                         (PlansRepo.plans_of symbol exchange (working c))) + 1)%Z.
    split; [|split].
    + change (committed (PlansRepo.create symbol exchange c).2)
        with (working (PlansRepo.create symbol exchange c).2).
      unfold versions_of. rewrite plans_of_create, fmap_app.
      rewrite decide_True by done. reflexivity.
    + apply max_version_bounds.
    + unfold versions_of, PlansRepo.max_version. by intros ->.
  - intros qs s symbol exchange.
    assert (Hgen : ∀ qs s0, counted_from_1 s0 →
              counted_from_1 (create_plans qs s0)
              ∧ ∀ sym exch,
                  length (PlansRepo.plans_of sym exch (create_plans qs s0))
                  = (length (PlansRepo.plans_of sym exch s0)
                     + length (requests_for sym exch qs))%nat).
    { clear. induction qs as [|q qs IH]; intros s0 H0; simpl.
      - split; [done|]. intros. unfold requests_for. simpl. lia.
      - assert (H1 : counted_from_1 (create_plan s0 q)).
        { apply (create_counted q.1.1.1 q.1.1.2 (connect s0 q.1.2 q.2)), H0. }
        destruct (IH _ H1) as [Hc Hlen]. split; [exact Hc|].
        intros sym exch. rewrite Hlen. unfold create_plan.
        change (committed (PlansRepo.create q.1.1.1 q.1.1.2 (connect s0 q.1.2 q.2)).2)
          with (working (PlansRepo.create q.1.1.1 q.1.1.2 (connect s0 q.1.2 q.2)).2).
        rewrite plans_of_create, length_app. simpl.
        unfold requests_for. rewrite filter_cons.
        case_decide; simpl.
        + rewrite <-Nat.add_assoc. reflexivity.
        + rewrite Nat.add_0_r. reflexivity. }
    destruct (Hgen qs (set_trade_plans (λ _, []) s)) as [Hc Hlen]; [by intros ? ?|].
    rewrite Hc, Hlen. reflexivity.
Qed.

(** * Scoring *)

Lemma list_bars_length symbol exchange adj limit s :
  length (BarsRepo.list_bars_of symbol exchange adj limit s)
  = (limit `min` length (stored_bars symbol exchange adj s))%nat.
Proof.
  unfold BarsRepo.list_bars_of, newest_first, stored_bars.
  rewrite length_rev, length_take. by rewrite merge_sort_Permutation.
Qed.

Lemma list_bars_Forall (P : bar → Prop) symbol exchange adj limit s :
  Forall P (stored_bars symbol exchange adj s) →
  Forall P (BarsRepo.list_bars_of symbol exchange adj limit s).
Proof.
  unfold BarsRepo.list_bars_of, newest_first, stored_bars. intros H.
  apply Forall_rev, Forall_take. by rewrite merge_sort_Permutation.
Qed.

(** ** The rules *)

(** [rate] computes the four categories and the total of the specification:
    the points are small integers, which binary64 adds without error. *)
Lemma rate_spec m :
  let r := ScoringService.rate m in
  ScoringService.trend r.1.2 = spec_trend m
  ∧ ScoringService.momentum r.1.2 = spec_momentum m
  ∧ ScoringService.volatility r.1.2 = spec_volatility m
  ∧ ScoringService.liquidity r.1.2 = spec_liquidity m
  ∧ r.1.1 = spec_total m
  ∧ (0 <=? r.1.1)%float = true ∧ (r.1.1 <=? 100)%float = true.
Proof.
  unfold ScoringService.rate, spec_total, spec_trend, spec_momentum,
    spec_volatility, spec_liquidity, ScoringService.rule, points.
  destruct (ScoringService.ma20 m <? ScoringService.last_close m)%float;
  destruct (ScoringService.ma60 m <? ScoringService.ma20 m)%float;
  destruct (ScoringService.ma60 m <? ScoringService.last_close m)%float;
  destruct (0 <? ScoringService.ret20 m)%float;
  destruct (0x1.999999999999ap-4 <? ScoringService.ret20 m)%float;
  (destruct (ScoringService.vol20 m <? 0x1.eb851eb851eb8p-6)%float;
   [|destruct (ScoringService.vol20 m <? 0x1.eb851eb851eb8p-5)%float]);
  (destruct (100000000 <? ScoringService.liq20 m)%float;
   [|destruct (20000000 <? ScoringService.liq20 m)%float]);
  vm_compute; repeat split.
Qed.

(** ** A constant close series *)

Lemma ltb_irrefl (x : float) : (x <? x)%float = false.
Proof.
  rewrite ltb_spec. unfold SFltb, SFcompare.
  destruct (Prim2SF x) as [[|]|[|]| |[|] m e]; try reflexivity;
    by rewrite Z.compare_refl, Pos.compare_cont_refl.
Qed.

Lemma last_n_length {A} (n : nat) (l : list A) :
  (n ≤ length l)%nat → length (last_n n l) = n.
Proof. intros Hn. unfold last_n. rewrite length_drop. lia. Qed.

Lemma last_n_const {A} (x : A) (n : nat) (l : list A) :
  Forall (λ y, y = x) l → (n ≤ length l)%nat → last_n n l = replicate n x.
Proof.
  intros Hall Hn. symmetry. apply replicate_as_Forall. split.
  - by apply last_n_length.
  - unfold last_n. apply Forall_drop. eapply Forall_impl; [exact Hall|]. done.
Qed.

Lemma from_end_const (x : float) (n : nat) (l : list float) :
  Forall (λ y, y = x) l → (1 ≤ n ≤ length l)%nat → from_end n l = x.
Proof.
  intros Hall Hn. unfold from_end.
  destruct (lookup_lt_is_Some_2 l (length l - n)) as [y Hy]; [lia|].
  rewrite Hy. simpl. eapply (proj1 (Forall_lookup _ _)) in Hall; [|exact Hy]. done.
Qed.

Lemma measure_const vol (x : Qc) (bars : list bar) :
  Forall (λ b, b_close b = Some x) bars → (60 ≤ length bars)%nat →
  np_mean (replicate 20 (float_of_Qc x)) = float_of_Qc x →
  np_mean (replicate 60 (float_of_Qc x)) = float_of_Qc x →
  spec_trend (ScoringService.measure vol bars) = 0%float.
Proof.
  intros Hall Hlen H20 H60.
  assert (Hcloses : Forall (λ y, y = float_of_Qc x) (ScoringService.close_of <$> bars)).
  { apply Forall_fmap. eapply Forall_impl; [exact Hall|].
    intros b Hb. unfold ScoringService.close_of. simpl. by rewrite Hb. }
  unfold spec_trend, ScoringService.measure. cbv zeta.
  cbn [ScoringService.ma20 ScoringService.ma60 ScoringService.last_close].
  rewrite !(last_n_const (float_of_Qc x)) by (rewrite ?length_fmap; done || lia).
  rewrite (from_end_const (float_of_Qc x) 1) by (rewrite ?length_fmap; done || lia).
  rewrite H20, H60, !ltb_irrefl. reflexivity.
Qed.

(** C6, as the code computes it: with at least 60 bars stored, [calc]
    returns; its metrics are the last close, the means of the last 20 and 60
    closes, the 20-bar return, the deviation of the last log returns and the
    mean of the last 20 amounts, in binary64; its categories are the point
    sums of the specification, its total is
    [min(100, max(0, 2 * (trend + momentum + volatility + liquidity)))], which
    lies in [[0, 100]]; and when every stored close is the same, the trend is
    0 provided the two means, as numpy rounds them, are that close again. *)
Theorem score_total_formula vol symbol exchange adj c :
  (60 ≤ length (stored_bars symbol exchange adj (working c)))%nat →
  ∃ r, ScoringService.calc vol symbol exchange adj c = (Ok r, c)
       ∧ metrics_of vol (BarsRepo.list_bars_of symbol exchange adj 120 (working c))
           (ScoringService.metrics r)
       ∧ ScoringService.trend (ScoringService.breakdown r)
         = spec_trend (ScoringService.metrics r)
       ∧ ScoringService.momentum (ScoringService.breakdown r)
         = spec_momentum (ScoringService.metrics r)
       ∧ ScoringService.volatility (ScoringService.breakdown r)
         = spec_volatility (ScoringService.metrics r)
       ∧ ScoringService.liquidity (ScoringService.breakdown r)
         = spec_liquidity (ScoringService.metrics r)
       ∧ ScoringService.score_total r = spec_total (ScoringService.metrics r)
       ∧ (0 <=? ScoringService.score_total r)%float = true
       ∧ (ScoringService.score_total r <=? 100)%float = true
       ∧ (∀ x, Forall (λ b, b_close b = Some x)
                 (stored_bars symbol exchange adj (working c)) →
               np_mean (replicate 20 (float_of_Qc x)) = float_of_Qc x →
               np_mean (replicate 60 (float_of_Qc x)) = float_of_Qc x →
               ScoringService.trend (ScoringService.breakdown r) = 0%float).
Proof.
  intros Hlen.
  assert (Hbars : (60 ≤ length (BarsRepo.list_bars_of symbol exchange adj 120 (working c)))%nat)
    by (rewrite list_bars_length; lia).
  unfold ScoringService.calc, BarsRepo.list_bars, query, mbind, M_bind.
  rewrite decide_False by lia.
  set (m := ScoringService.measure vol _).
  pose proof (rate_spec m) as Hrate. cbv zeta in Hrate.
  destruct (ScoringService.rate m) as [[total bd] rs].
  cbn [fst snd] in Hrate.
  destruct Hrate as (Ht & Hm & Hv & Hl & Htot & H0 & H100).
  eexists. split; [reflexivity|].
  cbn [ScoringService.metrics ScoringService.breakdown ScoringService.score_total].
  split; [by repeat split|].
  repeat (split; [done|]).
  intros x Hall H20 H60. rewrite Ht. unfold m.
  apply (measure_const vol x); [|done..]. by apply list_bars_Forall.
Qed.

Lemma flat_bars_closes n :
  Forall (λ b, b_close b = Some (Qc_of_int 1000))
    (stored_bars "600519" "SSE" "RAW" (Scenario.flat_bars n)).
Proof.
  apply Forall_forall. intros b Hb.
  unfold stored_bars, bars_of in Hb. apply list_elem_of_filter in Hb as [_ Hb].
  unfold Scenario.flat_bars in Hb. cbn [bars_daily] in Hb.
  apply list_elem_of_fmap in Hb as (i & -> & _). reflexivity.
Qed.

(** The theorem on 60 bars closing at 1000: the means are 1000, the trend
    is 0, the total is in range. *)
Lemma score_total_formula_witness :
  ∃ r, ScoringService.calc Scenario.no_deviation "600519" "SSE" "RAW"
         (connect (Scenario.flat_bars 60) 1000 100)
       = (Ok r, connect (Scenario.flat_bars 60) 1000 100)
       ∧ ScoringService.ma20 (ScoringService.metrics r) = 1000%float
       ∧ ScoringService.ma60 (ScoringService.metrics r) = 1000%float
       ∧ ScoringService.score_total r = spec_total (ScoringService.metrics r)
       ∧ (0 <=? ScoringService.score_total r)%float = true
       ∧ (ScoringService.score_total r <=? 100)%float = true
       ∧ ScoringService.trend (ScoringService.breakdown r) = 0%float.
Proof.
  destruct (score_total_formula Scenario.no_deviation "600519" "SSE" "RAW"
              (connect (Scenario.flat_bars 60) 1000 100))
    as (r & Hr & Hmet & _ & _ & _ & _ & Htot & H0 & H100 & Hflat).
  { apply Nat.leb_le. vm_compute. reflexivity. }
  exists r. split; [exact Hr|].
  destruct Hmet as (_ & H20 & H60 & _).
  split; [rewrite H20; vm_compute; reflexivity|].
  split; [rewrite H60; vm_compute; reflexivity|].
  split; [exact Htot|]. split; [exact H0|]. split; [exact H100|].
  apply (Hflat (Qc_of_int 1000)).
  - apply flat_bars_closes.
  - vm_compute. reflexivity.
  - vm_compute. reflexivity.
Defined.

(** C6 as the specification words it fails on 60 bars closing at 1.1: the
    mean of the last 20 closes rounds above 1.1 and that of the last 60
    below, so MA20 > MA60 and last > MA60 hold and the trend is 20. *)
Lemma constant_closes_trend_0_fails :
  ¬ constant_closes_trend_0 Scenario.no_deviation "600519" "SSE" "RAW"
      (connect (Scenario.flat_bars_at_1_1 60) 1000 100).
Proof.
  intros H.
  set (run := ScoringService.calc Scenario.no_deviation "600519" "SSE" "RAW"
                (connect (Scenario.flat_bars_at_1_1 60) 1000 100)).
  assert (Hrun : ∃ r, run = (Ok r, run.2)
                      ∧ ScoringService.trend (ScoringService.breakdown r) = 20%float).
  { unfold run. eexists. split; vm_compute; reflexivity. }
  destruct Hrun as (r & Hrun & Htrend).
  specialize (H (dec 11 10) r run.2).
  rewrite H in Htrend.
  - vm_compute in Htrend. discriminate Htrend.
  - apply Forall_forall. intros b Hb.
    unfold stored_bars, bars_of in Hb. apply list_elem_of_filter in Hb as [_ Hb].
    unfold Scenario.flat_bars_at_1_1 in Hb. cbn [bars_daily] in Hb.
    apply list_elem_of_fmap in Hb as (i & -> & _). reflexivity.
  - exact Hrun.
Qed.

(** ** The precondition on the stored bars *)

Lemma calc_raises vol symbol exchange adj c :
  (length (stored_bars symbol exchange adj (working c)) < 60)%nat →
  ScoringService.calc vol symbol exchange adj c
  = (Raise (ValueError "not enough bars; ingest more history"), c).
Proof.
  intros Hlen. unfold ScoringService.calc, BarsRepo.list_bars, query, mbind, M_bind.
  rewrite decide_True; [done|]. rewrite list_bars_length. lia.
Qed.

Lemma calc_returns vol symbol exchange adj c :
  (60 ≤ length (stored_bars symbol exchange adj (working c)))%nat →
  ∃ r, ScoringService.calc vol symbol exchange adj c = (Ok r, c).
Proof.
  intros Hlen. unfold ScoringService.calc, BarsRepo.list_bars, query, mbind, M_bind.
  rewrite decide_False by (rewrite list_bars_length; lia).
  destruct (ScoringService.rate _) as [[total bd] rs]. by eexists.
Qed.

Lemma or_else_some (x d : string) : x ≠ "" → ScoresApi.or_else (Some x) d = x.
Proof. intros Hx. unfold ScoresApi.or_else. by rewrite decide_False. Qed.

(** C7: a request that names a symbol and an exchange is answered 409
    [DATA_NOT_READY] whenever fewer than 60 bars are stored for the
    (zero-padded) symbol, the exchange and the adjustment, and is answered
    [ok] when at least 60 are. *)
Theorem scores_calc_needs_60_bars vol body s t seed sym exch :
  ScoresApi.body_symbol body = Some sym → sym ≠ "" →
  ScoresApi.body_exchange body = Some exch → exch ≠ "" →
  let n := length (stored_bars (zfill 6 sym) exch
                     (ScoresApi.or_else (ScoresApi.body_adj body) "RAW") s) in
  ((n < 60)%nat →
     (serve (ScoresApi.scores_calc vol body) s t seed).1
     = api_err ErrorCodes.DATA_NOT_READY "not enough bars; ingest more history" 409)
  ∧ ((60 ≤ n)%nat →
     ∃ r, (serve (ScoresApi.scores_calc vol body) s t seed).1 = api_ok r).
Proof.
  intros Hsym Hsym_ne Hexch Hexch_ne n.
  unfold serve, ScoresApi.scores_calc. rewrite Hsym, Hexch.
  rewrite !or_else_some by done.
  rewrite bool_decide_eq_false_2 by (intros [?|?]; done).
  unfold except_ValueError, ScoringService.calc_and_persist, mbind, M_bind.
  split; intros Hn.
  - rewrite calc_raises by exact Hn. reflexivity.
  - destruct (calc_returns vol (zfill 6 sym) exch
                (ScoresApi.or_else (ScoresApi.body_adj body) "RAW")
                (connect s t seed) Hn) as [r ->].
    simpl. by eexists.
Qed.

(** The theorem on 59 and on 60 stored bars. *)
Lemma scores_calc_needs_60_bars_witness :
  (serve (ScoresApi.scores_calc Scenario.no_deviation Scenario.score_body)
     (Scenario.flat_bars 59) 1000 100).1
  = api_err ErrorCodes.DATA_NOT_READY "not enough bars; ingest more history" 409
  ∧ ∃ r, (serve (ScoresApi.scores_calc Scenario.no_deviation Scenario.score_body)
            (Scenario.flat_bars 60) 1000 100).1 = api_ok r.
Proof.
  split.
  - apply (scores_calc_needs_60_bars Scenario.no_deviation Scenario.score_body
             (Scenario.flat_bars 59) 1000 100 "600519" "SSE");
      [reflexivity|discriminate|reflexivity|discriminate|].
    apply Nat.ltb_lt. vm_compute. reflexivity.
  - apply (scores_calc_needs_60_bars Scenario.no_deviation Scenario.score_body
             (Scenario.flat_bars 60) 1000 100 "600519" "SSE");
      [reflexivity|discriminate|reflexivity|discriminate|].
    apply Nat.leb_le. vm_compute. reflexivity.
Defined.

(** * The risk engine *)

(** ** Values returned, whatever the connection *)

Lemma returns_ret {A} (a : A) (Q : A → Prop) : Q a → returns (mret a) Q.
Proof. intros H c _. exact H. Qed.

Lemma returns_raise {A} (e : exn) (Q : A → Prop) : returns (raise e) Q.
Proof. by intros c _. Qed.

Lemma returns_bind {A B} (m : M A) (k : A → M B) (R : A → Prop) (Q : B → Prop) :
  returns m R → (∀ a, R a → returns (k a) Q) → returns (m ≫= k) Q.
Proof.
  intros Hm Hk c _. specialize (Hm c I). unfold mbind, M_bind.
  destruct (m c) as [[a|e] c']; [|done]. by apply Hk.
Qed.

Lemma returns_any {A} (m : M A) : returns m (λ _, True).
Proof. intros c _. by destruct (m c) as [[a|e] c']. Qed.

Lemma returns_for_each {A S} (body : S → A → M S) (I : S → Prop) (xs : list A) :
  (∀ s x, I s → returns (body s x) I) → ∀ s, I s → returns (for_each body s xs) I.
Proof.
  intros Hbody. induction xs as [|x xs IH]; intros s Hs; simpl.
  - by apply returns_ret.
  - eapply returns_bind; [by apply Hbody|]. intros s' Hs'. by apply IH.
Qed.

(** ** The items of the rule checks *)

Lemma mk_item_per_draft code_ level_ d :
  code_ ≠ PRICE_MISSING_CODE → level_ = "WARN" ∨ level_ = "FAIL" →
  per_draft_item (RiskRulesRepo.mk_item code_ level_ d).
Proof. by split. Qed.

Lemma check_max_orders_per_day_item r pid :
  returns (RiskRulesRepo.check_max_orders_per_day r pid) (from_option per_draft_item True).
Proof.
  intros c _. unfold RiskRulesRepo.check_max_orders_per_day, mbind, M_bind, now, query.
  case_decide; simpl; [|done]. apply mk_item_per_draft; [discriminate|by left].
Qed.

Lemma check_order_frequency_item r pid sym exch :
  returns (RiskRulesRepo.check_order_frequency r pid sym exch)
          (from_option per_draft_item True).
Proof.
  intros c _.
  unfold RiskRulesRepo.check_order_frequency, RiskRulesRepo.get_last_order_time,
    mbind, M_bind, now, query.
  destruct (filled_at <$> _) as [|t0 ts]; simpl; [done|].
  case_decide; simpl; [|done]. apply mk_item_per_draft; [discriminate|by left].
Qed.

Lemma check_daily_trading_value_item r pid v :
  returns (RiskRulesRepo.check_daily_trading_value r pid v)
          (from_option per_draft_item True).
Proof.
  intros c _. unfold RiskRulesRepo.check_daily_trading_value, mbind, M_bind, now, query.
  case_decide; simpl; [|done]. apply mk_item_per_draft; [discriminate|by left].
Qed.

Lemma check_price_limit_item sym exch side latest :
  returns (RiskRulesRepo.check_price_limit sym exch side latest)
          (from_option per_draft_item True).
Proof.
  intros c _. unfold RiskRulesRepo.check_price_limit.
  destruct latest as [lp|]; [|done]. case_decide; [done|].
  unfold mbind, M_bind, query, py_div.
  destruct (latest_bar sym exch (working c)) as [b|]; [|done].
  destruct (b_close b) as [cur|]; [|done].
  destruct (b_pre_close b) as [pre|]; [|done].
  case_decide; [done|]. simpl.
  repeat case_decide; simpl; try done;
    (apply mk_item_per_draft; [discriminate|auto]).
Qed.

(** ** The loop state *)

Lemma per_draft_clean st :
  per_draft_state st → ¬ has_code PRICE_MISSING_CODE (RiskService.items st).
Proof.
  intros [[_ Hnil]|(_ & _ & Hclean)]; [|done].
  rewrite Hnil. unfold has_code. intros H. by apply Exists_nil in H.
Qed.

Lemma appended_clean st it :
  per_draft_state st → per_draft_item it →
  (RiskService.items st ++ [it])%list ≠ []
  ∧ ¬ has_code PRICE_MISSING_CODE (RiskService.items st ++ [it])%list.
Proof.
  intros Hst [Hcode _]. split; [by destruct (RiskService.items st)|].
  unfold has_code. rewrite Exists_app, Exists_cons, Exists_nil.
  pose proof (per_draft_clean st Hst). unfold has_code in *. tauto.
Qed.

Lemma state_fail st it :
  per_draft_state st → per_draft_item it → per_draft_state (RiskService.fail it st).
Proof.
  intros Hst Hit. right. simpl. split; [by right|]. by apply appended_clean.
Qed.

Lemma state_warn st it :
  per_draft_state st → per_draft_item it → per_draft_state (RiskService.warn it st).
Proof.
  intros Hst Hit. right. simpl. split; [|by apply appended_clean].
  case_decide; [by right|by left].
Qed.

Lemma state_flag st it :
  per_draft_state st → per_draft_item it → per_draft_state (RiskService.flag it st).
Proof.
  intros Hst Hit. right. simpl. split; [|by apply appended_clean].
  case_decide; [by right|]. apply Hit.
Qed.

Lemma state_flag_limit st it :
  per_draft_state st → per_draft_item it → per_draft_state (RiskService.flag_limit it st).
Proof.
  intros Hst Hit. unfold RiskService.flag_limit.
  case_decide; [by apply state_fail|by apply state_warn].
Qed.

Lemma state_note o f st :
  (∀ it st, per_draft_state st → per_draft_item it → per_draft_state (f it st)) →
  from_option per_draft_item True o → per_draft_state st →
  per_draft_state (RiskService.note o f st).
Proof. intros Hf Ho Hst. destruct o as [it|]; simpl; [by apply Hf|done]. Qed.

Lemma state_trade st cash' k q :
  per_draft_state st → per_draft_state (RiskService.trade st cash' k q).
Proof. done. Qed.

Lemma draft_item_per_draft code_ d :
  code_ ≠ PRICE_MISSING_CODE →
  ∀ level_, level_ = "WARN" ∨ level_ = "FAIL" →
  per_draft_item (RiskRulesRepo.mk_item code_ level_ d).
Proof. by split. Qed.

(** Every iteration of the loop keeps the state consistent. *)
Lemma check_draft_state r pid te st d :
  per_draft_state st →
  returns (RiskService.check_draft r pid te st d) per_draft_state.
Proof.
  intros Hst. unfold RiskService.check_draft. cbv zeta.
  assert (Hfail : ∀ st code_, per_draft_state st → code_ ≠ PRICE_MISSING_CODE →
            per_draft_state
              (RiskService.fail (RiskRulesRepo.mk_item code_ "FAIL" (Some (draft_id d))) st)).
  { intros st0 code_ H0 Hc. apply state_fail; [done|]. split; [done|by right]. }
  assert (Hwarn : ∀ st code_, per_draft_state st → code_ ≠ PRICE_MISSING_CODE →
            per_draft_state
              (RiskService.warn (RiskRulesRepo.mk_item code_ "WARN" (Some (draft_id d))) st)).
  { intros st0 code_ H0 Hc. apply state_warn; [done|]. split; [done|by left]. }
  case_decide; [apply returns_ret, Hfail; [done|discriminate]|].
  case_decide; [apply returns_raise|].
  case_decide; [apply returns_ret, Hfail; [done|discriminate]|].
  eapply returns_bind; [apply returns_any|]. intros [latest_px|] _;
    [|apply returns_ret, Hfail; [done|discriminate]].
  eapply (returns_bind _ _ per_draft_state).
  { destruct (d_price d) as [lp|]; [|by apply returns_ret].
    eapply returns_bind; [apply returns_any|]. intros dev _.
    case_decide; apply returns_ret; [apply Hwarn; [done|discriminate]|done]. }
  intros st1 Hst1.
  eapply (returns_bind _ _ per_draft_state).
  { case_decide; [|by apply returns_ret].
    eapply returns_bind; [apply check_order_frequency_item|]. intros o Ho.
    apply returns_ret, state_note; [intros; by apply state_flag|done..]. }
  intros st2 Hst2.
  eapply returns_bind; [apply check_price_limit_item|]. intros o Ho.
  assert (Hst3 : per_draft_state (RiskService.note o RiskService.flag_limit st2))
    by (apply state_note; [intros; by apply state_flag_limit|done..]).
  eapply (returns_bind _ _ per_draft_state).
  { case_decide; [|by apply returns_ret].
    eapply returns_bind; [apply check_daily_trading_value_item|]. intros o' Ho'.
    apply returns_ret, state_note; [intros; by apply state_warn|done..]. }
  intros st4 Hst4.
  set (st5 := if decide (_ < RiskRulesRepo.min_order_value r) then _ else st4).
  assert (Hst5 : per_draft_state st5).
  { unfold st5. case_decide; [apply Hwarn; [done|discriminate]|done]. }
  set (st6 := if decide (RiskRulesRepo.max_order_value r < _) then _ else st5).
  assert (Hst6 : per_draft_state st6).
  { unfold st6. case_decide; [apply Hwarn; [done|discriminate]|done]. }
  clearbody st5 st6.
  repeat case_decide; apply returns_ret;
    first [ apply Hfail; [first [done|by apply state_trade]|discriminate]
          | by apply state_trade | done ].
Qed.

(** ** The batch-level check *)

Lemma held_in_qty_map pid s sym exch p :
  positions s !! (pid, sym, exch) = Some p →
  is_Some (RiskService.positions_qty_map_of pid s !! (sym, exch)).
Proof.
  intros Hp. unfold RiskService.positions_qty_map_of.
  apply not_eq_None_Some. intros Hnone.
  apply not_elem_of_list_to_map_2 in Hnone. apply Hnone.
  apply list_elem_of_fmap. exists ((sym, exch), qty p). split; [done|].
  apply list_elem_of_omap. exists ((pid, sym, exch), p). split.
  - by apply elem_of_map_to_list.
  - simpl. by rewrite decide_True.
Qed.

Lemma unpriced_is_missing (m : gmap (string * string) Z) s :
  (∃ k q, m !! k = Some q ∧ latest_close_of k.1 k.2 s = None) →
  (RiskService.positions_market_value_of m s).2 = true.
Proof.
  unfold RiskService.positions_market_value_of.
  apply (map_fold_weak_ind
           (λ (b : Qc * bool) (m : gmap (string * string) Z),
              (∃ k q, m !! k = Some q ∧ latest_close_of k.1 k.2 s = None) → b.2 = true)).
  - intros (k & q & Hk & _). by rewrite lookup_empty in Hk.
  - intros i x m' acc Hi IH (k & q & Hk & Hpx).
    destruct (decide (i = k)) as [->|Hne].
    + by rewrite Hpx.
    + rewrite lookup_insert_ne in Hk by done.
      destruct (latest_close_of i.1 i.2 s); simpl; [|done]. apply IH. eauto.
Qed.

Lemma price_missing_flag pid s :
  holds_unpriced pid s →
  (RiskService.positions_market_value_of (RiskService.positions_qty_map_of pid s) s).2
  = true.
Proof.
  intros (sym & exch & p & Hp & Hpx). apply unpriced_is_missing.
  destruct (held_in_qty_map pid s sym exch p Hp) as [q Hq].
  by exists (sym, exch), q.
Qed.

Lemma bind_run {A B} (m : M A) (k : A → M B) c :
  (m ≫= k) c = match m c with
               | (Ok a, c') => k a c'
               | (Raise e, c') => (Raise e, c')
               end.
Proof. reflexivity. Qed.

Lemma check_max_orders_per_day_reads r pid c :
  ∃ o, RiskRulesRepo.check_max_orders_per_day r pid c = (Ok o, c)
       ∧ from_option per_draft_item True o.
Proof.
  pose proof (check_max_orders_per_day_item r pid c I) as Hitem. revert Hitem.
  unfold RiskRulesRepo.check_max_orders_per_day, mbind, M_bind, now, query.
  case_decide; simpl; eauto.
Qed.

(** What the loop hands to the batch-level check. *)
Lemma draft_checks_result r pid drafts c cash te pm st c1 :
  RiskService.draft_checks r pid drafts c = (Ok (cash, te, pm, st), c1) →
  pm = (RiskService.positions_market_value_of
          (RiskService.positions_qty_map_of pid (working c)) (working c)).2
  ∧ per_draft_state st.
Proof.
  unfold RiskService.draft_checks. rewrite bind_run.
  unfold RiskService._get_cash. rewrite bind_run. unfold query at 1.
  destruct (portfolio_accounts (working c) !! pid) as [cash0|]; [|done].
  change ((mret cash0 : M Qc) c) with (Ok cash0, c). cbv beta iota.
  rewrite bind_run. unfold RiskService._positions_qty_map, query at 1. cbv beta iota.
  rewrite bind_run.
  destruct (check_max_orders_per_day_reads r pid c) as (o & -> & Ho). cbv beta iota.
  rewrite bind_run. unfold RiskService._positions_market_value, query at 1.
  destruct (RiskService.positions_market_value_of _ _) as [mv pm0] eqn:Hmv.
  cbv beta iota. rewrite bind_run.
  match goal with
  | |- context [for_each ?body ?s0 ?xs c] =>
      pose proof (returns_for_each body per_draft_state xs
                    (λ s x Hs, check_draft_state r pid _ s x Hs) s0) as Hloop;
      destruct (for_each body s0 xs c) as [[st'|e] c'] eqn:Hrun
  end; [|done].
  intros [= <- <- <- <- <-]. split; [done|].
  assert (Hinit : per_draft_state
            (RiskService.note o RiskService.warn
               {| RiskService.items := []; RiskService.status := "PASS";
                  RiskService.cash_now := cash0;
                  RiskService.pos_qty_map :=
                    RiskService.positions_qty_map_of pid (working c) |})).
  { apply state_note; [intros; by apply state_warn|done|by left]. }
  specialize (Hloop Hinit c I). by rewrite Hrun in Hloop.
Qed.

(** C4, as the code does it: when a held symbol has no latest close, the
    persisted result is never PASS; it carries the item
    [RISK_PRICE_MISSING_FOR_SOME_POSITIONS] exactly when the pre-check and the
    per-draft checks raised nothing, and then it is that single item with
    status WARN; when they raised an item, the persisted items do not
    contain it. *)
Theorem price_missing_reported_on_pass r d0 ds c rid p c' :
  RiskService.check r (d0 :: ds) c = (Ok (rid, p), c') →
  holds_unpriced (d_portfolio_id d0) (working c) →
  (∃ row, risk_check_results (committed c') !! rid = Some row
          ∧ r_items row = RiskService.p_items p
          ∧ r_status row = RiskService.p_status p)
  ∧ RiskService.p_status p ≠ "PASS"
  ∧ ((RiskService.p_status p = "WARN"
      ∧ RiskService.p_items p = [RiskService.PRICE_MISSING])
     ∨ (RiskService.p_items p ≠ []
        ∧ ¬ has_code PRICE_MISSING_CODE (RiskService.p_items p))).
Proof.
  intros Hrun Hheld. revert Hrun. unfold RiskService.check.
  destruct (existsb _ _); [done|]. rewrite bind_run.
  destruct (RiskService.draft_checks r (d_portfolio_id d0) (d0 :: ds) c)
    as [[[[[cash te] pm] st]|e] c1] eqn:Hdc; [|done].
  destruct (draft_checks_result _ _ _ _ _ _ _ _ _ Hdc) as [Hpm Hst].
  rewrite (price_missing_flag _ _ Hheld) in Hpm. subst pm.
  cbv beta iota zeta. intros [= <- <- <-]. simpl.
  split; [eexists; split; [apply lookup_insert_eq|done]|].
  unfold RiskService.batch_check. simpl.
  destruct Hst as [[Hpass Hnil]|(Hstatus & Hitems & Hclean)].
  - rewrite (bool_decide_eq_true_2 _ Hpass). simpl. rewrite Hnil.
    split; [discriminate|]. by left.
  - rewrite bool_decide_eq_false_2 by (destruct Hstatus as [-> | ->]; discriminate).
    split; [destruct Hstatus as [-> | ->]; discriminate|]. by right.
Qed.

Lemma unpriced_holds_unpriced :
  holds_unpriced Scenario.pid (working (connect Scenario.unpriced 1000 100)).
Proof. exists "000001", "SZSE". eexists. split; vm_compute; reflexivity. Qed.

(** The theorem on the store without bars for the held 000001 and a round
    lot of 600519. *)
Lemma price_missing_reported_on_pass_witness :
  ∃ rid p c',
    RiskService.check RiskRulesRepo.default_rules [Scenario.round_lot]
      (connect Scenario.unpriced 1000 100) = (Ok (rid, p), c')
    ∧ holds_unpriced Scenario.pid (working (connect Scenario.unpriced 1000 100))
    ∧ RiskService.p_status p ≠ "PASS"
    ∧ ((RiskService.p_status p = "WARN"
        ∧ RiskService.p_items p = [RiskService.PRICE_MISSING])
       ∨ (RiskService.p_items p ≠ []
          ∧ ¬ has_code PRICE_MISSING_CODE (RiskService.p_items p))).
Proof.
  destruct (RiskService.check RiskRulesRepo.default_rules [Scenario.round_lot]
              (connect Scenario.unpriced 1000 100)) as [[[rid p]|e] c'] eqn:Hrun;
    [|vm_compute in Hrun; discriminate Hrun].
  exists rid, p, c'. split; [reflexivity|].
  split; [exact unpriced_holds_unpriced|].
  exact (proj2 (price_missing_reported_on_pass RiskRulesRepo.default_rules
                  Scenario.round_lot [] _ rid p c' Hrun unpriced_holds_unpriced)).
Defined.

(** C4 as the specification words it fails when a per-draft check fails: for
    an odd lot the persisted items are [RISK_INVALID_QTY] alone, although
    the held 000001 has no latest close. *)
Lemma price_missing_always_reported_fails :
  ¬ price_missing_always_reported RiskRulesRepo.default_rules Scenario.odd_lot []
      (connect Scenario.unpriced 1000 100).
Proof.
  intros H.
  set (run := RiskService.check RiskRulesRepo.default_rules [Scenario.odd_lot]
                (connect Scenario.unpriced 1000 100)).
  specialize (H 100%N
                (match run.1 with
                 | Ok (_, p) => p
                 | Raise _ =>
                   {| RiskService.p_status := ""; RiskService.p_items := [];
                      RiskService.cash_before := 0; RiskService.cash_after_est := 0;
                      RiskService.total_equity_est := 0 |}
                 end)
                run.2).
  destruct H as (row & Hrow & Hcode).
  - vm_compute. reflexivity.
  - exact unpriced_holds_unpriced.
  - vm_compute in Hrow. injection Hrow as <-.
    unfold has_code in Hcode. apply Exists_exists in Hcode as (it & Hin & Hc).
    apply list_elem_of_singleton in Hin as ->. vm_compute in Hc. discriminate Hc.
Qed.

(** * Invariants along a request *)

Section Always.
Variable P : db → Prop.

Lemma always_commit c : always P c → always P (commit c).
Proof.
  intros (Hw & Hc & Hlog). repeat split; simpl; try done.
  apply Forall_app. split; [done|]. by constructor.
Qed.

Lemma always_rollback c : always P c → always P (rollback c).
Proof. intros (Hw & Hc & Hlog). by repeat split. Qed.

Lemma always_ret {A} (x : A) : stable (always P) (mret x).
Proof. by apply triple_ret. Qed.

Lemma always_raise {A} (e : exn) : stable (always P) (raise e : M A).
Proof. by apply triple_raise. Qed.

Lemma always_bind {A B} (m : M A) (k : A → M B) :
  stable (always P) m → (∀ x, stable (always P) (k x)) → stable (always P) (m ≫= k).
Proof. intros Hm Hk. by apply (triple_bind _ _ _ (λ _, always P)). Qed.

Lemma always_query {A} (g : db → A) : stable (always P) (query g).
Proof. by apply triple_query. Qed.

Lemma always_execute (g : db → db) :
  (∀ s, P s → P (g s)) → stable (always P) (execute g).
Proof.
  intros Hg. apply triple_execute. intros c (Hw & Hc & Hlog).
  repeat split; simpl; try done. by apply Hg.
Qed.

Lemma always_with_conn {A} (body : M A) :
  stable (always P) body → stable (always P) (with_conn body).
Proof.
  intros Hb. apply triple_with_conn.
  eapply triple_weaken; [apply Hb|done|..].
  - intros x c. apply always_commit.
  - apply always_rollback.
Qed.

Lemma always_uuid4 : stable (always P) uuid4.
Proof. by apply triple_uuid4. Qed.

Lemma always_now : stable (always P) now.
Proof. by apply triple_now. Qed.

Lemma always_for_each {A S} (body : S → A → M S) (xs : list A) s :
  (∀ s x, x ∈ xs → stable (always P) (body s x)) →
  stable (always P) (for_each body s xs).
Proof. intros Hbody. by apply (triple_for_each (λ _, always P)). Qed.

Lemma always_connect s t seed : P s → always P (connect s t seed).
Proof. intros Hs. repeat split; simpl; done. Qed.

Lemma always_observable {A} s (run : response A * conn) s' :
  P s → always P run.2 → s' ∈ observable s run → P s'.
Proof.
  intros Hs (_ & _ & Hlog) [->|Hin]%elem_of_cons; [done|].
  by eapply (proj1 (Forall_forall _ _)) in Hlog.
Qed.

Lemma always_except {A} (body : M A) (handler : string → M A) :
  stable (always P) body → (∀ msg, stable (always P) (handler msg)) →
  stable (always P) (except_ValueError body handler).
Proof.
  intros Hb Hh c Hc. specialize (Hb c Hc). unfold except_ValueError.
  destruct (body c) as [[x|[msg| |]] c1]; try done. by apply Hh.
Qed.

Lemma always_serve {A} (handler : M (response A)) s t seed :
  P s → stable (always P) handler → always P (serve handler s t seed).2.
Proof.
  intros Hs Hh. specialize (Hh _ (always_connect s t seed Hs)). unfold serve.
  destruct (handler _) as [[r|e] c1]; by apply always_rollback.
Qed.

Lemma always_get_many ids : stable (always P) (OrderDraftRepo.get_many ids).
Proof.
  unfold OrderDraftRepo.get_many. case_decide; [apply always_ret|apply always_query].
Qed.

Lemma always_get_cash pid : stable (always P) (PortfolioRepo.get_cash pid).
Proof.
  apply always_bind; [apply always_query|].
  intros [x|]; [apply always_ret|apply always_raise].
Qed.

Lemma always_log actor_ action_ et eid :
  (∀ g s, P s → P (set_audit_log (λ l, (l ++ [g])%list) s)) →
  stable (always P) (AuditLogger.log actor_ action_ et eid).
Proof.
  intros Ha. unfold AuditLogger.log.
  apply always_bind; [apply always_uuid4|]. intros aid.
  apply always_bind; [apply always_now|]. intros ts.
  apply always_bind; [|intros _; apply always_ret].
  apply always_with_conn, always_execute. intros s. apply Ha.
Qed.

(** Code that writes the trades and the positions only keeps what does not
    depend on them. *)
Hypothesis P_positions : ∀ g s, P s → P (set_positions g s).
Hypothesis P_trades : ∀ g s, P s → P (set_sim_trades g s).

Lemma always_apply_position pid sym exch side q fill fee_ slip :
  stable (always P) (SimService._apply_position pid sym exch side q fill fee_ slip).
Proof.
  unfold SimService._apply_position.
  apply always_bind; [apply always_query|]. intros pos. cbv zeta.
  repeat case_decide; try apply always_raise;
    apply always_with_conn, always_execute; intros s; apply P_positions.
Qed.

Lemma always_fill_leg cfg pid order ts acc d :
  stable (always P) (SimService.fill_leg cfg pid order ts acc d).
Proof.
  unfold SimService.fill_leg. cbv zeta.
  apply always_bind; [apply always_query|].
  intros [base|]; [|apply always_raise].
  apply always_bind; [apply always_uuid4|]. intros tid.
  apply always_bind; [apply always_execute; intros s; apply P_trades|]. intros _.
  apply always_bind; [apply always_apply_position|]. intros _. apply always_ret.
Qed.

(** [confirm] writes the order row and the cash last, and cannot raise any
    more once it has: when it raises, what depends on neither trades nor
    positions is as it was. *)
Lemma always_confirm_raise cfg pid drafts rid :
  triple (always P) (SimService.confirm cfg pid drafts rid) (λ _ _, True) (always P).
Proof.
  unfold SimService.confirm. case_decide; [by apply triple_raise|].
  apply (triple_bind _ _ _ (λ _, always P)); [apply always_query|].
  intros [status|]; [|by apply triple_raise].
  case_decide; [by apply triple_raise|].
  apply (triple_bind _ _ _ (λ _, always P)); [apply always_get_cash|]. intros cash0.
  apply (triple_bind _ _ _ (λ _, always P)); [apply always_uuid4|]. intros order.
  apply (triple_bind _ _ _ (λ _, always P)); [apply always_now|]. intros ts.
  apply (triple_bind _ _ _ (λ _ _, True)); [|intros acc; by apply triple_ret].
  apply triple_with_conn.
  apply (triple_bind _ _ _ (λ _, always P)).
  { eapply triple_weaken;
      [apply always_for_each; intros; apply always_fill_leg|done|done|].
    apply always_rollback. }
  intros acc c _. by unfold mbind, M_bind, execute, PortfolioRepo.set_cash, with_conn.
Qed.

End Always.

(** * [SimService.confirm] *)

(** What one leg does when it returns. *)
Lemma fill_leg_ok cfg pid order ts acc d c acc' c' :
  SimService.fill_leg cfg pid order ts acc d c = (Ok acc', c') →
  ∃ t, fills cfg (working c) pid order t d
       ∧ trade_id t = entropy c ∧ filled_at t = ts
       ∧ SimService.trades acc' = (SimService.trades acc ++ [t])%list
       ∧ sim_trades (working c') = (sim_trades (working c) ++ [t])%list
       ∧ SimService.cash acc' = cash_after (SimService.cash acc) t
       ∧ SimService.total_fee acc' = SimService.total_fee acc + fee t
       ∧ SimService.total_slip acc' = SimService.total_slip acc + slippage t
       ∧ SimService.filled_qty_total acc' = (SimService.filled_qty_total acc + d_qty d)%Z
       ∧ outside_ledger (working c') = outside_ledger (working c)
       ∧ cash_and_orders (working c') = cash_and_orders (working c)
       ∧ committed c' = working c'.
Proof.
  unfold SimService.fill_leg, _latest_close, query.
  unfold mbind, M_bind; simpl.
  destruct (latest_close_of (d_symbol d) (d_exchange d) (working c)) as [base|] eqn:Hbase;
    [|done].
  simpl. unfold SimService._apply_position, PortfolioRepo.get_position, query.
  unfold mbind, M_bind; simpl.
  intros Hrun.
  eexists {| trade_id := entropy c; t_order_id := order; t_portfolio_id := pid;
             filled_at := ts; t_symbol := d_symbol d; t_exchange := d_exchange d;
             t_side := d_side d; fill_price := from_option id base (d_price d);
             fill_qty := d_qty d;
             fee := from_option id base (d_price d) * Qc_of_int (d_qty d)
                    * SimService.fee_rate cfg;
             slippage := base * SimService.slippage_rate cfg * Qc_of_int (d_qty d) |}.
  split.
  { repeat split; simpl. by exists base. }
  unfold cash_after; simpl.
  destruct (decide (d_side d = "BUY")) as [Hside|Hside].
  - by injection Hrun as <- <-.
  - destruct (decide _) as [|Hge]; [done|].
    by destruct (decide _) as [|Hnz]; injection Hrun as <- <-.
Qed.

Lemma fills_bars cfg s s' pid order t d :
  bars_daily s' = bars_daily s → fills cfg s pid order t d → fills cfg s' pid order t d.
Proof.
  intros Hb (H1 & H2 & H3 & H4 & H5 & H6 & base & Hbase & Hrest).
  repeat (split; [done|]). exists base. split; [|done].
  revert Hbase. unfold latest_close_of, latest_bar. by rewrite Hb.
Qed.

(** What the loop over the drafts does when it returns. *)
Lemma loop_ok cfg pid order ts ds :
  ∀ acc c acc' c',
    for_each (SimService.fill_leg cfg pid order ts) acc ds c = (Ok acc', c') →
    ∃ new, Forall2 (fills cfg (working c) pid order) new ds
      ∧ SimService.trades acc' = (SimService.trades acc ++ new)%list
      ∧ sim_trades (working c') = (sim_trades (working c) ++ new)%list
      ∧ SimService.cash acc' = foldl cash_after (SimService.cash acc) new
      ∧ SimService.total_fee acc' = running_sum fee (SimService.total_fee acc) new
      ∧ SimService.total_slip acc' = running_sum slippage (SimService.total_slip acc) new
      ∧ SimService.filled_qty_total acc'
        = running_count d_qty (SimService.filled_qty_total acc) ds
      ∧ outside_ledger (working c') = outside_ledger (working c)
      ∧ cash_and_orders (working c') = cash_and_orders (working c).
Proof.
  induction ds as [|d ds IH]; intros acc c acc' c' Hrun.
  - injection Hrun as <- <-. exists []. rewrite !app_nil_r.
    by repeat split.
  - simpl in Hrun. unfold mbind, M_bind in Hrun.
    destruct (SimService.fill_leg cfg pid order ts acc d c) as [[acc1|e] c1] eqn:Hleg;
      [|done].
    destruct (fill_leg_ok _ _ _ _ _ _ _ _ _ Hleg)
      as (t & Hfills & _ & _ & Ht & Hst & Hc & Hf & Hs & Hq & Hout & Hco & _).
    destruct (IH _ _ _ _ Hrun)
      as (new & Hfills' & Ht' & Hst' & Hc' & Hf' & Hs' & Hq' & Hout' & Hco').
    exists (t :: new). split.
    { constructor; [done|]. eapply Forall2_impl; [exact Hfills'|].
      intros t' d'. apply fills_bars. by injection Hout. }
    rewrite Ht', Ht, Hst', Hst, Hc', Hc, Hf', Hf, Hs', Hs, Hq', Hq, Hout', Hco'.
    rewrite <-!app_assoc. by repeat split.
Qed.

(** What [confirm] has done when it returns. *)
Lemma confirm_ok cfg pid drafts rid s t seed r c' :
  SimService.confirm cfg pid drafts rid (connect s t seed) = (Ok r, c') →
  ∃ cash0 acc,
    portfolio_accounts s !! pid = Some cash0
    ∧ Forall2 (fills cfg s pid seed) (SimService.trades acc) drafts
    ∧ SimService.cash acc = foldl cash_after cash0 (SimService.trades acc)
    ∧ SimService.total_fee acc = running_sum fee 0 (SimService.trades acc)
    ∧ SimService.total_slip acc = running_sum slippage 0 (SimService.trades acc)
    ∧ SimService.filled_qty_total acc = running_count d_qty 0 drafts
    ∧ r = {| SimService.res_order_id := seed; SimService.res_status := "FILLED";
             SimService.res_filled_qty := SimService.filled_qty_total acc;
             SimService.res_avg_fill_price := SimService.avg_fill acc;
             SimService.res_fee_total := SimService.total_fee acc;
             SimService.res_slippage_total := SimService.total_slip acc;
             SimService.res_trades := SimService.trades acc;
             SimService.res_cash := SimService.cash acc |}
    ∧ committed c' = working c'
    ∧ sim_trades (committed c') = (sim_trades s ++ SimService.trades acc)%list
    ∧ sim_orders (committed c') = (sim_orders s ++ [order_of_receipt pid t drafts r])%list
    ∧ portfolio_accounts (committed c')
      = <[pid := SimService.cash acc]> (portfolio_accounts s)
    ∧ outside_ledger (committed c') = outside_ledger s.
Proof.
  unfold SimService.confirm. case_decide; [done|].
  unfold mbind, M_bind, query, PortfolioRepo.get_cash. simpl.
  destruct (r_status <$> risk_check_results s !! rid) as [status|]; [|done].
  case_decide; [done|].
  unfold mbind, M_bind, query. simpl.
  destruct (portfolio_accounts s !! pid) as [cash0|] eqn:Hacc; [|done].
  simpl. unfold with_conn, mbind, M_bind.
  change {| committed := s; working := s; commit_log := []; clock := t;
            entropy := N.succ seed |}
    with (connect s t (N.succ seed)).
  destruct (for_each _ _ _ _) as [[acc|e] c1] eqn:Hloop; [|done].
  destruct (loop_ok _ _ _ _ _ _ _ _ _ Hloop)
    as (new & Hfills & Ht & Hst & Hc & Hf & Hs & Hq & Hout & Hco).
  simpl in Ht, Hst, Hc, Hf, Hs, Hq, Hout, Hco.
  simpl. intros [= <- <-]. simpl.
  exists cash0, acc. rewrite Ht, Hst.
  repeat (split; [done|]).
  split.
  { unfold order_of_receipt. simpl. by injection Hco as _ ->. }
  split; [|done].
  injection Hco as -> _. apply map_eq. intros k.
  destruct (decide (k = pid)) as [->|Hne].
  - by rewrite lookup_alter_eq, lookup_insert_eq, Hacc.
  - by rewrite lookup_alter_ne, lookup_insert_ne.
Qed.



(** X2: when [confirm] returns, the trades of its receipt are, draft by
    draft, fills of the draft's quantity at its limit price, or at the latest
    close when it has none, with the fee charged on the fill value and the
    slippage on the latest close; and the receipt's cash is the cash of the
    account before the call, debited or credited trade by trade. *)
Theorem confirm_fills_at_order_prices cfg pid drafts rid s t seed r c' :
  SimService.confirm cfg pid drafts rid (connect s t seed) = (Ok r, c') →
  Forall2 (fills cfg s pid (SimService.res_order_id r)) (SimService.res_trades r) drafts
  ∧ ∃ cash0, portfolio_accounts s !! pid = Some cash0
             ∧ SimService.res_cash r = foldl cash_after cash0 (SimService.res_trades r).
Proof.
  intros Hrun.
  destruct (confirm_ok _ _ _ _ _ _ _ _ _ Hrun)
    as (cash0 & acc & Hcash0 & Hfills & Hc & _ & _ & _ & Hr & _).
  rewrite Hr. simpl. split; [done|]. by exists cash0.
Qed.

Lemma confirm_fills_at_order_prices_witness :
  ∃ r c',
    SimService.confirm SimService.default_config Scenario.pid
      (k_drafts Scenario.buy_call) 7 (connect Scenario.fresh_store 1000 100) = (Ok r, c')
    ∧ Forall2 (fills SimService.default_config Scenario.fresh_store Scenario.pid
                 (SimService.res_order_id r))
        (SimService.res_trades r) (k_drafts Scenario.buy_call)
    ∧ ∃ cash0, portfolio_accounts Scenario.fresh_store !! Scenario.pid = Some cash0
               ∧ SimService.res_cash r = foldl cash_after cash0 (SimService.res_trades r).
Proof.
  destruct (SimService.confirm SimService.default_config Scenario.pid
              (k_drafts Scenario.buy_call) 7 (connect Scenario.fresh_store 1000 100))
    as [[r|e] c'] eqn:Hrun; [|vm_compute in Hrun; discriminate Hrun].
  exists r, c'. split; [reflexivity|].
  exact (confirm_fills_at_order_prices _ _ _ _ _ _ _ _ _ Hrun).
Defined.

(** ** A batch of one draft *)

Lemma fill_leg_raise cfg pid order ts acc d c e c1 :
  SimService.fill_leg cfg pid order ts acc d c = (Raise e, c1) →
  committed c1 = committed c ∧ commit_log c1 = commit_log c.
Proof.
  unfold SimService.fill_leg, _latest_close, query.
  unfold mbind, M_bind; simpl.
  destruct (latest_close_of (d_symbol d) (d_exchange d) (working c)) as [base|];
    [|by intros [= _ <-]].
  simpl. unfold SimService._apply_position, PortfolioRepo.get_position, query.
  unfold mbind, M_bind; simpl.
  destruct (decide (d_side d = "BUY")); [done|].
  destruct (decide _); [by intros [= _ <-]|].
  by destruct (decide _).
Qed.

(** X3: a [confirm] of a single draft is all or nothing: when it raises, the
    connection has committed nothing and reads the store as it was. *)
Theorem confirm_single_leg_atomic cfg pid d rid s t seed e c' :
  SimService.confirm cfg pid [d] rid (connect s t seed) = (Raise e, c') →
  committed c' = s ∧ working c' = s ∧ commit_log c' = [].
Proof.
  unfold SimService.confirm. rewrite decide_False by done.
  unfold mbind, M_bind, query, PortfolioRepo.get_cash. simpl.
  destruct (r_status <$> risk_check_results s !! rid) as [status|];
    [|by intros [= _ <-]].
  case_decide; [by intros [= _ <-]|].
  unfold mbind, M_bind, query. simpl.
  destruct (portfolio_accounts s !! pid) as [cash0|]; [|by intros [= _ <-]].
  simpl. unfold with_conn, mbind, M_bind.
  destruct (SimService.fill_leg _ _ _ _ _ _ _) as [[acc|e1] c1] eqn:Hleg; [done|].
  destruct (fill_leg_raise _ _ _ _ _ _ _ _ _ Hleg) as [Hcom Hlog].
  intros [= _ <-]. simpl. by rewrite Hcom, Hlog.
Qed.

(** The theorem on a SELL of shares the cash-only portfolio does not hold. *)
Lemma confirm_single_leg_atomic_witness :
  ∃ e c',
    SimService.confirm SimService.default_config Scenario.pid
      (k_drafts Scenario.sell_call) 7 (connect Scenario.fresh_store 1000 100)
    = (Raise e, c')
    ∧ committed c' = Scenario.fresh_store ∧ working c' = Scenario.fresh_store
    ∧ commit_log c' = [].
Proof.
  destruct (SimService.confirm SimService.default_config Scenario.pid
              (k_drafts Scenario.sell_call) 7 (connect Scenario.fresh_store 1000 100))
    as [[r|e] c'] eqn:Hrun; [vm_compute in Hrun; discriminate Hrun|].
  exists e, c'. split; [reflexivity|].
  exact (confirm_single_leg_atomic _ _ _ _ _ _ _ _ _ Hrun).
Defined.

(** ** A request that is not answered [ok] *)

(** The tables a failed [sim.confirm] request leaves alone: all but the
    trades and the positions. *)
Lemma triple_except {A} (P E : conn → Prop) (body : M A) (handler : string → M A)
    (Q : A → conn → Prop) :
  triple P body Q E → (∀ msg, triple E (handler msg) Q E) →
  triple P (except_ValueError body handler) Q E.
Proof.
  intros Hb Hh c Hc. specialize (Hb c Hc). unfold except_ValueError.
  destruct (body c) as [[x|[msg| |]] c1]; try done. by apply Hh.
Qed.

Lemma sim_confirm_not_ok cfg body (P : db → Prop) :
  (∀ g s, P s → P (set_positions g s)) →
  (∀ g s, P s → P (set_sim_trades g s)) →
  triple (always P) (Api.sim_confirm cfg body)
    (λ resp c, (∀ r, resp ≠ api_ok r) → always P c) (always P).
Proof.
  intros Hpos Htr. unfold Api.sim_confirm.
  destruct (Api.body_riskcheck_id body) as [rid|]; [|by apply triple_ret].
  apply triple_except; [|intros msg; by apply triple_ret].
  apply (triple_bind _ _ _ (λ _, always P)); [apply always_get_many|].
  intros [|d0 drafts]; [by apply triple_ret|].
  destruct (existsb _ _); [by apply triple_ret|].
  apply (triple_bind _ _ _ (λ _ _, True));
    [by apply always_confirm_raise|].
  intros result c1 _.
  unfold AuditLogger.log, mbind, M_bind, uuid4, now, with_conn, execute. simpl.
  intros Hno. by destruct (Hno result).
Qed.

(** X4: a [sim.confirm] request that is not answered [ok] has changed
    neither the cash, nor the order rows, nor any table outside the ledger
    (the audit log among them) in any state a reader can observe: only
    trades and positions can differ. *)
Theorem sim_confirm_error_keeps_books cfg body s t seed s' :
  (∀ r, (serve (Api.sim_confirm cfg body) s t seed).1 ≠ api_ok r) →
  s' ∈ observable s (serve (Api.sim_confirm cfg body) s t seed) →
  cash_and_orders s' = cash_and_orders s ∧ outside_ledger s' = outside_ledger s.
Proof.
  intros Hno Hin.
  set (P := λ x : db, cash_and_orders x = cash_and_orders s
                      ∧ outside_ledger x = outside_ledger s).
  apply (always_observable P s (serve (Api.sim_confirm cfg body) s t seed) s');
    [done| |done].
  pose proof (sim_confirm_not_ok cfg body P (λ _ _ H, H) (λ _ _ H, H)
                (connect s t seed) (always_connect P s t seed (conj eq_refl eq_refl)))
    as Hrun.
  revert Hno. unfold serve.
  destruct (Api.sim_confirm cfg body (connect s t seed)) as [[resp|e] c1]; simpl.
  - intros Hno. apply always_rollback. by apply Hrun.
  - intros _. by apply always_rollback.
Qed.

(** The theorem on the batch that fails at its second leg: the state in
    which the first leg is committed has the cash and the orders of the
    initial store. *)
Lemma sim_confirm_error_keeps_books_witness :
  ∃ s',
    s' ∈ observable Scenario.sold
           (serve (Api.sim_confirm SimService.default_config Scenario.confirm_body)
              Scenario.sold 1030 130)
    ∧ sim_trades s' ≠ sim_trades Scenario.sold
    ∧ cash_and_orders s' = cash_and_orders Scenario.sold
    ∧ outside_ledger s' = outside_ledger Scenario.sold.
Proof.
  set (run := serve (Api.sim_confirm SimService.default_config Scenario.confirm_body)
                Scenario.sold 1030 130).
  exists (default empty_db (observable Scenario.sold run !! 1%nat)).
  assert (Hin : default empty_db (observable Scenario.sold run !! 1%nat)
                ∈ observable Scenario.sold run).
  { apply (list_elem_of_lookup_2 _ 1%nat). vm_compute. reflexivity. }
  split; [exact Hin|]. split.
  { intros H. apply (f_equal length) in H. vm_compute in H. discriminate H. }
  apply (sim_confirm_error_keeps_books SimService.default_config Scenario.confirm_body
           Scenario.sold 1030 130); [|exact Hin].
  intros r H. vm_compute in H. discriminate H.
Defined.

(** ** Quantities held *)

Lemma positive_insert (s : db) k p :
  (0 < qty p)%Z → positions_positive s →
  positions_positive (set_positions (<[k := p]>) s).
Proof.
  intros Hp Hs k' p'. simpl. rewrite lookup_insert.
  case_decide; [by intros [= <-]|apply Hs].
Qed.

Lemma positive_delete (s : db) k :
  positions_positive s → positions_positive (set_positions (delete k) s).
Proof. intros Hs k' p'. simpl. rewrite lookup_delete_Some. intros [_ H]. by eapply Hs. Qed.

Lemma positive_fill_leg cfg pid order ts acc d :
  (d_side d = "BUY" → 0 < d_qty d)%Z →
  stable (always positions_positive) (SimService.fill_leg cfg pid order ts acc d).
Proof.
  intros Hq. unfold SimService.fill_leg. cbv zeta.
  apply always_bind; [apply always_query|].
  intros [base|]; [|apply always_raise].
  apply always_bind; [apply always_uuid4|]. intros tid.
  apply always_bind; [by apply always_execute|]. intros _.
  apply always_bind; [|intros _; apply always_ret].
  intros c Hc. unfold SimService._apply_position.
  unfold mbind at 1, M_bind at 1, PortfolioRepo.get_position, query. cbv zeta.
  assert (Hold : (0 ≤ from_option qty 0
                        (positions (working c) !! (pid, d_symbol d, d_exchange d)))%Z).
  { destruct (positions (working c) !! _) as [p0|] eqn:Hk; simpl; [|done].
    pose proof (proj1 Hc _ _ Hk). lia. }
  destruct (decide (d_side d = "BUY")) as [Hside|Hside].
  - assert (Hnew : (0 < from_option qty 0
                         (positions (working c) !! (pid, d_symbol d, d_exchange d))
                       + d_qty d)%Z) by (specialize (Hq Hside); lia).
    apply (always_with_conn _ _ (always_execute _ _
             (λ s Hs, positive_insert s _ {| qty := _; avg_cost := _ |} Hnew Hs)) c Hc).
  - destruct (decide _) as [|Hge]; [done|].
    destruct (decide _) as [|Hnz].
    + apply (always_with_conn _ _ (always_execute _ _
               (λ s Hs, positive_delete s _ Hs)) c Hc).
    + assert (Hnew : (0 < from_option qty 0
                           (positions (working c) !! (pid, d_symbol d, d_exchange d))
                         - d_qty d)%Z) by lia.
      apply (always_with_conn _ _ (always_execute _ _
               (λ s Hs, positive_insert s _ {| qty := _; avg_cost := _ |} Hnew Hs)) c Hc).
Qed.

(** X5: [confirm] never leaves a position row with a quantity of zero or
    below: when every row holds a positive quantity and every BUY draft has a
    positive quantity, so does every row of every state the call commits,
    whether it returns or raises. *)
Theorem confirm_keeps_positions_positive cfg pid drafts rid s t seed :
  positions_positive s →
  Forall (λ d, d_side d = "BUY" → (0 < d_qty d)%Z) drafts →
  always positions_positive
    (SimService.confirm cfg pid drafts rid (connect s t seed)).2.
Proof.
  intros Hs Hq.
  assert (Hst : stable (always positions_positive)
                  (SimService.confirm cfg pid drafts rid)).
  { unfold SimService.confirm. case_decide; [apply always_raise|].
    apply always_bind; [apply always_query|].
    intros [status|]; [|apply always_raise].
    case_decide; [apply always_raise|].
    apply always_bind; [apply always_get_cash|]. intros cash0.
    apply always_bind; [apply always_uuid4|]. intros order.
    apply always_bind; [apply always_now|]. intros ts.
    apply always_bind; [|intros acc; apply always_ret].
    apply always_with_conn.
    apply always_bind.
    { apply always_for_each. intros acc d Hd. apply positive_fill_leg.
      by eapply (proj1 (Forall_forall _ _)) in Hq. }
    intros acc.
    apply always_bind; [by apply always_execute|]. intros _.
    apply always_bind; [|intros _; apply always_ret].
    by apply always_with_conn, always_execute. }
  specialize (Hst _ (always_connect _ s t seed Hs)).
  by destruct (SimService.confirm _ _ _ _ _) as [[r|e] c'].
Qed.

Lemma store_positions_positive : positions_positive Scenario.store.
Proof.
  intros k p. unfold Scenario.store. cbn [positions].
  rewrite lookup_singleton_Some. by intros [_ <-].
Qed.

(** The theorem on the two-leg batch of the scenario. *)
Lemma confirm_keeps_positions_positive_witness :
  always positions_positive
    (SimService.confirm SimService.default_config Scenario.pid
       [Scenario.buy_600519; Scenario.sell_000001] 100
       (connect Scenario.store 1000 100)).2.
Proof.
  apply confirm_keeps_positions_positive.
  - exact store_positions_positive.
  - repeat constructor.
Defined.

(** * Code that only reads *)

Lemma read_only_ret {A} (a : A) : read_only (mret a).
Proof. done. Qed.

Lemma read_only_raise {A} (e : exn) : read_only (raise e : M A).
Proof. done. Qed.

Lemma read_only_bind {A B} (m : M A) (k : A → M B) :
  read_only m → (∀ a, read_only (k a)) → read_only (m ≫= k).
Proof.
  intros Hm Hk c. specialize (Hm c). unfold mbind, M_bind.
  destruct (m c) as [[a|e] c1]; simpl in *; subst; [apply Hk|done].
Qed.

Lemma read_only_query {A} (f : db → A) : read_only (query f).
Proof. done. Qed.

Lemma read_only_now : read_only now.
Proof. done. Qed.

Lemma read_only_py_div x y : read_only (py_div x y).
Proof. unfold py_div. by case_decide. Qed.

Lemma read_only_for_each {A S} (body : S → A → M S) (xs : list A) :
  (∀ s x, read_only (body s x)) → ∀ s, read_only (for_each body s xs).
Proof.
  intros Hbody. induction xs as [|x xs IH]; intros s; simpl; [done|].
  by apply read_only_bind.
Qed.

Lemma read_only_run {A} (m : M A) c : read_only m → m c = ((m c).1, c).
Proof. intros H. specialize (H c). destruct (m c) as [x c1]. simpl in *. by subst. Qed.

Ltac read_only_step :=
  first [ apply read_only_ret | apply read_only_raise | apply read_only_query
        | apply read_only_now | apply read_only_py_div ].

Ltac read_only_steps :=
  repeat first [ read_only_step | case_decide
               | apply read_only_bind; [|intros ?] ].

Lemma read_only_get_cash pid : read_only (PortfolioRepo.get_cash pid).
Proof.
  unfold PortfolioRepo.get_cash. apply read_only_bind; [read_only_step|].
  intros [x|]; read_only_step.
Qed.

Lemma read_only_get_many ids : read_only (OrderDraftRepo.get_many ids).
Proof. unfold OrderDraftRepo.get_many. read_only_steps. Qed.

Lemma read_only_check_max_orders_per_day r pid :
  read_only (RiskRulesRepo.check_max_orders_per_day r pid).
Proof. unfold RiskRulesRepo.check_max_orders_per_day. read_only_steps. Qed.

Lemma read_only_check_order_frequency r pid sym exch :
  read_only (RiskRulesRepo.check_order_frequency r pid sym exch).
Proof.
  unfold RiskRulesRepo.check_order_frequency, RiskRulesRepo.get_last_order_time.
  apply read_only_bind; [read_only_step|]. intros [last|]; read_only_steps.
Qed.

Lemma read_only_check_daily_trading_value r pid v :
  read_only (RiskRulesRepo.check_daily_trading_value r pid v).
Proof. unfold RiskRulesRepo.check_daily_trading_value. read_only_steps. Qed.

Lemma read_only_check_price_limit sym exch side latest :
  read_only (RiskRulesRepo.check_price_limit sym exch side latest).
Proof.
  unfold RiskRulesRepo.check_price_limit.
  destruct latest as [lp|]; [|read_only_step]. case_decide; [read_only_step|].
  apply read_only_bind; [read_only_step|]. intros [b|]; [|read_only_step].
  destruct (b_close b), (b_pre_close b); try read_only_step.
  read_only_steps.
Qed.

Lemma read_only_check_draft r pid te st d :
  read_only (RiskService.check_draft r pid te st d).
Proof.
  unfold RiskService.check_draft. cbv zeta.
  case_decide; [read_only_step|]. case_decide; [read_only_step|].
  case_decide; [read_only_step|].
  apply read_only_bind; [apply read_only_query|]. intros [px|]; [|read_only_step].
  apply read_only_bind.
  { destruct (d_price d); read_only_steps. }
  intros st1. apply read_only_bind.
  { case_decide; [|read_only_step].
    apply read_only_bind; [apply read_only_check_order_frequency|intros; read_only_step]. }
  intros st2. apply read_only_bind; [apply read_only_check_price_limit|].
  intros o. apply read_only_bind.
  { case_decide; [|read_only_step].
    apply read_only_bind;
      [apply read_only_check_daily_trading_value|intros; read_only_step]. }
  intros st3. read_only_steps.
Qed.

Lemma read_only_draft_checks r pid drafts :
  read_only (RiskService.draft_checks r pid drafts).
Proof.
  unfold RiskService.draft_checks.
  apply read_only_bind; [apply read_only_get_cash|]. intros cash.
  apply read_only_bind; [apply read_only_query|]. intros held.
  apply read_only_bind; [apply read_only_check_max_orders_per_day|]. intros o.
  apply read_only_bind; [apply read_only_query|]. intros [mv pm].
  apply read_only_bind; [|intros; read_only_step].
  apply read_only_for_each. intros; apply read_only_check_draft.
Qed.

(** * [RiskService.check] *)


(** ** The verdict *)

Lemma verdict_fail its : verdict its = "FAIL" ↔ Exists is_fail its.
Proof.
  unfold verdict. destruct (decide (Exists is_fail its)) as [H|H]; [done|].
  split; [by case_decide|done].
Qed.

Lemma verdict_pass its : verdict its = "PASS" → its = [].
Proof. unfold verdict. by repeat case_decide. Qed.

Lemma verdict_snoc_fail its it : level it = "FAIL" → verdict (its ++ [it]) = "FAIL".
Proof. intros H. apply verdict_fail, Exists_app. right. by constructor. Qed.

Lemma verdict_snoc_warn its it :
  level it = "WARN" →
  verdict (its ++ [it]) = if decide (verdict its = "FAIL") then "FAIL" else "WARN".
Proof.
  intros H. case_decide as Hv.
  - apply verdict_fail, Exists_app. left. by apply verdict_fail.
  - unfold verdict at 1. rewrite decide_False.
    + rewrite decide_False; [done|]. by destruct its.
    + rewrite Exists_app, Exists_cons, Exists_nil. unfold is_fail at 2.
      rewrite H, <-verdict_fail. intros [?|[?|[]]]; done.
Qed.

Lemma graded_fail st it :
  graded st → level it = "FAIL" → graded (RiskService.fail it st).
Proof.
  intros [Hs Hl] Hit. split; simpl.
  - by rewrite verdict_snoc_fail.
  - apply Forall_app. split; [done|]. constructor; [by right|done].
Qed.

Lemma graded_warn st it :
  graded st → level it = "WARN" → graded (RiskService.warn it st).
Proof.
  intros [Hs Hl] Hit. split; simpl.
  - rewrite verdict_snoc_warn by done. rewrite <-Hs.
    by destruct (decide (RiskService.status st = "FAIL")) as [->|].
  - apply Forall_app. split; [done|]. constructor; [by left|done].
Qed.

Lemma graded_flag st it :
  graded st → level it = "WARN" → graded (RiskService.flag it st).
Proof.
  intros [Hs Hl] Hit. split; simpl.
  - rewrite verdict_snoc_warn by done. rewrite <-Hs.
    by destruct (decide (RiskService.status st = "FAIL")) as [->|].
  - apply Forall_app. split; [done|]. constructor; [by left|done].
Qed.

(** ** The levels of the rule checks *)

Lemma check_max_orders_per_day_warns r pid :
  returns (RiskRulesRepo.check_max_orders_per_day r pid) warns.
Proof.
  intros c _. unfold RiskRulesRepo.check_max_orders_per_day, mbind, M_bind, now, query.
  by case_decide.
Qed.

Lemma check_order_frequency_warns r pid sym exch :
  returns (RiskRulesRepo.check_order_frequency r pid sym exch) warns.
Proof.
  intros c _.
  unfold RiskRulesRepo.check_order_frequency, RiskRulesRepo.get_last_order_time,
    mbind, M_bind, now, query.
  destruct (filled_at <$> _) as [|t0 ts]; simpl; [done|]. by case_decide.
Qed.

Lemma check_daily_trading_value_warns r pid v :
  returns (RiskRulesRepo.check_daily_trading_value r pid v) warns.
Proof.
  intros c _. unfold RiskRulesRepo.check_daily_trading_value, mbind, M_bind, now, query.
  by case_decide.
Qed.

(** ** What every iteration keeps *)

Section Keeps.
Variable I : RiskService.sim_state → Prop.
Hypothesis I_fail : ∀ st it, I st → level it = "FAIL" → I (RiskService.fail it st).
Hypothesis I_warn : ∀ st it, I st → level it = "WARN" → I (RiskService.warn it st).
Hypothesis I_flag : ∀ st it, I st → level it = "WARN" → I (RiskService.flag it st).
Hypothesis I_trade : ∀ st cash' k q, I st → I (RiskService.trade st cash' k q).

Lemma keeps_flag_limit st o :
  I st → from_option per_draft_item True o →
  I (RiskService.note o RiskService.flag_limit st).
Proof.
  intros Hst Ho. destruct o as [it|]; simpl; [|done].
  unfold RiskService.flag_limit. case_decide; [by apply I_fail|].
  apply I_warn; [done|]. destruct Ho as [_ [?|?]]; done.
Qed.

Lemma check_draft_keeps r pid te st d :
  I st → returns (RiskService.check_draft r pid te st d) I.
Proof.
  intros Hst. unfold RiskService.check_draft. cbv zeta.
  case_decide; [by apply returns_ret, I_fail|].
  case_decide; [apply returns_raise|].
  case_decide; [by apply returns_ret, I_fail|].
  eapply returns_bind; [apply returns_any|]. intros [latest_px|] _;
    [|by apply returns_ret, I_fail].
  eapply (returns_bind _ _ I).
  { destruct (d_price d) as [lp|]; [|by apply returns_ret].
    eapply returns_bind; [apply returns_any|]. intros dev _.
    case_decide; apply returns_ret; [by apply I_warn|done]. }
  intros st1 Hst1.
  eapply (returns_bind _ _ I).
  { case_decide; [|by apply returns_ret].
    eapply returns_bind; [apply check_order_frequency_warns|]. intros [it|] Ho;
      apply returns_ret; [by apply I_flag|done]. }
  intros st2 Hst2.
  eapply returns_bind; [apply check_price_limit_item|]. intros o Ho.
  pose proof (keeps_flag_limit st2 o Hst2 Ho) as Hst3.
  eapply (returns_bind _ _ I).
  { case_decide; [|by apply returns_ret].
    eapply returns_bind; [apply check_daily_trading_value_warns|]. intros [it|] Ho';
      apply returns_ret; [by apply I_warn|done]. }
  intros st4 Hst4.
  set (st5 := if decide (_ < RiskRulesRepo.min_order_value r) then _ else st4).
  assert (Hst5 : I st5) by (unfold st5; case_decide; [by apply I_warn|done]).
  set (st6 := if decide (RiskRulesRepo.max_order_value r < _) then _ else st5).
  assert (Hst6 : I st6) by (unfold st6; case_decide; [by apply I_warn|done]).
  clearbody st5 st6.
  repeat case_decide; apply returns_ret;
    first [ apply I_fail; [first [done|by apply I_trade]|done]
          | by apply I_trade | done ].
Qed.

End Keeps.

Lemma check_draft_graded r pid te st d :
  graded st → returns (RiskService.check_draft r pid te st d) graded.
Proof.
  apply check_draft_keeps;
    [apply graded_fail|apply graded_warn|apply graded_flag|done].
Qed.

Lemma draft_checks_graded r pid drafts :
  returns (RiskService.draft_checks r pid drafts) (λ x, graded x.2).
Proof.
  unfold RiskService.draft_checks.
  eapply returns_bind; [apply returns_any|]. intros cash _.
  eapply returns_bind; [apply returns_any|]. intros held _.
  eapply returns_bind; [apply check_max_orders_per_day_warns|]. intros o Ho.
  eapply returns_bind; [apply returns_any|]. intros [mv pm] _.
  eapply (returns_bind _ _ graded); [|intros st Hst; by apply returns_ret].
  apply returns_for_each; [intros; by apply check_draft_graded|].
  destruct o as [it|]; simpl; [|by split].
  apply graded_warn; [by split|done].
Qed.

Lemma graded_batch_check pm st : graded st → graded (RiskService.batch_check pm st).
Proof.
  intros [Hs Hl]. unfold RiskService.batch_check.
  destruct pm; simpl; [|done]. case_bool_decide as Hpass; [|done].
  rewrite Hpass in Hs. symmetry in Hs. apply verdict_pass in Hs.
  rewrite Hs. split; simpl; [done|]. by repeat constructor.
Qed.

(** What [check] returns, in terms of the loop's result. *)
Lemma check_ok r drafts c rid p c' :
  RiskService.check r drafts c = (Ok (rid, p), c') →
  ∃ d0 ds cash te pm st,
    drafts = d0 :: ds
    ∧ RiskService.draft_checks r (d_portfolio_id d0) drafts c = (Ok (cash, te, pm, st), c)
    ∧ RiskService.p_status p = RiskService.status (RiskService.batch_check pm st)
    ∧ RiskService.p_items p = RiskService.items (RiskService.batch_check pm st)
    ∧ risk_check_results (committed c') !! rid = Some (row_of_payload (clock c) drafts p).
Proof.
  unfold RiskService.check. destruct drafts as [|d0 ds]; [done|].
  destruct (existsb _ _); [done|].
  rewrite bind_run.
  pose proof (read_only_run _ c (read_only_draft_checks r (d_portfolio_id d0) (d0 :: ds)))
    as Hro.
  destruct (RiskService.draft_checks _ _ _ c) as [[[[[cash te] pm] st]|e] c1] eqn:Hdc;
    [|done].
  simpl in Hro. injection Hro as ->.
  cbv beta iota zeta. intros [= <- <- <-]. simpl.
  exists d0, ds, cash, te, pm, st. repeat split; [done|]. apply lookup_insert_eq.
Qed.

(** X7: the status of a risk check is the verdict of its items: FAIL when
    an item is a FAIL, else WARN when there is an item, else PASS; every item
    is a WARN or a FAIL, and the persisted row carries the same status and
    items. *)
Theorem check_status_is_verdict r drafts c rid p c' :
  RiskService.check r drafts c = (Ok (rid, p), c') →
  RiskService.p_status p = verdict (RiskService.p_items p)
  ∧ Forall (λ it, level it = "WARN" ∨ level it = "FAIL") (RiskService.p_items p)
  ∧ ∃ row, risk_check_results (committed c') !! rid = Some row
           ∧ r_status row = RiskService.p_status p
           ∧ r_items row = RiskService.p_items p.
Proof.
  intros Hrun.
  destruct (check_ok _ _ _ _ _ _ Hrun)
    as (d0 & ds & cash & te & pm & st & -> & Hdc & Hs & Hi & Hrow).
  pose proof (draft_checks_graded r (d_portfolio_id d0) (d0 :: ds) c I) as Hg.
  rewrite Hdc in Hg. simpl in Hg.
  destruct (graded_batch_check pm st Hg) as [Hv Hl].
  rewrite Hs, Hi. split; [done|]. split; [done|].
  eexists. split; [exact Hrow|]. simpl. by rewrite Hs, Hi.
Qed.

(** The theorem on the odd lot of the scenario. *)
Lemma check_status_is_verdict_witness :
  ∃ rid p c',
    RiskService.check RiskRulesRepo.default_rules [Scenario.odd_lot]
      (connect Scenario.unpriced 1000 100) = (Ok (rid, p), c')
    ∧ RiskService.p_status p = verdict (RiskService.p_items p).
Proof.
  destruct (RiskService.check RiskRulesRepo.default_rules [Scenario.odd_lot]
              (connect Scenario.unpriced 1000 100)) as [[[rid p]|e] c'] eqn:Hrun;
    [|vm_compute in Hrun; discriminate Hrun].
  exists rid, p, c'. split; [reflexivity|].
  exact (proj1 (check_status_is_verdict _ _ _ _ _ _ Hrun)).
Defined.

(** ** Drafts the engine rejects *)

Lemma returns_at_of_returns {A} c (m : M A) Q : returns m Q → returns_at c m Q.
Proof. intros H. exact (H c I). Qed.

Lemma returns_at_bind {A B} c (m : M A) (k : A → M B) (R : A → Prop) (Q : B → Prop) :
  read_only m → returns_at c m R → (∀ a, R a → returns_at c (k a) Q) →
  returns_at c (m ≫= k) Q.
Proof.
  intros Hro Hm Hk. unfold returns_at in *. rewrite bind_run. specialize (Hro c).
  destruct (m c) as [[a|e] c1]; simpl in Hro; subst c1; [by apply Hk|done].
Qed.

Lemma returns_at_any {A} c (m : M A) : returns_at c m (λ _, True).
Proof. unfold returns_at. by destruct (m c) as [[a|e] c1]. Qed.

Section Reaches.
Context {A S : Type} (c : conn) (body : S → A → M S) (I : S → Prop).
Hypothesis body_reads : ∀ s x, read_only (body s x).
Hypothesis body_keeps : ∀ s x, I s → returns_at c (body s x) I.

Lemma for_each_keeps_at xs : ∀ s, I s → returns_at c (for_each body s xs) I.
Proof.
  induction xs as [|x xs IH]; intros s Hs; simpl; [done|].
  eapply returns_at_bind; [apply body_reads|by apply body_keeps|apply IH].
Qed.

Lemma for_each_reaches d xs :
  (∀ s, returns_at c (body s d) I) → d ∈ xs →
  ∀ s, returns_at c (for_each body s xs) I.
Proof.
  intros Hd. induction xs as [|x xs IH]; intros Hin s; [by apply elem_of_nil in Hin|].
  simpl. apply elem_of_cons in Hin as [<-|Hin].
  - eapply returns_at_bind; [apply body_reads|apply Hd|apply for_each_keeps_at].
  - eapply (returns_at_bind _ _ _ (λ _, True));
      [apply body_reads|apply returns_at_any|intros; by apply IH].
Qed.

End Reaches.

Lemma rejects_snoc c d its it : rejects c d its → rejects c d (its ++ [it]).
Proof. intros H. apply Exists_app. by left. Qed.

Lemma check_draft_rejects_keeps code_ d0 r pid te st d :
  rejects code_ d0 (RiskService.items st) →
  returns (RiskService.check_draft r pid te st d)
    (λ st', rejects code_ d0 (RiskService.items st')).
Proof.
  apply (check_draft_keeps (λ st, rejects code_ d0 (RiskService.items st)));
    try (intros; by apply rejects_snoc). done.
Qed.

Lemma check_draft_invalid_qty c r pid te st d :
  invalid_qty r d →
  returns_at c (RiskService.check_draft r pid te st d)
    (λ st', rejects "RISK_INVALID_QTY" d (RiskService.items st')).
Proof.
  intros Hbad. unfold returns_at, RiskService.check_draft. cbv zeta.
  assert (Hnew : ∀ its, rejects "RISK_INVALID_QTY" d
            (its ++ [RiskRulesRepo.mk_item "RISK_INVALID_QTY" "FAIL" (Some (draft_id d))])).
  { intros its. apply Exists_app. right. by constructor. }
  case_decide; [apply Hnew|]. case_decide; [done|].
  case_decide; [apply Hnew|]. by destruct Hbad.
Qed.


Lemma draft_checks_rejects c code_ d r pid drafts :
  d ∈ drafts →
  (∀ te st, returns_at c (RiskService.check_draft r pid te st d)
              (λ st', rejects code_ d (RiskService.items st'))) →
  returns_at c (RiskService.draft_checks r pid drafts)
    (λ x, rejects code_ d (RiskService.items x.2)).
Proof.
  intros Hin Hd. unfold RiskService.draft_checks.
  eapply (returns_at_bind _ _ _ (λ _, True));
    [apply read_only_get_cash|apply returns_at_any|intros cash _].
  eapply (returns_at_bind _ _ _ (λ _, True));
    [apply read_only_query|apply returns_at_any|intros held _].
  eapply (returns_at_bind _ _ _ (λ _, True));
    [apply read_only_check_max_orders_per_day|apply returns_at_any|intros o _].
  eapply (returns_at_bind _ _ _ (λ _, True));
    [apply read_only_query|apply returns_at_any|].
  intros [mv pm] _.
  eapply (returns_at_bind _ _ _ (λ st, rejects code_ d (RiskService.items st)));
    [|  |by intros st Hst].
  - apply read_only_for_each. intros. apply read_only_check_draft.
  - apply (for_each_reaches _ _ _ (λ _ _, read_only_check_draft _ _ _ _ _)) with (d := d);
      [|intros s; apply Hd|done].
    intros s x Hs. by apply returns_at_of_returns, check_draft_rejects_keeps.
Qed.

Lemma check_rejects code_ d r drafts c rid p c' :
  RiskService.check r drafts c = (Ok (rid, p), c') → d ∈ drafts →
  (∀ pid te st, returns_at c (RiskService.check_draft r pid te st d)
                  (λ st', rejects code_ d (RiskService.items st'))) →
  RiskService.p_status p = "FAIL" ∧ rejects code_ d (RiskService.p_items p).
Proof.
  intros Hrun Hin Hd.
  destruct (check_ok _ _ _ _ _ _ Hrun)
    as (d0 & ds & cash & te & pm & st & -> & Hdc & Hs & Hi & _).
  pose proof (draft_checks_graded r (d_portfolio_id d0) (d0 :: ds) c I) as Hg.
  pose proof (draft_checks_rejects c code_ d r (d_portfolio_id d0) (d0 :: ds) Hin
                (Hd (d_portfolio_id d0))) as Hrej.
  unfold returns_at in Hrej. rewrite Hdc in Hg, Hrej. simpl in Hg, Hrej.
  assert (Hfail : RiskService.status st = "FAIL").
  { rewrite (proj1 Hg). apply verdict_fail.
    eapply Exists_impl; [exact Hrej|]. by intros it (_ & ? & _). }
  assert (Hbatch : RiskService.batch_check pm st = st).
  { unfold RiskService.batch_check. rewrite Hfail.
    by rewrite bool_decide_eq_false_2, andb_false_r. }
  by rewrite Hs, Hi, Hbatch.
Qed.



(** * From the risk check to the fill *)

(** X9: a risk check that failed can never be used to fill anything: once
    [check] has returned the status FAIL under an identifier, [confirm] under
    that identifier raises "risk check failed", for any portfolio and any
    drafts, on any connection that reads the committed row, and it leaves that
    connection as it was. *)
Theorem failed_check_blocks_confirm r drafts c rid p c' cfg pid ds c2 :
  RiskService.check r drafts c = (Ok (rid, p), c') →
  RiskService.p_status p = "FAIL" →
  ds ≠ [] →
  risk_check_results (working c2) !! rid = risk_check_results (committed c') !! rid →
  SimService.confirm cfg pid ds rid c2 = (Raise (ValueError "risk check failed"), c2).
Proof.
  intros Hrun Hfail Hds Hrow.
  destruct (check_ok _ _ _ _ _ _ Hrun) as (_ & _ & _ & _ & _ & _ & _ & _ & _ & _ & Hc').
  unfold SimService.confirm. rewrite decide_False by done.
  unfold mbind, M_bind, query. rewrite Hrow, Hc'. simpl.
  by rewrite Hfail, decide_True.
Qed.

(** The theorem on the odd lot: checked, then confirmed on a new connection. *)
Lemma failed_check_blocks_confirm_witness :
  ∃ rid p c',
    RiskService.check RiskRulesRepo.default_rules [Scenario.odd_lot]
      (connect Scenario.unpriced 1000 100) = (Ok (rid, p), c')
    ∧ SimService.confirm SimService.default_config Scenario.pid [Scenario.odd_lot] rid
        (connect (committed c') 1010 200)
      = (Raise (ValueError "risk check failed"), connect (committed c') 1010 200).
Proof.
  destruct (RiskService.check RiskRulesRepo.default_rules [Scenario.odd_lot]
              (connect Scenario.unpriced 1000 100)) as [[[rid p]|e] c'] eqn:Hrun;
    [|vm_compute in Hrun; discriminate Hrun].
  exists rid, p, c'. split; [reflexivity|].
  apply (failed_check_blocks_confirm _ _ _ _ _ _ _ _ _ _ Hrun); [|done|done].
  apply (check_rejects "RISK_INVALID_QTY" Scenario.odd_lot _ _ _ _ _ _ Hrun
           (list_elem_of_here _ _)).
  intros. apply check_draft_invalid_qty. right. intros H. vm_compute in H. discriminate H.
Defined.

(** * The rebalance planner *)

Lemma read_only_mark_position acc row : read_only (RebalanceService.mark_position acc row).
Proof.
  destruct row as [[sym exch] q]. unfold RebalanceService.mark_position.
  apply read_only_bind; [apply read_only_query|]. intros [p|]; apply read_only_ret.
Qed.

Lemma read_only_plan_target lot budget m st t :
  read_only (RebalanceService.plan_target lot budget m st t).
Proof.
  unfold RebalanceService.plan_target. cbv zeta.
  apply read_only_bind; [apply read_only_query|]. intros [px|]; [|apply read_only_ret].
  case_decide; [apply read_only_ret|].
  case_decide; (apply read_only_bind; [apply read_only_py_div|]); intros ratio;
    (case_decide; [apply read_only_raise|]); case_decide; apply read_only_ret.
Qed.

Lemma read_only_suggest lot pid targets ratio :
  read_only (RebalanceService.suggest lot pid targets ratio).
Proof.
  unfold RebalanceService.suggest.
  apply read_only_bind; [apply read_only_get_cash|]. intros cash.
  apply read_only_bind; [apply read_only_query|]. intros rows.
  apply read_only_bind;
    [apply read_only_for_each; intros; apply read_only_mark_position|].
  intros [mv missing]. cbv zeta. destruct (RebalanceService.clean targets) as [cleaned wsum].
  case_decide; [apply read_only_raise|].
  apply read_only_bind; [|intros; apply read_only_ret].
  apply read_only_for_each. intros. apply read_only_plan_target.
Qed.

(** The dict [pos_qty_map] holds the quantities of the portfolio. *)
Lemma pos_qty_map_lookup pid s sym exch :
  (list_to_map ((λ r : string * string * Z, ((r.1.1, r.1.2), r.2))
                  <$> RebalanceService.position_rows pid s)
     : gmap (string * string) Z) !! (sym, exch)
  = qty <$> positions s !! (pid, sym, exch).
Proof.
  unfold RebalanceService.position_rows.
  destruct (positions s !! (pid, sym, exch)) as [p|] eqn:Hp; simpl.
  - apply elem_of_list_to_map_1'.
    + intros y Hy. apply list_elem_of_fmap in Hy as ([[sym' exch'] q] & [= <- <- <-] & Hy).
      apply list_elem_of_omap in Hy as ([[[pid' sym''] exch''] p'] & Hy & Hsome).
      simpl in Hsome. case_decide as Hpid; [|done]. injection Hsome as <- <- <-.
      subst pid'. apply elem_of_map_to_list in Hy. congruence.
    + apply list_elem_of_fmap. exists (sym, exch, qty p). split; [done|].
      apply list_elem_of_omap. exists ((pid, sym, exch), p). split.
      * by apply elem_of_map_to_list.
      * simpl. by rewrite decide_True.
  - apply not_elem_of_list_to_map_1. intros Hin.
    apply list_elem_of_fmap in Hin as ([k q] & Hk & Hin). simpl in Hk. subst k.
    apply list_elem_of_fmap in Hin as ([[sym' exch'] q'] & [= <- <- <-] & Hy).
    apply list_elem_of_omap in Hy as ([[[pid' sym''] exch''] p'] & Hy & Hsome).
    simpl in Hsome. case_decide as Hpid; [|done]. injection Hsome as <- <- <-.
    subst pid'. apply elem_of_map_to_list in Hy. congruence.
Qed.

Ltac plan_fields :=
  cbn [RebalanceService.p_orders RebalanceService.p_cash_after RebalanceService.p_missing
       RebalanceService.o_qty RebalanceService.o_side RebalanceService.o_price
       RebalanceService.estimated_value RebalanceService.o_symbol
       RebalanceService.o_exchange RebalanceService.symbol RebalanceService.exchange].

(** One target adds at most one order, which is well formed. *)
Lemma plan_target_ok (c : conn) (lot : Z) (budget : Qc) (m : gmap (string * string) Z)
    (cash0 : Qc) (st : RebalanceService.plan) (t : RebalanceService.cleaned_target) :
  Forall (order_ok lot (λ sym exch, default 0%Z (m !! (sym, exch))) (working c))
    (RebalanceService.p_orders st)
  ∧ RebalanceService.p_cash_after st
    = foldl cash_after_order cash0 (RebalanceService.p_orders st) →
  returns_at c (RebalanceService.plan_target lot budget m st t)
    (λ st', Forall (order_ok lot (λ sym exch, default 0%Z (m !! (sym, exch))) (working c))
              (RebalanceService.p_orders st')
            ∧ RebalanceService.p_cash_after st'
              = foldl cash_after_order cash0 (RebalanceService.p_orders st')).
Proof.
  intros [Hok Hcash]. unfold returns_at, RebalanceService.plan_target. cbv zeta.
  unfold mbind, M_bind, RebalanceService._px, query.
  destruct (latest_close_of _ _ (working c)) as [px|] eqn:Hpx; [|done].
  case_decide; [done|].
  case_decide.
  - unfold py_div. case_decide; [done|]. cbv beta iota delta [mret M_ret].
    case_decide; [done|]. case_decide; [done|]. plan_fields. split.
    + apply Forall_app. split; [done|]. constructor; [|done].
      unfold order_ok. plan_fields.
      split; [lia|]. split; [done|]. split; [done|]. left. split; [done|].
      apply Z.divide_factor_r.
    + rewrite foldl_snoc. unfold cash_after_order at 1. plan_fields.
      rewrite decide_True by done. by rewrite Hcash.
  - unfold py_div. case_decide; [done|]. cbv beta iota delta [mret M_ret].
    case_decide; [done|]. case_decide; [done|]. plan_fields. split.
    + apply Forall_app. split; [done|]. constructor; [|done].
      unfold order_ok. plan_fields.
      split; [lia|]. split; [done|]. split; [done|]. right. split; [done|].
      apply Z.le_min_r.
    + rewrite foldl_snoc. unfold cash_after_order at 1. plan_fields.
      rewrite decide_False by done. by rewrite Hcash.
Qed.

(** What the loop of [suggest] hands back, in terms of its dict of
    quantities. *)
Lemma suggest_outcome lot pid targets ratio c sg c' :
  RebalanceService.suggest lot pid targets ratio c = (Ok sg, c') →
  portfolio_accounts (working c) !! pid = Some (RebalanceService.cash_before sg)
  ∧ Forall (order_ok lot
              (λ sym exch,
                 default 0%Z
                   ((list_to_map ((λ r : string * string * Z, ((r.1.1, r.1.2), r.2))
                                    <$> RebalanceService.position_rows pid (working c))
                       : gmap (string * string) Z) !! (sym, exch)))
              (working c))
      (RebalanceService.orders sg)
  ∧ RebalanceService.cash_after_est sg
    = foldl cash_after_order (RebalanceService.cash_before sg) (RebalanceService.orders sg).
Proof.
  unfold RebalanceService.suggest.
  rewrite bind_run. unfold PortfolioRepo.get_cash. rewrite bind_run. unfold query at 1.
  destruct (portfolio_accounts (working c) !! pid) as [cash|]; [|done].
  change ((mret cash : M Qc) c) with (Ok cash, c). cbv beta iota.
  rewrite bind_run. unfold query at 1. cbv beta iota.
  rewrite bind_run.
  rewrite (read_only_run _ c
             (read_only_for_each _ _ (λ acc row, read_only_mark_position acc row) _)).
  destruct (for_each RebalanceService.mark_position _ _ c).1 as [[mv missing]|e]; [|done].
  cbv beta iota zeta.
  destruct (RebalanceService.clean targets) as [cleaned wsum].
  case_decide; [done|]. rewrite bind_run.
  match goal with
  | |- context [for_each (RebalanceService.plan_target lot ?budget ?m) ?st0 ?xs c] =>
      pose proof (for_each_keeps_at c (RebalanceService.plan_target lot budget m) _
                    (λ st t, read_only_plan_target lot budget m st t)
                    (λ st t, plan_target_ok c lot budget m cash st t) xs st0
                    (conj (Forall_nil_2 _) eq_refl)) as Hloop;
      unfold returns_at in Hloop;
      destruct (for_each (RebalanceService.plan_target lot budget m) st0 xs c)
        as [[st|e] c1]; [|done]
  end.
  intros [= <- _]. cbn [RebalanceService.cash_before RebalanceService.orders
                        RebalanceService.cash_after_est].
  by destruct Hloop as [Hok Hcash].
Qed.

(** X10: the planner only reads, and every order it suggests is well
    formed: a positive quantity, priced at the latest close of its symbol and
    valued at quantity times price, which for a BUY is a whole number of lots
    and for a SELL is no more than the portfolio holds; the estimated cash
    is the cash of the account, debited by each BUY and credited by each
    SELL in turn. *)
Theorem suggest_orders_well_formed lot pid targets ratio c sg c' :
  RebalanceService.suggest lot pid targets ratio c = (Ok sg, c') →
  c' = c
  ∧ portfolio_accounts (working c) !! pid = Some (RebalanceService.cash_before sg)
  ∧ Forall (order_ok lot (λ sym exch, held_qty pid sym exch (working c)) (working c))
      (RebalanceService.orders sg)
  ∧ RebalanceService.cash_after_est sg
    = foldl cash_after_order (RebalanceService.cash_before sg) (RebalanceService.orders sg).
Proof.
  intros Hrun. split.
  { pose proof (read_only_suggest lot pid targets ratio c) as H. by rewrite Hrun in H. }
  destruct (suggest_outcome _ _ _ _ _ _ _ Hrun) as (Hcash & Hok & Hafter).
  split; [done|]. split; [|done].
  eapply Forall_impl; [exact Hok|]. intros o (H1 & H2 & H3 & H4).
  repeat (split; [done|]). destruct H4 as [?|[Hside Hq]]; [by left|right].
  split; [done|]. unfold held_qty. rewrite pos_qty_map_lookup in Hq.
  by destruct (positions (working c) !! _).
Qed.

(** The theorem on the plan of the scenario: all of 210,000 into 600519. *)
Lemma suggest_orders_well_formed_witness :
  ∃ sg c',
    RebalanceService.suggest 100 Scenario.pid Scenario.all_in_600519 (dec 5 100)
      (connect (Scenario.cash_only 210000) 1000 100) = (Ok sg, c')
    ∧ c' = connect (Scenario.cash_only 210000) 1000 100
    ∧ RebalanceService.orders sg ≠ []
    ∧ Forall (order_ok 100
                (λ sym exch, held_qty Scenario.pid sym exch (Scenario.cash_only 210000))
                (Scenario.cash_only 210000))
        (RebalanceService.orders sg).
Proof.
  destruct (RebalanceService.suggest 100 Scenario.pid Scenario.all_in_600519 (dec 5 100)
              (connect (Scenario.cash_only 210000) 1000 100)) as [[sg|e] c'] eqn:Hrun;
    [|vm_compute in Hrun; discriminate Hrun].
  exists sg, c'. split; [reflexivity|].
  destruct (suggest_orders_well_formed _ _ _ _ _ _ _ Hrun) as (Hc & _ & Hok & _).
  split; [exact Hc|]. split; [|exact Hok].
  vm_compute in Hrun. injection Hrun as <- _. discriminate.
Defined.

(** ** The handler *)

Lemma clean_dropped targets :
  Forall dropped targets → RebalanceService.clean targets = ([], 0).
Proof.
  intros Hd. unfold RebalanceService.clean.
  generalize (@nil RebalanceService.cleaned_target, 0).
  induction Hd as [|t ts Ht _ IH]; intros acc; simpl; [done|].
  rewrite bool_decide_eq_true_2; [apply IH|]. right. exact Ht.
Qed.

Lemma mark_positions_return rows :
  ∀ acc c, ∃ acc', for_each RebalanceService.mark_position acc rows c = (Ok acc', c).
Proof.
  induction rows as [|[[sym exch] q] rows IH]; intros acc c; simpl; [by eexists|].
  unfold mbind, M_bind, RebalanceService.mark_position at 1, RebalanceService._px, query.
  unfold mbind, M_bind.
  destruct (latest_close_of sym exch (working c)); apply IH.
Qed.

(** X11: a rebalance request for an existing portfolio whose targets all
    lack an exchange or a positive weight is answered 400
    [VALIDATION_ERROR]; nothing is written, not even an audit row. *)
Theorem rebalance_suggest_needs_targets lot body pid cash s t seed :
  RebalanceApi.body_portfolio_id body = Some pid →
  portfolio_accounts s !! pid = Some cash →
  Forall dropped (default [] (RebalanceApi.body_targets body)) →
  serve (RebalanceApi.rebalance_suggest lot body) s t seed
  = (api_err ErrorCodes.VALIDATION_ERROR "targets empty or weights invalid" 400,
     connect s t seed).
Proof.
  intros Hpid Hcash Hdrop. unfold serve, RebalanceApi.rebalance_suggest.
  rewrite Hpid. unfold except_ValueError. rewrite bind_run.
  unfold RebalanceService.suggest. rewrite bind_run.
  unfold PortfolioRepo.get_cash. rewrite bind_run. unfold query at 1.
  cbn [working connect]. rewrite Hcash.
  change ((mret cash : M Qc) (connect s t seed)) with (Ok cash, connect s t seed).
  cbv beta iota. rewrite bind_run. unfold query at 1. cbv beta iota.
  rewrite bind_run.
  destruct (mark_positions_return
              (RebalanceService.position_rows pid (working (connect s t seed)))
              (0, []) (connect s t seed)) as [[mv missing] ->].
  cbv beta iota zeta. rewrite (clean_dropped _ Hdrop).
  by rewrite decide_True.
Qed.

Lemma rebalance_suggest_needs_targets_witness :
  serve (RebalanceApi.rebalance_suggest 100
           {| RebalanceApi.body_portfolio_id := Some Scenario.pid;
              RebalanceApi.body_targets := None;
              RebalanceApi.body_cash_reserve_ratio := None;
              RebalanceApi.body_create_drafts := true |})
    (Scenario.cash_only 210000) 1000 100
  = (api_err ErrorCodes.VALIDATION_ERROR "targets empty or weights invalid" 400,
     connect (Scenario.cash_only 210000) 1000 100).
Proof.
  apply (rebalance_suggest_needs_targets 100 _ Scenario.pid (Qc_of_int 210000));
    [reflexivity|reflexivity|constructor].
Defined.

(** What the loop that creates the drafts does. *)
Lemma drafts_loop pid os :
  ∀ ids0 c, ∃ drafts c',
    for_each (RebalanceApi.draft_of_order pid) ids0 os c
    = (Ok (ids0 ++ (draft_id <$> drafts))%list, c')
    ∧ Forall2 (mirrors pid) drafts os
    ∧ order_drafts (working c') = (order_drafts (working c) ++ drafts)%list
    ∧ audit_log (working c') = audit_log (working c).
Proof.
  induction os as [|o os IH]; intros ids0 c.
  - exists [], c. simpl. by rewrite !app_nil_r.
  - simpl. unfold mbind at 1, M_bind at 1.
    unfold RebalanceApi.draft_of_order at 1, OrderDraftRepo.create.
    unfold mbind, M_bind, uuid4, now, with_conn, execute. simpl.
    match goal with
    | |- context [for_each _ ?ids1 os ?c1] => destruct (IH ids1 c1)
        as (drafts & c' & -> & Hmir & Hdr & Haud)
    end.
    simpl in Hdr, Haud.
    eexists ({| draft_id := entropy c; d_portfolio_id := pid;
                d_symbol := RebalanceService.o_symbol o;
                d_exchange := RebalanceService.o_exchange o;
                d_side := RebalanceService.o_side o; d_order_type := "LIMIT";
                d_price := Some (RebalanceService.o_price o);
                d_qty := RebalanceService.o_qty o; d_origin := "rebalance" |} :: drafts), c'.
    rewrite Hdr, Haud, <-!app_assoc. simpl. repeat split; try done.
    by constructor.
Qed.

(** X12: when a rebalance request is answered with draft ids, the drafts
    appended to the table are the suggested orders, one for one and in order:
    same symbol, side and quantity, the order's price as limit price, origin
    "rebalance"; their ids are the ones returned; and every BUY among them
    has a quantity the risk engine accepts under the same lot size. *)
Theorem rebalance_drafts_mirror_orders lot body s t seed sg ids c' :
  serve (RebalanceApi.rebalance_suggest lot body) s t seed
  = (api_ok (sg, Some ids), c') →
  ∃ pid drafts,
    RebalanceApi.body_portfolio_id body = Some pid
    ∧ order_drafts (committed c') = (order_drafts s ++ drafts)%list
    ∧ draft_id <$> drafts = ids
    ∧ Forall2 (mirrors pid) drafts (RebalanceService.orders sg)
    ∧ ∀ r, RiskRulesRepo.lot_size r = lot →
        Forall (λ d, d_side d = "BUY" → ¬ invalid_qty r d) drafts.
Proof.
  unfold serve, RebalanceApi.rebalance_suggest.
  destruct (RebalanceApi.body_portfolio_id body) as [pid|]; [|done].
  unfold except_ValueError. rewrite bind_run.
  destruct (RebalanceService.suggest lot pid _ _ (connect s t seed))
    as [[sg0|e] c0] eqn:Hsg; [|by destruct e].
  pose proof (read_only_suggest lot pid (default [] (RebalanceApi.body_targets body))
                (RebalanceApi.reserve_of (RebalanceApi.body_cash_reserve_ratio body))
                (connect s t seed)) as Hro.
  rewrite Hsg in Hro. simpl in Hro. subst c0.
  destruct (suggest_outcome _ _ _ _ _ _ _ Hsg) as (_ & Hok & _).
  rewrite bind_run.
  destruct (RebalanceApi.body_create_drafts body).
  2:{ unfold AuditLogger.log, mbind, M_bind, uuid4, now, with_conn, execute. simpl. done. }
  rewrite bind_run.
  destruct (drafts_loop pid (RebalanceService.orders sg0) [] (connect s t seed))
    as (drafts & c1 & -> & Hmir & Hdr & _).
  unfold AuditLogger.log, mbind, M_bind, uuid4, now, with_conn, execute. simpl.
  intros [= <- <- <-]. simpl. exists pid, drafts.
  split; [done|]. split; [by rewrite Hdr|]. split; [done|]. split; [done|].
  intros r Hlot. revert Hok. clear -Hmir Hlot. induction Hmir as [|d o ds os Hd _ IH].
  - constructor.
  - intros Hok. inversion_clear Hok as [|? ? Ho Hos]. constructor; [|by apply IH].
    destruct Hd as (_ & _ & _ & Hside & Hq & _).
    destruct Ho as (Hpos & _ & _ & Hlots).
    intros Hbuy [Hle|Hmod]; [lia|]. apply Hmod.
    destruct Hlots as [[_ Hdiv]|[Hsell _]]; [|congruence].
    rewrite Hlot, Hq. destruct (decide (lot = 0%Z)) as [->|Hne].
    + apply Z.divide_0_l in Hdiv. lia.
    + by apply Z.mod_divide.
Qed.

(** The theorem on the plan of the scenario, with drafts requested. *)
Lemma rebalance_drafts_mirror_orders_witness :
  ∃ sg ids c' drafts,
    serve (RebalanceApi.rebalance_suggest 100
             {| RebalanceApi.body_portfolio_id := Some Scenario.pid;
                RebalanceApi.body_targets := Some Scenario.all_in_600519;
                RebalanceApi.body_cash_reserve_ratio := None;
                RebalanceApi.body_create_drafts := true |})
      (Scenario.cash_only 210000) 1000 100
    = (api_ok (sg, Some ids), c')
    ∧ ids ≠ []
    ∧ order_drafts (committed c') = drafts
    ∧ draft_id <$> drafts = ids
    ∧ Forall2 (mirrors Scenario.pid) drafts (RebalanceService.orders sg).
Proof.
  set (body := {| RebalanceApi.body_portfolio_id := Some Scenario.pid;
                  RebalanceApi.body_targets := Some Scenario.all_in_600519;
                  RebalanceApi.body_cash_reserve_ratio := None;
                  RebalanceApi.body_create_drafts := true |}).
  destruct (serve (RebalanceApi.rebalance_suggest 100 body)
              (Scenario.cash_only 210000) 1000 100) as [[[sg [ids|]]| |] c'] eqn:Hrun;
    try (vm_compute in Hrun; discriminate Hrun).
  destruct (rebalance_drafts_mirror_orders _ _ _ _ _ _ _ _ Hrun)
    as (pid & drafts & Hpid & Hdr & Hids & Hmir & _).
  injection Hpid as <-.
  exists sg, ids, c', drafts. split; [reflexivity|].
  split; [vm_compute in Hrun; injection Hrun as _ <- _; discriminate|].
  by repeat split.
Defined.

(** * The newest bars *)

Lemma rev_reverse {A} (l : list A) : rev l = reverse l.
Proof. apply rev_alt. Qed.

Lemma bar_newer_total : Total bar_newer.
Proof. intros a b. unfold bar_newer. lia. Qed.

Lemma bar_newer_trans : Transitive bar_newer.
Proof. intros a b c. unfold bar_newer. lia. Qed.

Lemma newest_first_sorted bs : StronglySorted bar_newer (newest_first bs).
Proof.
  apply (@StronglySorted_merge_sort _ bar_newer _ bar_newer_trans bar_newer_total).
Qed.

Lemma newest_first_elem_of b bs : b ∈ newest_first bs ↔ b ∈ bs.
Proof. unfold newest_first. by rewrite merge_sort_Permutation. Qed.

(** X13: the latest bar of a symbol, whose close every service takes for
    the latest price, is a stored RAW bar of that symbol and exchange, and no
    stored RAW bar of the symbol is dated after it; there is none exactly when
    no RAW bar of the symbol is stored. *)
Theorem latest_bar_is_newest sym exch s :
  match latest_bar sym exch s with
  | Some b =>
    b ∈ bars_daily s
    ∧ b_symbol b = sym ∧ b_exchange b = exch ∧ b_adj b = "RAW"
    ∧ ∀ b', b' ∈ stored_bars sym exch "RAW" s → not_after b' b
  | None => stored_bars sym exch "RAW" s = []
  end.
Proof.
  unfold latest_bar, stored_bars.
  pose proof (newest_first_sorted (bars_of sym exch "RAW" (bars_daily s))) as Hs.
  pose proof (newest_first_elem_of) as Hin.
  specialize (λ b, Hin b (bars_of sym exch "RAW" (bars_daily s))).
  destruct (newest_first _) as [|b l]; simpl.
  - destruct (bars_of _ _ _ _) as [|b' l']; [done|].
    exfalso. eapply elem_of_nil, Hin. left.
  - assert (Hb : b ∈ bars_of sym exch "RAW" (bars_daily s)) by (apply Hin; left).
    unfold bars_of in Hb. apply list_elem_of_filter in Hb as [(H1 & H2 & H3) Hb].
    repeat (split; [done|]). intros b' Hb'. apply Hin in Hb'.
    apply StronglySorted_inv in Hs as [_ Hall].
    apply elem_of_cons in Hb' as [->|Hb']; [unfold not_after; lia|].
    by eapply (proj1 (Forall_forall _ _)) in Hall.
Qed.

(** X14: [list_bars] returns the newest [limit] stored bars of the symbol,
    exchange and adjustment, oldest first: as many as are stored up to
    [limit], in ascending date order, and the stored bars are these together
    with bars none of which is dated after any of them. *)
Theorem list_bars_newest_ascending sym exch adj limit s :
  let bs := BarsRepo.list_bars_of sym exch adj limit s in
  length bs = (limit `min` length (stored_bars sym exch adj s))%nat
  ∧ Sorted not_after bs
  ∧ ∃ older, stored_bars sym exch adj s ≡ₚ older ++ bs
             ∧ Forall (λ b', Forall (not_after b') bs) older.
Proof.
  intros bs. split; [apply list_bars_length|].
  unfold bs, BarsRepo.list_bars_of, stored_bars.
  pose proof (newest_first_sorted (bars_of sym exch adj (bars_daily s))) as Hs.
  assert (Hperm : newest_first (bars_of sym exch adj (bars_daily s))
                  ≡ₚ bars_of sym exch adj (bars_daily s))
    by apply merge_sort_Permutation.
  revert Hs Hperm. generalize (newest_first (bars_of sym exch adj (bars_daily s))).
  intros l Hs Hperm. rewrite <-(take_drop limit l) in Hs, Hperm.
  split.
  - rewrite rev_reverse. apply (Sorted_reverse bar_newer).
    apply StronglySorted_Sorted. by apply StronglySorted_app_1_l in Hs.
  - exists (drop limit l). split.
    + rewrite <-Hperm, rev_reverse, reverse_Permutation. apply Permutation_app_comm.
    + apply Forall_forall. intros b' Hb'. apply Forall_forall. intros b Hb.
      rewrite rev_reverse, elem_of_reverse in Hb.
      by eapply (StronglySorted_app_1_elem_of bar_newer) in Hs.
Qed.

(** * The draft and plan repositories *)

Lemma filter_none {A} (P : A → Prop) `{∀ x, Decision (P x)} (l : list A) :
  Forall (λ x, ¬ P x) l → filter P l = [].
Proof. induction 1 as [|x l Hx _ IH]; [done|]. by rewrite filter_cons_False. Qed.

Lemma filter_all {A} (P : A → Prop) `{∀ x, Decision (P x)} (l : list A) :
  Forall P l → filter P l = l.
Proof. induction 1 as [|x l Hx _ IH]; [done|]. by rewrite filter_cons_True, IH. Qed.

Lemma not_elem_of_fmap_Forall {A B} (f : A → B) (l : list A) (y : B) :
  y ∉ f <$> l → Forall (λ x, f x ≠ y) l.
Proof.
  intros Hy. apply Forall_forall. intros x Hx Heq. apply Hy.
  apply list_elem_of_fmap. by exists x.
Qed.

Lemma get_many_run ids c :
  OrderDraftRepo.get_many ids c
  = (Ok (filter (λ d, draft_id d ∈ ids) (order_drafts (working c))), c).
Proof.
  unfold OrderDraftRepo.get_many. case_decide as Hnil; [|done]. subst ids.
  rewrite filter_none; [done|]. apply Forall_forall. intros d _ Hd.
  by apply elem_of_nil in Hd.
Qed.

(** X15: a draft that is created can be read back and deleted again: when
    the new identifier names no stored draft, [create] returns it and commits,
    [get_many] of that identifier returns the draft as it was given and
    nothing else, and after [delete] the table is what it was before. *)
Theorem draft_create_get_delete pid sym exch side ot price q origin c :
  fresh_draft_id c →
  let d := {| draft_id := entropy c; d_portfolio_id := pid; d_symbol := sym;
              d_exchange := exch; d_side := side; d_order_type := ot;
              d_price := price; d_qty := q; d_origin := origin |} in
  let run := OrderDraftRepo.create pid sym exch side ot price q origin c in
  run.1 = Ok (entropy c)
  ∧ committed run.2 = working run.2
  ∧ order_drafts (working run.2) = (order_drafts (working c) ++ [d])%list
  ∧ OrderDraftRepo.get_many [entropy c] run.2 = (Ok [d], run.2)
  ∧ order_drafts (committed (OrderDraftRepo.delete (entropy c) run.2).2)
    = order_drafts (working c).
Proof.
  intros Hfresh d run. unfold run, OrderDraftRepo.create.
  unfold mbind, M_bind, uuid4, now, with_conn, execute. simpl.
  repeat (split; [done|]).
  apply not_elem_of_fmap_Forall in Hfresh.
  split.
  - rewrite get_many_run. simpl. rewrite filter_app.
    rewrite filter_none.
    + by rewrite filter_cons_True by (simpl; apply list_elem_of_singleton; done).
    + eapply Forall_impl; [exact Hfresh|]. intros x Hx Hin.
      by apply list_elem_of_singleton in Hin.
  - unfold OrderDraftRepo.delete, with_conn, execute. simpl. rewrite filter_app.
    rewrite filter_all by done.
    rewrite filter_cons_False by (simpl; intros Hn; by apply Hn).
    by rewrite app_nil_r.
Qed.

Lemma store_fresh_draft_id : fresh_draft_id (connect Scenario.store 1000 100).
Proof.
  unfold fresh_draft_id. apply (bool_decide_eq_true_1 _). vm_compute. reflexivity.
Qed.

(** The theorem on the store of the scenario, whose drafts are 10 and 11. *)
Lemma draft_create_get_delete_witness :
  let c := connect Scenario.store 1000 100 in
  let run := OrderDraftRepo.create Scenario.pid "600519" "SSE" "BUY" "LIMIT" None 100
               "manual" c in
  run.1 = Ok 100%N
  ∧ OrderDraftRepo.get_many [100%N] run.2
    = (Ok [{| draft_id := 100; d_portfolio_id := Scenario.pid; d_symbol := "600519";
              d_exchange := "SSE"; d_side := "BUY"; d_order_type := "LIMIT";
              d_price := None; d_qty := 100; d_origin := "manual" |}], run.2)
  ∧ order_drafts (committed (OrderDraftRepo.delete 100%N run.2).2)
    = order_drafts Scenario.store.
Proof.
  intros c run.
  destruct (draft_create_get_delete Scenario.pid "600519" "SSE" "BUY" "LIMIT" None 100
              "manual" c store_fresh_draft_id) as (H1 & _ & _ & H4 & H5).
  split; [exact H1|]. split; [exact H4|exact H5].
Defined.

(** X16: a plan that is created can be read back: when the new identifier
    names no stored plan, [create] returns it and commits, and [get] of that
    identifier returns the plan of the given symbol and exchange, stamped with
    the clock, whose version is one more than the largest version stored for
    the symbol and exchange, or 1 when there is none. *)
Theorem plan_create_get sym exch c :
  fresh_plan_id c →
  let run := PlansRepo.create sym exch c in
  run.1 = Ok (entropy c)
  ∧ committed run.2 = working run.2
  ∧ PlansRepo.get (entropy c) run.2
    = (Ok (Some {| plan_id := entropy c; p_symbol := sym; p_exchange := exch;
                   p_created_at := clock c;
                   plan_version :=
                     default 0%Z (PlansRepo.max_version
                                    (PlansRepo.plans_of sym exch (working c))) + 1 |}),
       run.2).
Proof.
  intros Hfresh run. unfold run, PlansRepo.create, PlansRepo._next_version.
  unfold mbind, M_bind, uuid4, now, with_conn, execute, query. simpl.
  repeat (split; [done|]).
  unfold PlansRepo.get, query. simpl. do 2 f_equal. rewrite filter_app.
  rewrite filter_none by (by apply not_elem_of_fmap_Forall).
  by rewrite filter_cons_True.
Qed.

(** The theorem on a store with no plan. *)
Lemma plan_create_get_witness :
  let run := PlansRepo.create "600519" "SSE" (connect Scenario.store 1000 100) in
  run.1 = Ok 100%N
  ∧ PlansRepo.get 100%N run.2
    = (Ok (Some {| plan_id := 100; p_symbol := "600519"; p_exchange := "SSE";
                   p_created_at := 1000; plan_version := 1 |}), run.2).
Proof.
  intros run.
  destruct (plan_create_get "600519" "SSE" (connect Scenario.store 1000 100))
    as (H1 & _ & H3).
  { unfold fresh_plan_id. simpl. apply not_elem_of_nil. }
  split; [exact H1|exact H3].
Defined.

(** * The explanation of a score *)

Lemma rate_reasons m :
  let r := ScoringService.rate m in
  r.2 = spec_reasons m
  ∧ r.1.1 = py_min 100 (2 * points_of r.2)%float
  ∧ (ScoringService.trend r.1.2 + ScoringService.momentum r.1.2
     + ScoringService.volatility r.1.2 + ScoringService.liquidity r.1.2)%float
    = points_of r.2.
Proof.
  unfold ScoringService.rate, spec_reasons, ScoringService.rule, tag_if.
  destruct (ScoringService.ma20 m <? ScoringService.last_close m)%float;
  destruct (ScoringService.ma60 m <? ScoringService.ma20 m)%float;
  destruct (ScoringService.ma60 m <? ScoringService.last_close m)%float;
  destruct (0 <? ScoringService.ret20 m)%float;
  destruct (0x1.999999999999ap-4 <? ScoringService.ret20 m)%float;
  (destruct (ScoringService.vol20 m <? 0x1.eb851eb851eb8p-6)%float;
   [|destruct (ScoringService.vol20 m <? 0x1.eb851eb851eb8p-5)%float]);
  (destruct (100000000 <? ScoringService.liq20 m)%float;
   [|destruct (20000000 <? ScoringService.liq20 m)%float]);
  vm_compute; repeat split.
Qed.

(** X17: a score is explained by its reasons: they are the tags of the
    rules the metrics satisfy, in the order of the rules; the four categories
    add up to the points of the reasons, 5 for [vol20_mid] and
    [liq20_gt_2e7] and 10 for every other, and the total is twice these
    points, capped at 100. *)
Theorem score_explained_by_reasons vol symbol exchange adj c r c' :
  ScoringService.calc vol symbol exchange adj c = (Ok r, c') →
  ScoringService.reasons r = spec_reasons (ScoringService.metrics r)
  ∧ ScoringService.score_total r
    = py_min 100 (2 * points_of (ScoringService.reasons r))%float
  ∧ (ScoringService.trend (ScoringService.breakdown r)
     + ScoringService.momentum (ScoringService.breakdown r)
     + ScoringService.volatility (ScoringService.breakdown r)
     + ScoringService.liquidity (ScoringService.breakdown r))%float
    = points_of (ScoringService.reasons r).
Proof.
  unfold ScoringService.calc, BarsRepo.list_bars, query, mbind, M_bind.
  case_decide; [done|].
  set (m := ScoringService.measure vol _).
  pose proof (rate_reasons m) as Hrate. cbv zeta in Hrate.
  destruct (ScoringService.rate m) as [[total bd] rs]. cbn [fst snd] in Hrate.
  by intros [= <- <-].
Qed.

(** The theorem on 60 bars closing at 1000 with an amount of 200 million. *)
Lemma score_explained_by_reasons_witness :
  ∃ r c',
    ScoringService.calc Scenario.no_deviation "600519" "SSE" "RAW"
      (connect (Scenario.flat_bars 60) 1000 100) = (Ok r, c')
    ∧ ScoringService.reasons r = ["vol20_low"; "liq20_gt_1e8"]
    ∧ ScoringService.score_total r
      = py_min 100 (2 * points_of (ScoringService.reasons r))%float.
Proof.
  destruct (ScoringService.calc Scenario.no_deviation "600519" "SSE" "RAW"
              (connect (Scenario.flat_bars 60) 1000 100)) as [[r|e] c'] eqn:Hrun;
    [|vm_compute in Hrun; discriminate Hrun].
  exists r, c'. split; [reflexivity|].
  split; [|exact (proj1 (proj2 (score_explained_by_reasons _ _ _ _ _ _ _ Hrun)))].
  vm_compute in Hrun. by injection Hrun as <- _.
Defined.

(** * The snapshot of a score *)

Lemma list_bars_last_newest sym exch adj limit s b :
  last (BarsRepo.list_bars_of sym exch adj limit s) = Some b →
  b ∈ stored_bars sym exch adj s
  ∧ ∀ b', b' ∈ stored_bars sym exch adj s → not_after b' b.
Proof.
  unfold BarsRepo.list_bars_of, stored_bars. rewrite rev_reverse, last_reverse.
  pose proof (newest_first_sorted (bars_of sym exch adj (bars_daily s))) as Hs.
  pose proof (newest_first_elem_of) as Hin.
  specialize (λ b, Hin b (bars_of sym exch adj (bars_daily s))).
  destruct (newest_first _) as [|b0 l]; simpl; [by destruct limit|].
  destruct limit as [|n]; [done|]. simpl. intros [= ->].
  split; [apply Hin; left|]. intros b' Hb'. apply Hin in Hb'.
  apply StronglySorted_inv in Hs as [_ Hall].
  apply elem_of_cons in Hb' as [->|Hb']; [unfold not_after; lia|].
  by eapply (proj1 (Forall_forall _ _)) in Hall.
Qed.

(** X18: [calc_and_persist] stores a score exactly when [calc] returns one:
    then it commits one transaction that appends the snapshot of the result
    under a new identifier and changes nothing else, and the snapshot is dated
    by the newest stored bar: no stored bar of the symbol, exchange and
    adjustment is dated after it.  When [calc] raises, nothing is written. *)
Theorem calc_and_persist_stores_score vol symbol exchange adj c :
  match ScoringService.calc_and_persist vol symbol exchange adj c with
  | (Ok sc, c') =>
    ScoringService.calc vol symbol exchange adj c = (Ok (ScoringService.sc_result sc), c)
    ∧ ScoringService.sc_score_id sc = entropy c
    ∧ working c' = set_score_snapshots
                     (λ l, (l ++ [snapshot_of (entropy c) symbol exchange
                                    (ScoringService.sc_result sc)])%list) (working c)
    ∧ committed c' = working c'
    ∧ commit_log c' = (commit_log c ++ [working c'])%list
    ∧ ∀ b, b ∈ stored_bars symbol exchange adj (working c) →
           (b_trade_date b ≤ ScoringService.trade_date_ (ScoringService.sc_result sc))%Z
  | (Raise e, c') =>
    c' = c ∧ ScoringService.calc vol symbol exchange adj c = (Raise e, c)
  end.
Proof.
  unfold ScoringService.calc_and_persist, ScoringService.calc, BarsRepo.list_bars,
    query, mbind, M_bind.
  case_decide as Hlen; [done|].
  destruct (ScoringService.rate _) as [[total bd] rs].
  unfold ScoresRepo.insert, mbind, M_bind, uuid4, with_conn, execute. simpl.
  repeat (split; [done|]).
  intros b Hb.
  destruct (last (BarsRepo.list_bars_of symbol exchange adj 120 (working c)))
    as [b0|] eqn:Hlast.
  - simpl. by apply (list_bars_last_newest _ _ _ _ _ _ Hlast).
  - apply last_None in Hlast. rewrite Hlast in Hlen. simpl in Hlen. lia.
Qed.

(** * Requests on drafts of two portfolios *)

Lemma existsb_Exists {A} (f : A → bool) (l : list A) :
  Exists (λ x, f x = true) l → existsb f l = true.
Proof.
  induction 1 as [x l Hx|x l _ IH]; simpl; [by rewrite Hx|].
  rewrite IH. apply orb_true_r.
Qed.

(** X19: for draft ids that select drafts of more than one portfolio,
    [sim_confirm] answers 400 [VALIDATION_ERROR], while [risk_check] lets the
    [ValueError] of the risk service escape, which the framework turns into
    a 500; neither writes anything. *)
Theorem mixed_batch_answers r cfg ids rid s t seed d0 ds :
  filter (λ d, draft_id d ∈ ids) (order_drafts s) = d0 :: ds →
  Exists (λ d, d_portfolio_id d ≠ d_portfolio_id d0) ds →
  serve (Api.sim_confirm cfg
           {| Api.body_draft_ids := Some ids; Api.body_riskcheck_id := Some rid |})
    s t seed
  = (api_err ErrorCodes.VALIDATION_ERROR "drafts must belong to the same portfolio" 400,
     connect s t seed)
  ∧ serve (RiskApi.risk_check r {| RiskApi.body_draft_ids := Some ids |}) s t seed
    = (uncaught (ValueError "drafts must belong to the same portfolio"),
       connect s t seed).
Proof.
  intros Hsel Hmixed.
  assert (Hex : existsb (λ d, negb (bool_decide (d_portfolio_id d = d_portfolio_id d0)))
                  (d0 :: ds) = true).
  { simpl. apply orb_true_iff. right. apply existsb_Exists.
    eapply Exists_impl; [exact Hmixed|]. intros d Hd. simpl.
    by rewrite bool_decide_eq_false_2. }
  split.
  - unfold serve, Api.sim_confirm, except_ValueError. cbn [Api.body_riskcheck_id
      Api.body_draft_ids default from_option id].
    rewrite bind_run, get_many_run. cbn [working connect]. rewrite Hsel.
    cbv beta iota. by rewrite Hex.
  - unfold serve, RiskApi.risk_check. cbn [RiskApi.body_draft_ids default from_option id].
    rewrite bind_run, get_many_run. cbn [working connect]. rewrite Hsel.
    cbv beta iota. rewrite bind_run. unfold RiskService.check. by rewrite Hex.
Qed.

(** The theorem on the two drafts of [mixed_store]. *)
Lemma mixed_batch_answers_witness :
  serve (Api.sim_confirm SimService.default_config
           {| Api.body_draft_ids := Some [10; 30]%N; Api.body_riskcheck_id := Some 7%N |})
    mixed_store 1000 100
  = (api_err ErrorCodes.VALIDATION_ERROR "drafts must belong to the same portfolio" 400,
     connect mixed_store 1000 100)
  ∧ serve (RiskApi.risk_check RiskRulesRepo.default_rules
             {| RiskApi.body_draft_ids := Some [10; 30]%N |}) mixed_store 1000 100
    = (uncaught (ValueError "drafts must belong to the same portfolio"),
       connect mixed_store 1000 100).
Proof.
  eapply (mixed_batch_answers RiskRulesRepo.default_rules SimService.default_config
            [10; 30]%N 7%N mixed_store 1000 100).
  - vm_compute. reflexivity.
  - constructor. simpl. discriminate.
Defined.

(** * The audit log *)

Lemma read_only_stable {A} (P : db → Prop) (m : M A) :
  read_only m → stable (always P) m.
Proof.
  intros Hro c Hc. specialize (Hro c).
  destruct (m c) as [[a|e] c1]; simpl in Hro; by subst.
Qed.

Section Grown.
Variable s0 : db.

Lemma grown_append row s :
  audit_grown_from s0 s → audit_grown_from s0 (set_audit_log (λ l, (l ++ [row])%list) s).
Proof. unfold audit_grown_from. simpl. intros H. by apply prefix_app_r. Qed.

Lemma grown_log actor_ action_ et eid :
  stable (always (audit_grown_from s0)) (AuditLogger.log actor_ action_ et eid).
Proof. apply always_log. intros row s. apply grown_append. Qed.

Lemma grown_confirm cfg pid drafts rid :
  stable (always (audit_grown_from s0)) (SimService.confirm cfg pid drafts rid).
Proof.
  unfold SimService.confirm. case_decide; [apply always_raise|].
  apply always_bind; [apply always_query|].
  intros [status|]; [|apply always_raise].
  case_decide; [apply always_raise|].
  apply always_bind; [apply always_get_cash|]. intros cash0.
  apply always_bind; [apply always_uuid4|]. intros order.
  apply always_bind; [apply always_now|]. intros ts.
  apply always_bind; [|intros acc; apply always_ret].
  apply always_with_conn.
  apply always_bind.
  { apply always_for_each. intros acc d _. by apply always_fill_leg. }
  intros acc.
  apply always_bind; [by apply always_execute|]. intros _.
  apply always_bind; [|intros _; apply always_ret].
  by apply always_with_conn, always_execute.
Qed.

Lemma grown_check r drafts :
  stable (always (audit_grown_from s0)) (RiskService.check r drafts).
Proof.
  unfold RiskService.check. destruct drafts as [|d0 ds]; [apply always_raise|].
  destruct (existsb _ _); [apply always_raise|].
  apply always_bind; [apply read_only_stable, read_only_draft_checks|].
  intros [[[cash te] pm] st]. cbv zeta.
  apply always_bind; [apply always_uuid4|]. intros rid.
  apply always_bind; [apply always_now|]. intros ts.
  apply always_bind; [|intros _; apply always_ret].
  by apply always_with_conn, always_execute.
Qed.

Lemma grown_create pid sym exch side ot price q origin :
  stable (always (audit_grown_from s0))
    (OrderDraftRepo.create pid sym exch side ot price q origin).
Proof.
  unfold OrderDraftRepo.create.
  apply always_bind; [apply always_uuid4|]. intros did.
  apply always_bind; [apply always_now|]. intros ts.
  apply always_bind; [|intros _; apply always_ret].
  by apply always_with_conn, always_execute.
Qed.

Lemma grown_handler q :
  match q with
  | SimConfirm cfg body => stable (always (audit_grown_from s0)) (Api.sim_confirm cfg body)
  | RiskCheck r body => stable (always (audit_grown_from s0)) (RiskApi.risk_check r body)
  | ScoresCalc vol body =>
    stable (always (audit_grown_from s0)) (ScoresApi.scores_calc vol body)
  | RebalanceSuggest lot body =>
    stable (always (audit_grown_from s0)) (RebalanceApi.rebalance_suggest lot body)
  end.
Proof.
  destruct q as [cfg body|r body|vol body|lot body].
  - unfold Api.sim_confirm.
    destruct (Api.body_riskcheck_id body) as [rid|]; [|apply always_ret].
    apply always_except; [|intros; apply always_ret].
    apply always_bind; [apply always_get_many|].
    intros [|d0 drafts]; [apply always_ret|].
    destruct (existsb _ _); [apply always_ret|].
    apply always_bind; [apply grown_confirm|]. intros result.
    apply always_bind; [apply grown_log|]. intros _. apply always_ret.
  - unfold RiskApi.risk_check.
    apply always_bind; [apply always_get_many|].
    intros [|d0 drafts]; [apply always_ret|].
    apply always_bind; [apply grown_check|]. intros [rid result].
    apply always_bind; [apply grown_log|]. intros _. apply always_ret.
  - unfold ScoresApi.scores_calc. cbv zeta.
    case_bool_decide; [apply always_ret|].
    apply always_bind.
    { apply always_except; [|intros; apply always_ret].
      apply always_bind; [|intros; apply always_ret].
      unfold ScoringService.calc_and_persist.
      apply always_bind.
      { apply read_only_stable. unfold ScoringService.calc.
        apply read_only_bind; [apply read_only_query|]. intros bars.
        case_decide; [apply read_only_raise|].
        destruct (ScoringService.rate _) as [[total bd] rs]. apply read_only_ret. }
      intros res. apply always_bind; [|intros; apply always_ret].
      unfold ScoresRepo.insert.
      apply always_bind; [apply always_uuid4|]. intros sid.
      apply always_bind; [|intros _; apply always_ret].
      by apply always_with_conn, always_execute. }
    intros [result|msg]; [|apply always_ret].
    apply always_bind; [apply grown_log|]. intros _. apply always_ret.
  - unfold RebalanceApi.rebalance_suggest. cbv zeta.
    destruct (RebalanceApi.body_portfolio_id body) as [pid|]; [|apply always_ret].
    apply always_except; [|intros; apply always_ret].
    apply always_bind; [apply read_only_stable, read_only_suggest|]. intros result.
    apply always_bind.
    { destruct (RebalanceApi.body_create_drafts body); [|apply always_ret].
      apply always_bind; [|intros; apply always_ret].
      apply always_for_each. intros ids o _. unfold RebalanceApi.draft_of_order.
      apply always_bind; [apply grown_create|]. intros; apply always_ret. }
    intros ids. apply always_bind; [apply grown_log|]. intros _. apply always_ret.
Qed.

End Grown.

(** X20: the audit log is append-only: in every state a reader can observe
    while a [sim.confirm], [risk.check], [scores.calc] or
    [rebalance.suggest] request is served, the audit log is the log the
    request found, with rows added at its end at most. *)
Theorem audit_log_only_grows q s t seed s' :
  s' ∈ observed q s t seed → audit_grown_from s s'.
Proof.
  assert (H0 : audit_grown_from s s) by (exists []; by rewrite app_nil_r).
  pose proof (grown_handler s q) as Hst.
  destruct q as [cfg body|r body|vol body|lot body]; simpl; intros Hin;
    (eapply (always_observable (audit_grown_from s)); [exact H0| |exact Hin]);
    by apply always_serve.
Qed.

(** The theorem on the last state of the scenario's [sim.confirm] request. *)
Lemma audit_log_only_grows_witness :
  audit_grown_from Scenario.checked (committed Scenario.confirmed.2).
Proof.
  apply (audit_log_only_grows
           (SimConfirm SimService.default_config Scenario.confirm_body)
           Scenario.checked 1010 200).
  apply (list_elem_of_lookup_2 _ 5%nat). vm_compute. reflexivity.
Defined.
